(** * AWS Resource Optimizer Agent: a shallow embedding of its scripts

    The repository is glue code around managed services: [agent.py] and
    [runtime_agent.py] talk to an OAuth token endpoint, an MCP gateway, a
    memory service and a hosted model; the three scripts under [setup/]
    call the control plane.  Every outside service is modelled as an
    oracle that answers the n-th call of a kind, the code as a program in
    a small reader/trace/exception monad, and a run as the trace of
    outside calls it leaves behind. *)

From Stdlib Require Import String Ascii DecimalString.
From Stdlib Require Import NArith ZArith Bool Arith Lia List.
Import ListNotations.

Set Implicit Arguments.
Set Default Goal Selector "!".

(* ===================================================================== *)
(** * Part I: definitions                                                 *)
(* ===================================================================== *)

(** ** Python text *)

Module Py.

(** A Python [str] is a sequence of Unicode code points; [len] counts
    code points. *)
Definition char := N.
Definition str := list char.

(** An ASCII literal of the source. *)
Definition lit (s : string) : str := map N_of_ascii (list_ascii_of_string s).

Definition char_eqb (a b : char) : bool := N.eqb a b.

Fixpoint str_eqb (a b : str) : bool :=
  match a, b with
  | [], [] => true
  | x :: a', y :: b' => char_eqb x y && str_eqb a' b'
  | _, _ => false
  end.

(** Truth value of a string: the empty string is false. *)
Definition truthy (s : str) : bool :=
  match s with [] => false | _ :: _ => true end.

(** [Py_UNICODE_ISSPACE]: the characters that [str.strip()] removes and
    that [\s] matches in a [str] pattern. *)
Definition isspace (c : char) : bool :=
  ((9 <=? c) && (c <=? 13) || (28 <=? c) && (c <=? 32)
   || (c =? 133) || (c =? 160) || (c =? 5760)
   || (8192 <=? c) && (c <=? 8202)
   || (c =? 8232) || (c =? 8233) || (c =? 8239) || (c =? 8287)
   || (c =? 12288))%N.

Fixpoint lstrip (s : str) : str :=
  match s with
  | c :: s' => if isspace c then lstrip s' else s
  | [] => []
  end.

Definition rstrip (s : str) : str := rev (lstrip (rev s)).

(** [s.strip()] *)
Definition strip (s : str) : str := rstrip (lstrip s).

(** [s.startswith(p)] *)
Fixpoint startswith (p s : str) : bool :=
  match p, s with
  | [], _ => true
  | a :: p', b :: s' => char_eqb a b && startswith p' s'
  | _ :: _, [] => false
  end.

(** [p in s] *)
Fixpoint contains (p s : str) : bool :=
  startswith p s || match s with [] => false | _ :: s' => contains p s' end.

(** [sep.join(parts)] *)
Fixpoint join (sep : str) (parts : list str) : str :=
  match parts with
  | [] => []
  | [p] => p
  | p :: rest => p ++ sep ++ join sep rest
  end.

(** The characters of the source that are not ASCII, by code point. *)
Definition nl : str := [10%N].
Definition CROSS : str := [0x274C%N].
Definition CHECK : str := [0x2705%N].
Definition TICK : str := [0x2713%N].
Definition WARNING : str := [0x26A0%N; 0xFE0F%N].
Definition BULB : str := [0x1F4A1%N].
Definition ROBOT : str := [0x1F916%N].
Definition WRENCH : str := [0x1F527%N].
Definition LOCK : str := [0x1F510%N].
Definition ANTENNA : str := [0x1F4E1%N].
Definition BRAIN : str := [0x1F9E0%N].
Definition CHART : str := [0x1F4CA%N].
Definition MEMO : str := [0x1F4DD%N].
Definition DISK : str := [0x1F4BE%N].
Definition BULLET : str := [0x2022%N].
Definition BUST : str := [0x1F464%N].
Definition WAVE : str := [0x1F44B%N].
Definition TARGET : str := [0x1F3AF%N].
Definition CLOCK : str := [0x23F0%N].

(** ["=" * 60] and ["-" * 60] *)
Definition rule_eq : str := repeat 61%N 60.
Definition rule_dash : str := repeat 45%N 60.

(** [str(n)] for a non-negative integer. *)
Definition str_of_nat (n : nat) : str :=
  lit (NilEmpty.string_of_uint (Nat.to_uint n)).

(** The case tables of the interpreter are not part of the repository:
    [lower] is [str.lower], and [ieq p x] says that the pattern literal
    [p] accepts the subject character [x] under [re.IGNORECASE]. *)
Class Casing := { lower : str -> str; ieq : char -> char -> bool }.

(** The tables restricted to ASCII letters, every other code point
    being left alone. *)
Definition ascii_lower_char (c : char) : char :=
  if ((65 <=? c) && (c <=? 90))%N then (c + 32)%N else c.

Definition ascii_casing : Casing :=
  {| lower := map ascii_lower_char;
     ieq := fun p x => char_eqb (ascii_lower_char p) (ascii_lower_char x) |}.

(** Exceptions, by the classes the code tells apart.  [Exception] stands
    for any other subclass of [Exception]. *)
Inductive exn :=
| Exception (msg : str)
| EOFError
| FileNotFoundError (msg : str)
| KeyError (key : str)
| EntityAlreadyExistsException (msg : str)
| KeyboardInterrupt
| SystemExit (status : nat).

(** [isinstance(e, Exception)]: what [except Exception] catches. *)
Definition is_Exception (e : exn) : bool :=
  match e with
  | KeyboardInterrupt | SystemExit _ => false
  | _ => true
  end.

(** [str(e)] *)
Definition exn_str (e : exn) : str :=
  match e with
  | Exception m | FileNotFoundError m | EntityAlreadyExistsException m => m
  | KeyError k => lit "'" ++ k ++ lit "'"
  | EOFError | KeyboardInterrupt => []
  | SystemExit n => str_of_nat n
  end.

End Py.
Import Py.

(** ** Programs that call the outside world *)

(** What an outside service answers: a value, or the exception the call
    raises. *)
Inductive reply (A : Type) :=
| Reply (a : A)
| Fails (e : exn).
Arguments Fails {A} e.

(** How a piece of code ends: with a value, with an exception, or not
    within the loop iterations it was given. *)
Inductive result (A : Type) :=
| Ret (a : A)
| Raise (e : exn)
| Unfinished.
Arguments Raise {A} e.
Arguments Unfinished {A}.

Section Monad.
(** [E] holds the answers of the outside services, [Ev] is the type of
    the calls a run leaves in its trace. *)
Context {E Ev : Type}.

Definition M (A : Type) : Type := E -> list Ev -> result A * list Ev.

Definition ret {A} (a : A) : M A := fun _ tr => (Ret a, tr).

Definition bind {A B} (m : M A) (k : A -> M B) : M B :=
  fun env tr =>
    match m env tr with
    | (Ret a, tr') => k a env tr'
    | (Raise e, tr') => (Raise e, tr')
    | (Unfinished, tr') => (Unfinished, tr')
    end.

Definition raise {A} (e : exn) : M A := fun _ tr => (Raise e, tr).

Definition unfinished {A} : M A := fun _ tr => (Unfinished, tr).

(** A call with no answer of interest. *)
Definition emit (ev : Ev) : M unit := fun _ tr => (Ret tt, tr ++ [ev]).

(** Number of earlier calls of the kind [same]. *)
Definition calls_so_far (same : Ev -> bool) (tr : list Ev) : nat :=
  length (filter same tr).

(** A call [ev] of the kind [same]: it is recorded, and its answer is
    the one [oracle] holds for that many earlier calls of the kind. *)
Definition call {A} (ev : Ev) (same : Ev -> bool)
           (oracle : E -> nat -> reply A) : M A :=
  fun env tr =>
    (match oracle env (calls_so_far same tr) with
     | Reply a => Ret a
     | Fails e => Raise e
     end, tr ++ [ev]).

(** [try: m  except <handles>: h]: [h e] is the clause that catches [e],
    if there is one. *)
Definition try_except {A} (m : M A) (h : exn -> option (M A)) : M A :=
  fun env tr =>
    match m env tr with
    | (Raise e, tr') =>
        match h e with
        | Some handler => handler env tr'
        | None => (Raise e, tr')
        end
    | other => other
    end.

(** [try: m  finally: cleanup], as a [with] block needs it. *)
Definition finally {A} (m : M A) (cleanup : M unit) : M A :=
  fun env tr =>
    match m env tr with
    | (Unfinished, tr') => (Unfinished, tr')
    | (r, tr') =>
        match cleanup env tr' with
        | (Ret _, tr'') => (r, tr'')
        | (Raise e, tr'') => (Raise e, tr'')
        | (Unfinished, tr'') => (Unfinished, tr'')
        end
    end.

(** [except Exception as e: h e] *)
Definition on_Exception {A} (h : exn -> M A) (e : exn) : option (M A) :=
  if is_Exception e then Some (h e) else None.

End Monad.

Declare Scope prog_scope.
Delimit Scope prog_scope with prog.
Notation "x <- m ;; k" := (bind m (fun x => k))
  (at level 61, m at next level, right associativity) : prog_scope.
Notation "m ;; k" := (bind m (fun _ => k))
  (at level 61, right associativity) : prog_scope.
Notation "' pat <- m ;; k" := (bind m (fun x => match x with pat => k end))
  (at level 61, pat pattern, m at next level, right associativity) : prog_scope.
Open Scope prog_scope.

(** ** Removing the model's thinking, [re.sub] at the two patterns of [main] *)

Module Re.
Section Patterns.
Context {casing : Casing}.

Definition OPEN : str := lit "<thinking>".
Definition CLOSE : str := lit "</thinking>".

(** The literal [p] at the head of [s] under [re.IGNORECASE]: what
  follows it, if it matches. *)
Fixpoint match_literal (p s : str) : option str :=
match p, s with
| [], _ => Some s
| a :: p', x :: s' => if ieq a x then match_literal p' s' else None
| _ :: _, [] => None
end.

(** [.*?p] under [re.DOTALL]: the fewest characters, of any kind, that
  are followed by [p]; what follows [p]. *)
Fixpoint lazy_until (p s : str) : option str :=
match match_literal p s with
| Some rest => Some rest
| None => match s with [] => None | _ :: s' => lazy_until p s' end
end.

(** [<thinking>.*?</thinking>\s*] at the head of [s]: what follows the
  match.  The greedy [\s*] ends the pattern, so it takes every white
  space that follows the closing tag. *)
Definition match_block (s : str) : option str :=
match match_literal OPEN s with
| Some body =>
    match lazy_until CLOSE body with
    | Some rest => Some (lstrip rest)
    | None => None
    end
| None => None
end.

(** [re.sub(r'<thinking>.*?</thinking>\s*', '', s)]: the scan copies a
  character where no match starts and leaves out the characters of a
  match; [inside] counts those a match found earlier still covers. *)
Fixpoint re_sub_blocks_from (inside : nat) (s : str) : str :=
match s with
| [] => []
| c :: s' =>
    match inside with
    | S k => re_sub_blocks_from k s'
    | O =>
        match match_block s with
        | Some rest => re_sub_blocks_from (length s' - length rest) s'
        | None => c :: re_sub_blocks_from 0 s'
        end
    end
end.

Definition re_sub_blocks (s : str) : str := re_sub_blocks_from 0 s.

(** [\s*<thinking>.*] matches at the head of [s]: some white space, then
  the opening tag; under [re.DOTALL] the greedy [.*] then runs to the
  end of the string. *)
Fixpoint match_unclosed (s : str) : bool :=
match match_literal OPEN s with
| Some _ => true
| None =>
    match s with
    | c :: s' => isspace c && match_unclosed s'
    | [] => false
    end
end.

(** [re.sub(r'\s*<thinking>.*', '', s)]: everything from the leftmost
  match on is left out. *)
Fixpoint re_sub_unclosed (s : str) : str :=
if match_unclosed s then []
else match s with
     | [] => []
     | c :: s' => c :: re_sub_unclosed s'
     end.

(** The three assignments to [cleaned_response] in [main]. *)
Definition cleaned_response (response : str) : str :=
strip (re_sub_unclosed (re_sub_blocks response)).

(** An opening tag starts somewhere in [s]. *)
Fixpoint has_open (s : str) : bool :=
match match_literal OPEN s with
| Some _ => true
| None => match s with [] => false | _ :: s' => has_open s' end
end.

(** No opening tag starts inside [before] when [rest] follows it. *)
Definition none_starts_in (before rest : str) : Prop :=
forall b1 c b2, before = b1 ++ c :: b2 ->
                match_literal OPEN (c :: b2 ++ rest) = None.

End Patterns.
End Re.

(** ** The world of [agent.py] and [runtime_agent.py] *)

Module World.

(** A tool as the gateway lists it. *)
Record MCPAgentTool := { tool_name : str; tool_spec : str }.

(** [PaginatedList]: a list that carries the token of the next page. *)
Record PaginatedList := {
items : list MCPAgentTool;
pagination_token : option str }.

(** What [agent(...)] hands back: a [str], or an object with its [str()]
  rendering and, when it has one, its [message] attribute. *)
Inductive response :=
| RStr (s : str)
| RObj (message : option str) (shown : str).

(** A message of the conversation: [content] is a list of blocks, and a
  block may or may not have a ["text"] key. *)
Record ContentBlock := { text : option str }.
Record Message := { role : str; content : list ContentBlock }.

(** A message as the memory service returns it:
  [{'role': ..., 'content': {'text': ...}}]. *)
Record MemoryMessage := { m_role : str; m_text : str }.

Inductive event :=
| Print (line : str)
| LogError (msg : str)
| HttpPost (url data : str)
| TransportOpen (url authorization : str)
| TransportClose
| ListTools (token : option str)
| ListMemories
| CreateMemory (name : str)
| WriteConfig (memory_id memory_name : str)
| NewAgent (agent_name : str) (tools : list MCPAgentTool)
| Input (prompt : str)
| Invoke (prompt : str)
| GetLastKTurns (memory_id actor_id session_id : str) (k : nat)
| CreateEvent (memory_id : str) (actor_id session_id : option str)
            (messages : list (str * str)).

Definition is_Print (e : event) := match e with Print _ => true | _ => false end.
Definition is_HttpPost (e : event) := match e with HttpPost _ _ => true | _ => false end.
Definition is_TransportOpen (e : event) := match e with TransportOpen _ _ => true | _ => false end.
Definition is_ListTools (e : event) := match e with ListTools _ => true | _ => false end.
Definition is_ListMemories (e : event) := match e with ListMemories => true | _ => false end.
Definition is_CreateMemory (e : event) := match e with CreateMemory _ => true | _ => false end.
Definition is_WriteConfig (e : event) := match e with WriteConfig _ _ => true | _ => false end.
Definition is_NewAgent (e : event) := match e with NewAgent _ _ => true | _ => false end.
Definition is_Input (e : event) := match e with Input _ => true | _ => false end.
Definition is_Invoke (e : event) := match e with Invoke _ => true | _ => false end.
Definition is_GetLastKTurns (e : event) := match e with GetLastKTurns _ _ _ _ => true | _ => false end.
Definition is_CreateEvent (e : event) := match e with CreateEvent _ _ _ _ => true | _ => false end.

(** The answers of the outside services, each by the number of earlier
  calls of its kind. *)
Record Env := {
token_endpoint : nat -> reply str;          (* [response.json()['access_token']] *)
transport : nat -> reply unit;              (* [streamablehttp_client(...)] *)
gateway : nat -> reply PaginatedList;       (* [list_tools_sync] *)
memories : nat -> reply (list str);         (* [m['id']] of [list_memories()] *)
new_memory : nat -> reply str;              (* [create_memory_and_wait(...)['id']] *)
config_file : nat -> reply unit;            (* writing [config.json] *)
agent_ctor : nat -> reply unit;             (* [Agent(...)] *)
stdin : nat -> reply str;                   (* [input(...)] *)
model : nat -> reply response;              (* [agent(...)] *)
last_turns : nat -> reply (list (list MemoryMessage));
memory_store : nat -> reply unit }.         (* [create_event] *)

Definition Prog := @M Env event.

Definition print (line : str) : Prog unit := emit (Print line).

(** [MCPClient(transport_callable)]: entering the client calls
  [transport_callable], leaving it stops the session. *)
Record MCPClient := { transport_callable : Prog unit }.

Definition with_client {A} (client : MCPClient) (body : Prog A) : Prog A :=
transport_callable client ;;
finally body (emit TransportClose).

Definition list_tools_sync (client : MCPClient) (pagination_token : option str)
: Prog PaginatedList :=
call (ListTools pagination_token) is_ListTools gateway.

(** [requests.post(token_url, data=..., headers=...)] and
  [response.json()['access_token']]. *)
Definition post_for_token (token_url client_id client_secret : str) : Prog str :=
call (HttpPost token_url
        (lit "grant_type=client_credentials&client_id=" ++ client_id
         ++ lit "&client_secret=" ++ client_secret))
     is_HttpPost token_endpoint.

(** [streamablehttp_client(url, headers={"Authorization": ...})] *)
Definition streamablehttp_client (url authorization : str) : Prog unit :=
call (TransportOpen url authorization) is_TransportOpen transport.

(** Tools with names <= 64 characters (Bedrock limitation). *)
Definition name_fits (tool : MCPAgentTool) : bool :=
length (tool_name tool) <=? 64.

End World.
Import World.

(** ** [agent.py] *)

Module AgentPy.

Record Config := {
  CLIENT_ID : str;
  CLIENT_SECRET : str;
  TOKEN_URL : str;
  GATEWAY_URL : str;
  REGION : str }.

Definition ACTOR_ID : str := lit "resource-optimizer-001".
Definition SESSION_ID : str := lit "main-session-" ++ ACTOR_ID.

Definition fetch_access_token (client_id client_secret token_url : str) : Prog str :=
  post_for_token token_url client_id client_secret.

Definition create_streamable_http_transport (mcp_url access_token : str) : Prog unit :=
  streamablehttp_client mcp_url (lit "Bearer " ++ access_token).

(** The [while more_tools] loop, one unit of [fuel] per iteration. *)
Fixpoint get_full_tools_list_while (fuel : nat) (client : MCPClient)
         (more_tools : bool) (tools : list MCPAgentTool)
         (pagination_token : option str) : Prog (list MCPAgentTool) :=
  if more_tools then
    match fuel with
    | O => unfinished
    | S fuel' =>
        tmp_tools <- list_tools_sync client pagination_token ;;
        let tools := tools ++ items tmp_tools in
        match World.pagination_token tmp_tools with
        | None => get_full_tools_list_while fuel' client false tools pagination_token
        | Some next =>
            get_full_tools_list_while fuel' client true tools (Some next)
        end
    end
  else ret tools.

Definition get_full_tools_list (fuel : nat) (client : MCPClient)
  : Prog (list MCPAgentTool) :=
  get_full_tools_list_while fuel client true [] None.

(** The [Agent] object, by the attributes the code reads and writes;
    [state] is the dict given to the constructor. *)
Record Agent := {
  agent_name : str;
  system_prompt : str;
  agent_tools : list MCPAgentTool;
  state_actor_id : option str;
  state_session_id : option str;
  messages : list Message }.

Definition set_system_prompt (agent : Agent) (p : str) : Agent :=
  {| agent_name := agent_name agent;
     system_prompt := p;
     agent_tools := agent_tools agent;
     state_actor_id := state_actor_id agent;
     state_session_id := state_session_id agent;
     messages := messages agent |}.

(** [not x] for a value that is a [str] or [None]. *)
Definition falsy (x : option str) : bool :=
  match x with
  | Some s => negb (truthy s)
  | None => true
  end.

(** [l[-1]] and [l[0]], an [IndexError] on the empty list. *)
Fixpoint last_item {A} (l : list A) : option A :=
  match l with
  | [] => None
  | [a] => Some a
  | _ :: l' => last_item l'
  end.

Definition IndexError : exn := Exception (lit "list index out of range").

Definition index {A} (item : option A) : Prog A :=
  match item with
  | Some a => ret a
  | None => raise IndexError
  end.

(** [CostMemoryHookProvider]: the memory client is a handle on the
    service, the provider keeps the memory's id. *)
Record CostMemoryHookProvider := { memory_id : str }.

Definition get_last_k_turns (memory_id actor_id session_id : str) (k : nat)
  : Prog (list (list MemoryMessage)) :=
  call (GetLastKTurns memory_id actor_id session_id k) is_GetLastKTurns last_turns.

Definition create_event (memory_id : str) (actor_id session_id : option str)
           (msgs : list (str * str)) : Prog unit :=
  call (CreateEvent memory_id actor_id session_id msgs) is_CreateEvent memory_store.

(** The two loops over [recent_turns] and the [join]. *)
Definition format_context (recent_turns : list (list MemoryMessage)) : str :=
  join nl (map (fun message => m_role message ++ lit ": " ++ m_text message)
               (concat recent_turns)).

(** The logger is set to [ERROR]: [debug] and [warning] print nothing.
    The hook updates [event.agent] in place; here it returns it. *)
Definition on_agent_initialized (self : CostMemoryHookProvider) (agent : Agent)
  : Prog Agent :=
  try_except
    (if falsy (state_actor_id agent) || falsy (state_session_id agent)
     then ret agent
     else
       recent_turns <- get_last_k_turns (memory_id self)
                         (match state_actor_id agent with Some a => a | None => [] end)
                         (match state_session_id agent with Some a => a | None => [] end)
                         5 ;;
       match recent_turns with
       | [] => ret agent
       | _ :: _ =>
           ret (set_system_prompt agent
                  (system_prompt agent ++ nl ++ nl ++ lit "Recent conversation:"
                   ++ nl ++ format_context recent_turns))
       end)
    (on_Exception (fun e =>
       emit (LogError (lit "Memory load error: " ++ exn_str e)) ;; ret agent)).

Definition on_message_added (self : CostMemoryHookProvider) (agent : Agent)
  : Prog unit :=
  try_except
    (newest <- index (last_item (messages agent)) ;;
     block <- index (hd_error (content newest)) ;;
     match text block with
     | Some t =>
         if truthy t
         then create_event (memory_id self) (state_actor_id agent)
                (state_session_id agent) [(t, role newest)]
         else ret tt
     | None => ret tt
     end)
    (on_Exception (fun e =>
       emit (LogError (lit "Memory save error: " ++ exn_str e)))).

Definition memory_name : str := lit "ResourceOptimizerMemory".

(** The memory client is a handle; the function's result is the id. *)
Definition create_or_get_memory : Prog str :=
  try_except
    (ids <- call ListMemories is_ListMemories memories ;;
     match find (startswith memory_name) ids with
     | Some id => ret id
     | None =>
         id <- call (CreateMemory memory_name) is_CreateMemory new_memory ;;
         call (WriteConfig id memory_name) is_WriteConfig config_file ;;
         ret id
     end)
    (on_Exception (fun e =>
       emit (LogError (CROSS ++ lit " Memory error: " ++ exn_str e)) ;; raise e)).

(** [Agent(name=..., tools=..., ...)]: the constructor is the library's. *)
Definition new_Agent (name prompt : str) (tools : list MCPAgentTool)
           (actor_id session_id : option str) : Prog Agent :=
  call (NewAgent name tools) is_NewAgent agent_ctor ;;
  ret {| agent_name := name; system_prompt := prompt; agent_tools := tools;
         state_actor_id := actor_id; state_session_id := session_id;
         messages := [] |}.

Section Main.
Context {casing : Casing}.
Variable config : Config.
(** The system prompt of the source, today's date filled in. *)
Variable prompt_text : str.

Definition create_resource_optimizer_agent (fuel : nat)
  : Prog (Agent * MCPClient * str) :=
  print (nl ++ rule_eq) ;;
  print (WRENCH ++ lit "  AWS Resource Optimizer Agent") ;;
  print rule_eq ;;
  print (LOCK ++ lit " Authenticating with gateway...") ;;
  access_token <- fetch_access_token (CLIENT_ID config) (CLIENT_SECRET config)
                    (TOKEN_URL config) ;;
  print (CHECK ++ lit " Authentication successful") ;;
  print (ANTENNA ++ lit " Connecting to AgentCore Gateway...") ;;
  let mcp_client :=
    {| transport_callable :=
         create_streamable_http_transport (GATEWAY_URL config) access_token |} in
  with_client mcp_client
    (all_tools <- get_full_tools_list fuel mcp_client ;;
     let tools := filter name_fits all_tools in
     print (CHECK ++ lit " Gateway connected (" ++ str_of_nat (length tools)
            ++ lit " tools available)") ;;
     print (BRAIN ++ lit " Loading AgentCore Memory...") ;;
     memory_id <- create_or_get_memory ;;
     print (CHECK ++ lit " Memory ready (ID: " ++ memory_id ++ lit ")") ;;
     agent <- new_Agent (lit "ResourceOptimizerAgent") prompt_text tools
                (Some ACTOR_ID) (Some SESSION_ID) ;;
     ret (agent, mcp_client, memory_id)).

(** How an iteration of [while True] ends. *)
Inductive flow := Break | Continue.

Definition agent_says (s : str) : str := nl ++ ROBOT ++ lit " Agent: " ++ s.

(** The text of a line of the agent: what follows the prefix. *)
Fixpoint after_prefix (p line : str) : option str :=
  match p, line with
  | [], _ => Some line
  | a :: p', b :: line' => if char_eqb a b then after_prefix p' line' else None
  | _ :: _, [] => None
  end.

Definition said (line : str) : option str := after_prefix (agent_says []) line.

Definition rate_limit_reached : str :=
  nl ++ WARNING ++ lit "  AWS API rate limit reached.".
Definition rate_limit_advice : str :=
  BULB ++ lit " Wait a moment and try again, or ask about different resources.".

(** The [if isinstance(response, str)] statement. *)
Definition show_response (response : response) : Prog unit :=
  match response with
  | RStr r =>
      let cleaned_response := Re.cleaned_response r in
      if contains (lit "rate limit") (lower cleaned_response)
         || contains (lit "throttl") (lower cleaned_response)
      then
        print rate_limit_reached ;;
        print rate_limit_advice
      else if truthy cleaned_response
           then print (agent_says cleaned_response)
           else ret tt
  | RObj _ shown => print (agent_says shown)
  end.

(** The text of a response that [show_response] prints after the
    agent's name, and whether it prints it. *)
Definition answer_text (response : response) : str :=
  match response with
  | RStr r => Re.cleaned_response r
  | RObj _ shown => shown
  end.

Definition shown_as_is (response : response) : bool :=
  match response with
  | RStr r =>
      negb (contains (lit "rate limit") (lower (Re.cleaned_response r))
            || contains (lit "throttl") (lower (Re.cleaned_response r)))
      && truthy (Re.cleaned_response r)
  | RObj _ _ => true
  end.

(** The [try] statement inside [while True]. *)
Definition iteration (agent : Agent) : Prog flow :=
  try_except
    (user_input <- call (Input (nl ++ BUST ++ lit " You: ")) is_Input stdin ;;
     if str_eqb (lower user_input) (lit "exit")
     then
       print (nl ++ lit "Goodbye! Keep monitoring those AWS resources! " ++ WAVE) ;;
       ret Break
     else if negb (truthy (strip user_input))
          then ret Continue
          else
            response <- call (Invoke user_input) is_Invoke model ;;
            show_response response ;;
            ret Continue)
    (fun e =>
       match e with
       | KeyboardInterrupt =>
           Some (print (nl ++ nl ++ lit "Exiting...") ;; ret Break)
       | EOFError =>
           Some (print (nl ++ nl ++ lit "Input stream ended.") ;; ret Break)
       | _ =>
           on_Exception (fun e =>
             print (nl ++ lit "Error: " ++ exn_str e) ;;
             (if contains (lit "rate limit") (lower (exn_str e))
              then print (BULB ++ lit " Try again in a few minutes - AWS has strict rate limits")
              else ret tt) ;;
             print (lit "Please try a different question.") ;;
             ret Continue) e
       end).

Fixpoint interactive_loop (fuel : nat) (agent : Agent) : Prog unit :=
  match fuel with
  | O => unfinished
  | S fuel' =>
      next <- iteration agent ;;
      match next with
      | Break => ret tt
      | Continue => interactive_loop fuel' agent
      end
  end.

Definition welcome : list str :=
  [ rule_eq;
    lit "Welcome! I'm your AWS Resource Optimizer powered by";
    lit "Claude Sonnet 4.5 with AgentCore Gateway & Semantic Search";
    nl ++ rule_dash;
    lit "I optimize AWS resources using:";
    lit "  " ++ CHART ++ lit " CloudWatch Metrics (Performance monitoring)";
    lit "  " ++ MEMO ++ lit " CloudWatch Logs (Log analysis)";
    lit "  " ++ DISK ++ lit " EBS API (Volume & snapshot management)";
    nl ++ rule_dash;
    lit "Try asking:";
    lit "  " ++ BULLET ++ lit " List available metrics for my resources";
    lit "  " ++ BULLET ++ lit " Show me underutilized resources";
    lit "  " ++ BULLET ++ lit " Analyze Lambda function performance";
    lit "  " ++ BULLET ++ lit " Search logs for errors";
    lit "  " ++ BULLET ++ lit " What did we discuss last time?";
    rule_dash;
    lit "Type 'exit' to quit";
    rule_eq ].

Fixpoint print_all (lines : list str) : Prog unit :=
  match lines with
  | [] => ret tt
  | l :: rest => print l ;; print_all rest
  end.

Definition main (fuel : nat) : Prog unit :=
  try_except
    ('(agent, mcp_client, _) <- create_resource_optimizer_agent fuel ;;
     print_all welcome ;;
     with_client mcp_client (interactive_loop fuel agent))
    (on_Exception (fun e =>
       print (CROSS ++ lit " Failed to initialize agent: " ++ exn_str e))).

End Main.

End AgentPy.

(** ** [runtime_agent.py] *)

Module RuntimeAgent.

(** The four environment variables. *)
Record Environ := {
  GATEWAY_URL : str;
  COGNITO_CLIENT_ID : str;
  COGNITO_CLIENT_SECRET : str;
  COGNITO_TOKEN_URL : str }.

Section Runtime.
Variable environ : Environ.
Variable prompt_text : str.

Definition get_access_token : Prog str :=
  post_for_token (COGNITO_TOKEN_URL environ) (COGNITO_CLIENT_ID environ)
    (COGNITO_CLIENT_SECRET environ).

Definition create_transport : Prog unit :=
  token <- get_access_token ;;
  streamablehttp_client (GATEWAY_URL environ) (lit "Bearer " ++ token).

(** The [while True] loop of [get_tools]. *)
Fixpoint get_tools_while (fuel : nat) (mcp_client : MCPClient)
         (all_tools : list MCPAgentTool) (pagination_token : option str)
  : Prog (list MCPAgentTool) :=
  match fuel with
  | O => unfinished
  | S fuel' =>
      result <- list_tools_sync mcp_client pagination_token ;;
      let all_tools := all_tools ++ items result in
      match World.pagination_token result with
      | None => ret all_tools
      | Some next => get_tools_while fuel' mcp_client all_tools (Some next)
      end
  end.

Definition get_tools (fuel : nat) : Prog (list MCPAgentTool * MCPClient) :=
  let mcp_client := {| transport_callable := create_transport |} in
  with_client mcp_client
    (all_tools <- get_tools_while fuel mcp_client [] None ;;
     let tools := filter name_fits all_tools in
     ret (tools, mcp_client)).

(** The statements of the module: tools, model, agent. *)
Definition startup (fuel : nat) : Prog (AgentPy.Agent * MCPClient) :=
  '(tools, mcp_client) <- get_tools fuel ;;
  agent <- AgentPy.new_Agent (lit "ResourceOptimizerAgent") prompt_text tools
             None None ;;
  ret (agent, mcp_client).

Definition default_prompt : str :=
  lit "Hello! How can I help optimize your AWS resources?".

(** [invoke(payload)]: [payload] by its ["prompt"] key; the result is
    the value under ["result"]. *)
Definition invoke (mcp_client : MCPClient) (payload : option str) : Prog str :=
  let user_message := match payload with Some p => p | None => default_prompt end in
  result <- with_client mcp_client (call (Invoke user_message) is_Invoke model) ;;
  ret (match result with
       | RObj (Some message) _ => message
       | RObj None shown => shown
       | RStr s => s
       end).

(** The module is loaded, then the runtime calls [invoke] once per
    request; a request whose handler raises an [Exception] is
    answered with an error and the next one is served. *)
Fixpoint serve (mcp_client : MCPClient) (payloads : list (option str))
  : Prog (list (option str)) :=
  match payloads with
  | [] => ret []
  | p :: rest =>
      r <- try_except (x <- invoke mcp_client p ;; ret (Some x))
                      (on_Exception (fun _ => ret None)) ;;
      rs <- serve mcp_client rest ;;
      ret (r :: rs)
  end.

Definition run (fuel : nat) (payloads : list (option str))
  : Prog (list (option str)) :=
  '(_, mcp_client) <- startup fuel ;;
  serve mcp_client payloads.

End Runtime.

End RuntimeAgent.

(** ** The order of the steps of a run *)

Module Steps.

(** The tools on the first [n] pages the gateway has sent. *)
Definition enumerated (env : Env) (n : nat) : list MCPAgentTool :=
  flat_map (fun i => match gateway env i with
                     | Reply page => items page
                     | Fails _ => []
                     end) (seq 0 n).

(** The pagination token of the page sent in answer to call [i]. *)
Definition page_token (env : Env) (i : nat) : option str :=
  match gateway env i with
  | Reply page => pagination_token page
  | Fails _ => None
  end.

(** The token a listing call has to carry after the calls in [before]. *)
Definition token_due (env : Env) (before : list event) : option str :=
  match calls_so_far is_ListTools before with
  | O => None
  | S i => page_token env i
  end.

Definition seen (kind : event -> bool) (tr : list event) : bool :=
  existsb kind tr.

(** What [step] may be in a trace, given the part [before] it, for it
    to be in its place. *)
Definition in_place (step : list event -> event -> Prop) (tr : list event) : Prop :=
  forall before e after, tr = before ++ e :: after -> step before e.

Section AgentPy.
Context {casing : Casing}.
Variable env : Env.
Variable config : AgentPy.Config.

(** The text [s] came back from call [k] of the model. *)
Definition came_back (k : nat) (s : str) : Prop :=
  match model env k with
  | Reply response => s = AgentPy.answer_text response
  | Fails _ => False
  end.

(** The calls of the set-up when every service answers, in the order
    made. *)
Definition set_up_calls (access_token : str) (tokens : list (option str))
           (tools : list MCPAgentTool) (memory_id : str) : list event :=
  [ Print (nl ++ rule_eq);
    Print (WRENCH ++ lit "  AWS Resource Optimizer Agent");
    Print rule_eq;
    Print (LOCK ++ lit " Authenticating with gateway...");
    HttpPost (AgentPy.TOKEN_URL config)
      (lit "grant_type=client_credentials&client_id=" ++ AgentPy.CLIENT_ID config
       ++ lit "&client_secret=" ++ AgentPy.CLIENT_SECRET config);
    Print (CHECK ++ lit " Authentication successful");
    Print (ANTENNA ++ lit " Connecting to AgentCore Gateway...");
    TransportOpen (AgentPy.GATEWAY_URL config) (lit "Bearer " ++ access_token) ]
  ++ map ListTools tokens
  ++ [ Print (CHECK ++ lit " Gateway connected (" ++ str_of_nat (length tools)
              ++ lit " tools available)");
       Print (BRAIN ++ lit " Loading AgentCore Memory...");
       ListMemories;
       Print (CHECK ++ lit " Memory ready (ID: " ++ memory_id ++ lit ")");
       NewAgent (lit "ResourceOptimizerAgent") tools;
       TransportClose ].

(** The steps of [agent.py]: the token is obtained once; a transport
    is opened to the gateway with that token as bearer; tools are
    listed through an open transport, before the agent exists, page
    after page; the agent gets the listed tools whose names fit; the
    model is called once the agent exists; a line of the agent is
    printed right after the call whose answer it shows. *)
Definition agent_step (before : list event) (e : event) : Prop :=
  match e with
  | HttpPost url _ =>
      url = AgentPy.TOKEN_URL config /\ seen is_HttpPost before = false
  | TransportOpen url authorization =>
      url = AgentPy.GATEWAY_URL config
      /\ seen is_HttpPost before = true
      /\ exists access_token,
           token_endpoint env 0 = Reply access_token
           /\ authorization = lit "Bearer " ++ access_token
  | ListTools token =>
      seen is_TransportOpen before = true
      /\ seen is_NewAgent before = false
      /\ token = token_due env before
  | NewAgent _ tools =>
      seen is_ListTools before = true
      /\ tools = filter name_fits
                   (enumerated env (calls_so_far is_ListTools before))
  | Invoke _ => seen is_NewAgent before = true
  | Print line =>
      forall s, line = AgentPy.agent_says s ->
                exists earlier user_input,
                  before = earlier ++ [Invoke user_input]
                  /\ came_back (calls_so_far is_Invoke earlier) s
  | _ => True
  end.

End AgentPy.

Section RuntimeAgent.
Variable env : Env.
Variable environ : RuntimeAgent.Environ.

(** The steps of [runtime_agent.py]: a transport is opened right after
    a request to the token endpoint, with the token of that request as
    bearer; listing and the agent's tools are as in [agent.py]. *)
Definition runtime_step (before : list event) (e : event) : Prop :=
  match e with
  | HttpPost url _ => url = RuntimeAgent.COGNITO_TOKEN_URL environ
  | TransportOpen url authorization =>
      url = RuntimeAgent.GATEWAY_URL environ
      /\ exists earlier data token,
           before = earlier ++ [HttpPost (RuntimeAgent.COGNITO_TOKEN_URL environ) data]
           /\ token_endpoint env (calls_so_far is_HttpPost earlier) = Reply token
           /\ authorization = lit "Bearer " ++ token
  | ListTools token =>
      seen is_TransportOpen before = true
      /\ seen is_NewAgent before = false
      /\ token = token_due env before
  | NewAgent _ tools =>
      seen is_ListTools before = true
      /\ tools = filter name_fits
                   (enumerated env (calls_so_far is_ListTools before))
  | Invoke _ => seen is_NewAgent before = true
  | _ => True
  end.

End RuntimeAgent.

End Steps.

(** ** The provisioning scripts under [setup/] *)

Module Setup.

(** A JSON document; an object keeps its keys in the order written. *)
#[warnings="-register-all"]
Inductive json :=
| JStr (s : str)
| JNum (n : nat)
| JList (elements : list json)
| JObj (fields : list (str * json)).

Definition js (s : string) : json := JStr (lit s).
Definition field (key : string) (value : json) : str * json := (lit key, value).

(** [json.dumps] is the library's. *)
Class JsonLib := { dumps : json -> str }.

(** [config.json], by the keys the scripts read and write; a key that is
    absent is [None]. *)
Record AwsSection := {
  account_id : option str;
  gateway_role_arn : option str;
  region : option str }.

Record CognitoSection := {
  client_id : option str;
  client_secret : option str;
  token_url : option str;
  discovery_url : option str }.

Record GatewaySection := {
  gateway_id : option str;
  gateway_url : option str;
  gateway_name : option str }.

Record SmithyTarget := {
  target_id : str;
  target_name : str;
  target_uri : str;
  target_description : str }.

Record ConfigFile := {
  aws : option AwsSection;
  cognito : option CognitoSection;
  gateway : option GatewaySection;
  smithy_targets : option (list SmithyTarget) }.

Definition set_aws (config : ConfigFile) (section : AwsSection) : ConfigFile :=
  {| aws := Some section; cognito := cognito config; gateway := gateway config;
     smithy_targets := smithy_targets config |}.

Definition set_gateway (config : ConfigFile) (section : GatewaySection) : ConfigFile :=
  {| aws := aws config; cognito := cognito config; gateway := Some section;
     smithy_targets := smithy_targets config |}.

Definition set_smithy_targets (config : ConfigFile) (targets : list SmithyTarget)
  : ConfigFile :=
  {| aws := aws config; cognito := cognito config; gateway := gateway config;
     smithy_targets := Some targets |}.

(** What a script does to the outside: lines printed, the file, the SDK. *)
Inductive action :=
| Out (line : str)
| LoadConfig
| SaveConfig (config : ConfigFile)
| CreateRole (RoleName AssumeRolePolicyDocument Description : str)
             (MaxSessionDuration : nat)
| PutRolePolicy (RoleName PolicyName PolicyDocument : str)
| GetCallerIdentity
| SessionRegion
| CreateGateway (name roleArn protocolType authorizerType : str)
                (authorizerConfiguration protocolConfiguration : json)
                (exceptionLevel description : str)
| CreateGatewayTarget (gatewayIdentifier name description : str)
                      (targetConfiguration : json)
                      (credentialProviderConfigurations : list json)
| Sleep (seconds : nat).

Definition is_LoadConfig (a : action) := match a with LoadConfig => true | _ => false end.
Definition is_SaveConfig (a : action) := match a with SaveConfig _ => true | _ => false end.
Definition is_CreateRole (a : action) := match a with CreateRole _ _ _ _ => true | _ => false end.
Definition is_PutRolePolicy (a : action) := match a with PutRolePolicy _ _ _ => true | _ => false end.
Definition is_GetCallerIdentity (a : action) := match a with GetCallerIdentity => true | _ => false end.
Definition is_SessionRegion (a : action) := match a with SessionRegion => true | _ => false end.
Definition is_CreateGateway (a : action) :=
  match a with CreateGateway _ _ _ _ _ _ _ _ => true | _ => false end.
Definition is_CreateGatewayTarget (a : action) :=
  match a with CreateGatewayTarget _ _ _ _ _ => true | _ => false end.

(** A call of the SDK. *)
Definition is_sdk (a : action) : bool :=
  is_CreateRole a || is_PutRolePolicy a || is_GetCallerIdentity a
  || is_CreateGateway a || is_CreateGatewayTarget a.

(** The control plane and the file system, by the number of earlier calls
    of the kind. *)
Record Cloud := {
  config_read : nat -> reply ConfigFile;       (* [json.load] of [config.json] *)
  config_write : nat -> reply unit;
  create_role : nat -> reply str;              (* [['Role']['Arn']] *)
  put_role_policy : nat -> reply unit;
  caller_identity : nat -> reply str;          (* [['Account']] *)
  session_region : nat -> reply (option str);  (* [boto3.Session().region_name] *)
  create_gateway : nat -> reply (str * str);   (* [gatewayId], [gatewayUrl] *)
  create_gateway_target : nat -> reply str }.  (* [targetId] *)

Definition Script := @M Cloud action.

Definition out (line : str) : Script unit := emit (Out line).

(** [d[key]] on a dict that may lack the key. *)
Definition item {A} (key : string) (value : option A) : Script A :=
  match value with
  | Some a => ret a
  | None => raise (KeyError (lit key))
  end.

(** [sys.exit(1)] *)
Definition sys_exit {A} (status : nat) : Script A := raise (SystemExit status).

(** The status with which the interpreter ends: [sys.exit(n)] gives [n],
    an exception nobody caught gives 1, an interrupt 130. *)
Definition exit_status {A} (r : result A) : option nat :=
  match r with
  | Ret _ => Some 0
  | Raise (SystemExit n) => Some n
  | Raise KeyboardInterrupt => Some 130
  | Raise _ => Some 1
  | Unfinished => None
  end.

Definition load_config : Script ConfigFile := call LoadConfig is_LoadConfig config_read.

Definition save_config (config : ConfigFile) : Script unit :=
  call (SaveConfig config) is_SaveConfig config_write.

Section Scripts.
Context {json_lib : JsonLib}.

(** *** [01-create-iam-role.py] *)

Definition trust_policy : json :=
  JObj [ field "Version" (js "2012-10-17");
         field "Statement" (JList [
           JObj [ field "Effect" (js "Allow");
                  field "Principal" (JObj [
                    field "Service" (js "bedrock-agentcore.amazonaws.com") ]);
                  field "Action" (js "sts:AssumeRole") ] ]) ].

Definition statement (sid : string) (actions : list string) (resource : json) : json :=
  JObj [ field "Sid" (js sid);
         field "Effect" (js "Allow");
         field "Action" (JList (map js actions));
         field "Resource" resource ].

Definition permissions_policy : json :=
  JObj [ field "Version" (js "2012-10-17");
         field "Statement" (JList [
           statement "EC2ResourceAccess"
             [ "ec2:DescribeInstances"; "ec2:DescribeVolumes";
               "ec2:DescribeSnapshots"; "ec2:DescribeAddresses";
               "ec2:DescribeImages"; "ec2:DescribeSecurityGroups";
               "ec2:DescribeNetworkInterfaces"; "ec2:DescribeInstanceTypes";
               "ec2:DescribeRegions" ]%string (js "*");
           statement "EBSResourceAccess"
             [ "ebs:ListSnapshotBlocks"; "ebs:ListChangedBlocks";
               "ebs:GetSnapshotBlock" ]%string (js "*");
           statement "RDSResourceAccess"
             [ "rds:DescribeDBInstances"; "rds:DescribeDBSnapshots";
               "rds:DescribeDBClusters"; "rds:ListTagsForResource" ]%string (js "*");
           statement "CloudWatchMetrics"
             [ "cloudwatch:GetMetricStatistics"; "cloudwatch:ListMetrics";
               "cloudwatch:GetMetricData" ]%string (js "*");
           statement "CloudWatchLogs"
             [ "logs:DescribeLogGroups"; "logs:DescribeLogStreams";
               "logs:GetLogEvents"; "logs:FilterLogEvents" ]%string (js "*");
           statement "S3SmithySpecAccess"
             [ "s3:GetObject"; "s3:ListBucket" ]%string
             (JList [ js "arn:aws:s3:::cost-explorer-smithy-api";
                      js "arn:aws:s3:::cost-explorer-smithy-api/*" ]) ]) ].

Definition role_name : str := lit "ResourceOptimizerGatewayRole".

(** The dict that [create_gateway_role] returns. *)
Record RoleResult := {
  result_role_name : str;
  result_role_arn : str;
  result_account_id : option str }.

Definition put_permissions : Script unit :=
  call (PutRolePolicy role_name (lit "ResourceOptimizerPermissions")
          (dumps permissions_policy))
       is_PutRolePolicy put_role_policy.

Definition get_account : Script str :=
  call GetCallerIdentity is_GetCallerIdentity caller_identity.

Definition create_gateway_role : Script RoleResult :=
  out (lit "Creating IAM role: " ++ role_name) ;;
  try_except
    (role_arn <- call (CreateRole role_name (dumps trust_policy)
                         (lit "IAM role for CloudWatch Monitoring AgentCore Gateway - monitors AWS resources via CloudWatch, EBS, and Logs")
                         3600)
                      is_CreateRole create_role ;;
     out (CHECK ++ lit " Role created: " ++ role_arn) ;;
     out (lit "Attaching permissions policy...") ;;
     put_permissions ;;
     out (CHECK ++ lit " Permissions attached") ;;
     config <- try_except load_config
                 (fun e => match e with
                           | FileNotFoundError _ =>
                               Some (ret {| aws := Some {| account_id := None;
                                                           gateway_role_arn := None;
                                                           region := None |};
                                            cognito := None; gateway := None;
                                            smithy_targets := None |})
                           | _ => None
                           end) ;;
     account <- get_account ;;
     session <- call SessionRegion is_SessionRegion session_region ;;
     let region_name := match session with
                        | Some r => if truthy r then r else lit "us-east-1"
                        | None => lit "us-east-1"
                        end in
     save_config (set_aws config {| account_id := Some account;
                                    gateway_role_arn := Some role_arn;
                                    region := Some region_name |}) ;;
     out (CHECK ++ lit " Config updated") ;;
     ret {| result_role_name := role_name; result_role_arn := role_arn;
            result_account_id := Some account |})
    (fun e =>
       match e with
       | EntityAlreadyExistsException _ =>
           Some (out (WARNING ++ lit "  Role " ++ role_name ++ lit " already exists") ;;
                 account <- get_account ;;
                 let role_arn := lit "arn:aws:iam::" ++ account ++ lit ":role/"
                                 ++ role_name in
                 out (lit "Updating permissions policy...") ;;
                 put_permissions ;;
                 out (CHECK ++ lit " Permissions updated") ;;
                 ret {| result_role_name := role_name; result_role_arn := role_arn;
                        result_account_id := None |})
       | _ =>
           on_Exception (fun e =>
             out (CROSS ++ lit " Error creating role: " ++ exn_str e) ;;
             sys_exit 1) e
       end).

Definition iam_role_script : Script unit :=
  out rule_eq ;;
  out (lit "Creating IAM Role for Resource Optimizer Gateway") ;;
  out rule_eq ;;
  result <- create_gateway_role ;;
  out (nl ++ rule_eq) ;;
  out (CHECK ++ lit " IAM ROLE SETUP COMPLETE") ;;
  out rule_eq ;;
  out (lit "Role Name: " ++ result_role_name result) ;;
  out (lit "Role ARN:  " ++ result_role_arn result) ;;
  out rule_eq ;;
  out (nl ++ TARGET ++ lit " Next: Run 02-create-cognito-auth.py").

(** *** [02-create-gateway.py] *)

(** [not cognito_config]: the key is absent or its dict is empty. *)
Definition no_cognito (section : option CognitoSection) : bool :=
  match section with
  | None => true
  | Some c =>
      match client_id c, client_secret c, token_url c, discovery_url c with
      | None, None, None, None => true
      | _, _, _, _ => false
      end
  end.

Definition auth_config (client discovery : str) : json :=
  JObj [ field "customJWTAuthorizer" (JObj [
           field "allowedClients" (JList [JStr client]);
           field "discoveryUrl" (JStr discovery) ]) ].

Definition protocol_configuration : json :=
  JObj [ field "mcp" (JObj [ field "searchType" (js "SEMANTIC") ]) ].

Definition the_gateway_name : str := lit "resource-optimizer-gateway".

Definition config_missing (hint : str) (e : exn) : option (Script ConfigFile) :=
  match e with
  | FileNotFoundError _ =>
      Some (out (CROSS ++ lit " config.json not found. " ++ hint) ;; sys_exit 1)
  | _ => None
  end.

Definition create_gateway_with_semantic_search : Script GatewaySection :=
  config <- try_except load_config
              (config_missing (lit "Run 01-create-iam-role.py first")) ;;
  aws_section <- item "aws" (aws config) ;;
  role_arn <- item "gateway_role_arn" (gateway_role_arn aws_section) ;;
  if no_cognito (cognito config)
  then
    out (CROSS ++ lit " Cognito configuration not found. Using existing Cognito setup") ;;
    sys_exit 1
  else
    let cognito_config :=
      match cognito config with
      | Some c => c
      | None => {| client_id := None; client_secret := None; token_url := None;
                   discovery_url := None |}
      end in
    out (lit "Creating AgentCore Gateway with Semantic Search") ;;
    out (lit "Using IAM role: " ++ role_arn) ;;
    client <- item "client_id" (client_id cognito_config) ;;
    out (lit "Using Cognito client: " ++ client) ;;
    discovery <- item "discovery_url" (discovery_url cognito_config) ;;
    try_except
      (out (nl ++ WRENCH ++ lit " Creating Gateway: " ++ the_gateway_name) ;;
       out (lit "  " ++ TICK ++ lit " Semantic Search: ENABLED") ;;
       out (lit "  " ++ TICK ++ lit " Debug Mode: ENABLED") ;;
       '(id, url) <- call (CreateGateway the_gateway_name role_arn (lit "MCP")
                             (lit "CUSTOM_JWT") (auth_config client discovery)
                             protocol_configuration (lit "DEBUG")
                             (lit "Resource Optimizer Gateway with semantic search for EC2, RDS, EBS, CloudWatch"))
                          is_CreateGateway create_gateway ;;
       out (nl ++ CHECK ++ lit " Gateway created successfully!") ;;
       out (lit "  Gateway ID:  " ++ id) ;;
       out (lit "  Gateway URL: " ++ url) ;;
       let section := {| gateway_id := Some id; gateway_url := Some url;
                         gateway_name := Some the_gateway_name |} in
       save_config (set_gateway config section) ;;
       out (nl ++ CHECK ++ lit " Configuration updated") ;;
       ret section)
      (on_Exception (fun e =>
         out (CROSS ++ lit " Error creating Gateway: " ++ exn_str e) ;;
         sys_exit 1)).

Definition shown (value : option str) : str :=
  match value with Some s => s | None => [] end.

Definition gateway_script : Script unit :=
  out rule_eq ;;
  out (lit "Creating AgentCore Gateway with Semantic Search") ;;
  out rule_eq ;;
  result <- create_gateway_with_semantic_search ;;
  out (nl ++ rule_eq) ;;
  out (CHECK ++ lit " GATEWAY SETUP COMPLETE") ;;
  out rule_eq ;;
  out (lit "Gateway Name: " ++ shown (gateway_name result)) ;;
  out (lit "Gateway ID:   " ++ shown (gateway_id result)) ;;
  out (lit "Gateway URL:  " ++ shown (gateway_url result)) ;;
  out (lit "Features:") ;;
  out (lit "  " ++ TICK ++ lit " Semantic Search (intelligent tool discovery)") ;;
  out (lit "  " ++ TICK ++ lit " Debug Mode (detailed error messages)") ;;
  out rule_eq ;;
  out (nl ++ TARGET ++ lit " Next: Run 03-create-smithy-target.py").

(** *** [03-create-smithy-targets.py] *)

Record TargetSpec := {
  spec_name : str;
  spec_uri : str;
  spec_description : str;
  spec_size : str }.

Definition s3_bucket : str := lit "cost-explorer-smithy-api".

Definition targets_to_create : list TargetSpec :=
  [ {| spec_name := lit "CloudWatchTarget";
       spec_uri := lit "s3://" ++ s3_bucket ++ lit "/cloudwatch-2010-08-01.json";
       spec_description := lit "CloudWatch Metrics for monitoring all AWS resources";
       spec_size := lit "371KB" |};
    {| spec_name := lit "CloudWatchLogsTarget";
       spec_uri := lit "s3://" ++ s3_bucket ++ lit "/cloudwatch-logs-2014-03-28.json";
       spec_description := lit "CloudWatch Logs for log analysis and monitoring";
       spec_size := lit "645KB" |};
    {| spec_name := lit "EBSTarget";
       spec_uri := lit "s3://" ++ s3_bucket ++ lit "/ebs-2019-11-02.json";
       spec_description := lit "EBS for volume and snapshot management";
       spec_size := lit "91KB" |} ].

Definition credential_config : json :=
  JObj [ field "credentialProviderType" (js "GATEWAY_IAM_ROLE") ].

Definition smithy_config (uri : str) : json :=
  JObj [ field "mcp" (JObj [
           field "smithyModel" (JObj [
             field "s3" (JObj [ field "uri" (JStr uri) ]) ]) ]) ].

(** The body of the [for] loop: the list of created targets after it. *)
Definition create_target (the_gateway : str) (created_targets : list SmithyTarget)
           (target_spec : TargetSpec) : Script (list SmithyTarget) :=
  try_except
    (out (nl ++ WRENCH ++ lit " Creating: " ++ spec_name target_spec ++ lit " ("
          ++ spec_size target_spec ++ lit ")") ;;
     out (lit "   URI: " ++ spec_uri target_spec) ;;
     id <- call (CreateGatewayTarget the_gateway (spec_name target_spec)
                   (spec_description target_spec)
                   (smithy_config (spec_uri target_spec)) [credential_config])
                is_CreateGatewayTarget create_gateway_target ;;
     out (lit "   " ++ CHECK ++ lit " Created: " ++ id) ;;
     emit (Sleep 2) ;;
     ret (created_targets
          ++ [ {| target_id := id; target_name := spec_name target_spec;
                  target_uri := spec_uri target_spec;
                  target_description := spec_description target_spec |} ]))
    (on_Exception (fun e =>
       out (lit "   " ++ CROSS ++ lit " Error: " ++ exn_str e) ;;
       ret created_targets)).

Fixpoint create_targets (the_gateway : str) (created_targets : list SmithyTarget)
         (specs : list TargetSpec) : Script (list SmithyTarget) :=
  match specs with
  | [] => ret created_targets
  | target_spec :: rest =>
      created <- create_target the_gateway created_targets target_spec ;;
      create_targets the_gateway created rest
  end.

Definition create_all_smithy_targets : Script (list SmithyTarget) :=
  config <- try_except load_config
              (config_missing (lit "Run previous setup scripts first")) ;;
  gateway_section <- item "gateway" (gateway config) ;;
  the_gateway <- item "id" (gateway_id gateway_section) ;;
  out (lit "Creating Smithy Targets for Gateway: " ++ the_gateway) ;;
  out (lit "Using S3 bucket: " ++ s3_bucket) ;;
  out (nl ++ rule_eq) ;;
  out (lit "Creating Targets") ;;
  out rule_eq ;;
  created_targets <- create_targets the_gateway [] targets_to_create ;;
  match created_targets with
  | [] => ret created_targets
  | _ :: _ =>
      save_config (set_smithy_targets config created_targets) ;;
      out (nl ++ CHECK ++ lit " Configuration updated with "
           ++ str_of_nat (length created_targets) ++ lit " targets") ;;
      ret created_targets
  end.

Fixpoint out_all (lines : list str) : Script unit :=
  match lines with
  | [] => ret tt
  | l :: rest => out l ;; out_all rest
  end.

Definition smithy_targets_script : Script unit :=
  out rule_eq ;;
  out (lit "Creating All Smithy Targets") ;;
  out rule_eq ;;
  results <- create_all_smithy_targets ;;
  match results with
  | [] =>
      out (nl ++ CROSS ++ lit " No targets were created") ;;
      sys_exit 1
  | _ :: _ =>
      out (nl ++ rule_eq) ;;
      out (CHECK ++ lit " SMITHY TARGETS SETUP COMPLETE") ;;
      out rule_eq ;;
      out (lit "Created " ++ str_of_nat (length results) ++ lit " targets:") ;;
      out_all (map (fun target => lit "  " ++ BULLET ++ lit " " ++ target_name target
                                  ++ lit ": " ++ target_id target) results) ;;
      out (nl ++ lit "Services Available:") ;;
      out (lit "  " ++ TICK ++ lit " CloudWatch (Metrics for EC2, RDS, Lambda, etc.)") ;;
      out (lit "  " ++ TICK ++ lit " CloudWatch Logs (Log Analysis)") ;;
      out (lit "  " ++ TICK ++ lit " EBS (Volume Management)") ;;
      out rule_eq ;;
      out (nl ++ CLOCK ++ lit " Wait 60 seconds for tools to sync, then run:") ;;
      out (lit "   python3 agent.py")
  end.

End Scripts.

(** The answer of the cloud to the SDK call [a] made after [before]
    was a failure. *)
Definition is_failure {A} (r : reply A) : bool :=
  match r with Reply _ => false | Fails _ => true end.

Definition failed (cloud : Cloud) (before : list action) (a : action) : bool :=
  match a with
  | CreateRole _ _ _ _ =>
      is_failure (create_role cloud (calls_so_far is_CreateRole before))
  | PutRolePolicy _ _ _ =>
      is_failure (put_role_policy cloud (calls_so_far is_PutRolePolicy before))
  | GetCallerIdentity =>
      is_failure (caller_identity cloud (calls_so_far is_GetCallerIdentity before))
  | CreateGateway _ _ _ _ _ _ _ _ =>
      is_failure (create_gateway cloud (calls_so_far is_CreateGateway before))
  | CreateGatewayTarget _ _ _ _ _ =>
      is_failure (create_gateway_target cloud
                    (calls_so_far is_CreateGatewayTarget before))
  | _ => false
  end.

(** A script whose only answer to a failed SDK call is to end with a
    status that is not zero, with no SDK call after the failed one. *)
Definition stops_at_failure (script : Script unit) : Prop :=
  forall cloud before a after,
    snd (script cloud []) = before ++ a :: after ->
    failed cloud before a = true ->
    exit_status (fst (script cloud [])) <> Some 0
    /\ existsb is_sdk after = false.

(** The call that asks for the target [spec] on the gateway. *)
Definition attempt (the_gateway : str) (spec : TargetSpec) : action :=
  CreateGatewayTarget the_gateway (spec_name spec) (spec_description spec)
    (smithy_config (spec_uri spec)) [credential_config].

(** The call that asks for the role, and the one that puts its policy. *)
Definition role_request {json_lib : JsonLib} : action :=
  CreateRole role_name (dumps trust_policy)
    (lit "IAM role for CloudWatch Monitoring AgentCore Gateway - monitors AWS resources via CloudWatch, EBS, and Logs")
    3600.

Definition policy_request {json_lib : JsonLib} : action :=
  PutRolePolicy role_name (lit "ResourceOptimizerPermissions")
    (dumps permissions_policy).

(** The call that asks for the gateway. *)
Definition gateway_request (role_arn client discovery : str) : action :=
  CreateGateway the_gateway_name role_arn (lit "MCP") (lit "CUSTOM_JWT")
    (auth_config client discovery) protocol_configuration (lit "DEBUG")
    (lit "Resource Optimizer Gateway with semantic search for EC2, RDS, EBS, CloudWatch").

(** A failure that [except Exception] catches, or no failure. *)
Definition soft {A} (r : reply A) : Prop :=
  match r with
  | Reply _ => True
  | Fails e => is_Exception e = true
  end.

(** The SDK calls of a run, in the order made. *)
Definition sdk_calls (run : list action) : list action := filter is_sdk run.

(** What a run made of SDK calls, and the status it ended with. *)
Definition outcome (calls : list action) (status : nat)
           (run : result unit * list action) : Prop :=
  sdk_calls (snd run) = calls /\ exit_status (fst run) = Some status.

(** A run that ended with status 1 after printing [line]. *)
Definition gave_up (calls : list action) (line : str)
           (run : result unit * list action) : Prop :=
  outcome calls 1 run /\ last (snd run) (Out []) = Out line.

(** The documents the scripts may send: the two policies for the role; for
    the gateway, the authorizer made of the two values of [config.json]
    and the protocol configuration; for a target, the configuration of
    one of the three models and the credential configuration. *)
Definition authorizer_of (config : ConfigFile) : option json :=
  match cognito config with
  | Some c =>
      match client_id c, discovery_url c with
      | Some client, Some discovery => Some (auth_config client discovery)
      | _, _ => None
      end
  | None => None
  end.

(** What the script reads from [config.json], if it can be read. *)
Definition config_of (cloud : Cloud) : option ConfigFile :=
  match config_read cloud 0 with
  | Reply config => Some config
  | Fails _ => None
  end.

Definition static_payload {json_lib : JsonLib} (config : option ConfigFile)
           (a : action) : Prop :=
  match a with
  | CreateRole name document _ _ =>
      name = role_name /\ document = dumps trust_policy
  | PutRolePolicy name _ document =>
      name = role_name /\ document = dumps permissions_policy
  | CreateGateway _ _ _ _ authorizer protocol _ _ =>
      match config with
      | Some c => Some authorizer = authorizer_of c
      | None => False
      end
      /\ protocol = protocol_configuration
  | CreateGatewayTarget _ _ _ target credentials =>
      In target (map (fun spec => smithy_config (spec_uri spec)) targets_to_create)
      /\ credentials = [credential_config]
  | _ => True
  end.

End Setup.

(** ** Sample worlds, on which the statements below are run *)

Module Sample.

Definition no_reply {A} : nat -> reply A :=
  fun _ => Fails (Exception (lit "service unavailable")).

Definition short_tool : MCPAgentTool :=
  {| tool_name := lit "CloudWatchTarget___ListMetrics"; tool_spec := lit "metrics" |}.
Definition long_tool : MCPAgentTool :=
  {| tool_name := lit "CloudWatchLogsTarget___" ++ repeat 120%N 42; tool_spec := lit "logs" |}.
Definition other_tool : MCPAgentTool :=
  {| tool_name := lit "EBSTarget___ListSnapshotBlocks"; tool_spec := lit "ebs" |}.

Definition first_page : PaginatedList :=
  {| items := [short_tool; long_tool]; pagination_token := Some (lit "page-2") |}.
Definition last_page : PaginatedList :=
  {| items := [other_tool]; pagination_token := None |}.

(** The gateway has two pages. *)
Definition two_pages (n : nat) : PaginatedList :=
  match n with
  | O => first_page
  | _ => last_page
  end.

(** The gateway always announces one more page. *)
Definition endless_pages (n : nat) : PaginatedList := first_page.

Definition env_with (pages : nat -> PaginatedList) (tokens : nat -> str)
           (lines : nat -> reply str) (answers : nat -> reply response) : Env :=
  {| token_endpoint := fun n => Reply (tokens n);
     transport := fun _ => Reply tt;
     gateway := fun n => Reply (pages n);
     memories := fun _ => Reply [lit "ResourceOptimizerMemory-abc"];
     new_memory := no_reply;
     config_file := fun _ => Reply tt;
     agent_ctor := fun _ => Reply tt;
     stdin := lines;
     model := answers;
     last_turns := fun _ => Reply [];
     memory_store := fun _ => Reply tt |}.

Definition token_number (n : nat) : str := lit "token-" ++ str_of_nat n.

Definition paged_env : Env := env_with two_pages token_number no_reply no_reply.
Definition endless_env : Env := env_with endless_pages token_number no_reply no_reply.

Definition some_client : MCPClient := {| transport_callable := ret tt |}.

(** A conversation of one question, then [exit]. *)
Definition question : str := lit "How busy is my database?".
Definition answer : response := RObj None (lit "Its CPU is at 3 percent.").

Definition chat_lines (n : nat) : reply str :=
  match n with
  | O => Reply question
  | _ => Reply (lit "exit")
  end.

Definition chat_env : Env :=
  env_with two_pages token_number chat_lines (fun _ => Reply answer).

Definition config : AgentPy.Config :=
  {| AgentPy.CLIENT_ID := lit "client";
     AgentPy.CLIENT_SECRET := lit "secret";
     AgentPy.TOKEN_URL := lit "https://auth.example/oauth2/token";
     AgentPy.GATEWAY_URL := lit "https://gateway.example/mcp";
     AgentPy.REGION := lit "us-east-1" |}.

Definition environ : RuntimeAgent.Environ :=
  {| RuntimeAgent.GATEWAY_URL := lit "https://gateway.example/mcp";
     RuntimeAgent.COGNITO_CLIENT_ID := lit "client";
     RuntimeAgent.COGNITO_CLIENT_SECRET := lit "secret";
     RuntimeAgent.COGNITO_TOKEN_URL := lit "https://auth.example/oauth2/token" |}.

(** An agent in the middle of that conversation, and a memory that holds
    one earlier turn. *)
Definition provider : AgentPy.CostMemoryHookProvider :=
  {| AgentPy.memory_id := lit "ResourceOptimizerMemory-abc" |}.

Definition talking_agent : AgentPy.Agent :=
  {| AgentPy.agent_name := lit "ResourceOptimizerAgent";
     AgentPy.system_prompt := lit "You are an AWS Resource Optimizer.";
     AgentPy.agent_tools := [];
     AgentPy.state_actor_id := Some AgentPy.ACTOR_ID;
     AgentPy.state_session_id := Some AgentPy.SESSION_ID;
     AgentPy.messages :=
       [ {| role := lit "user"; content := [ {| text := Some question |} ] |} ] |}.

Definition earlier_turn : list MemoryMessage :=
  [ {| m_role := lit "USER"; m_text := lit "List my volumes" |};
    {| m_role := lit "ASSISTANT"; m_text := lit "You have two volumes." |} ].

Definition remembering_env : Env :=
  {| token_endpoint := no_reply; transport := no_reply; gateway := no_reply;
     memories := no_reply; new_memory := no_reply; config_file := no_reply;
     agent_ctor := no_reply; stdin := no_reply; model := no_reply;
     last_turns := fun _ => Reply [earlier_turn];
     memory_store := fun _ => Reply tt |}.

(** A rendering of JSON documents in the manner of [json.dumps], for
    strings that need no escape. *)
Definition quote : str := [34%N].

Fixpoint render (j : Setup.json) : str :=
  match j with
  | Setup.JStr s => quote ++ s ++ quote
  | Setup.JNum n => str_of_nat n
  | Setup.JList elements => lit "[" ++ join (lit ", ") (map render elements) ++ lit "]"
  | Setup.JObj fields =>
      lit "{"
      ++ join (lit ", ")
              (map (fun kv => quote ++ fst kv ++ quote ++ lit ": " ++ render (snd kv))
                   fields)
      ++ lit "}"
  end.

Definition json_lib : Setup.JsonLib := {| Setup.dumps := render |}.

(** The file as the earlier scripts leave it. *)
Definition config_file_content : Setup.ConfigFile :=
  {| Setup.aws := Some {| Setup.account_id := Some (lit "123456789012");
                          Setup.gateway_role_arn :=
                            Some (lit "arn:aws:iam::123456789012:role/ResourceOptimizerGatewayRole");
                          Setup.region := Some (lit "us-east-1") |};
     Setup.cognito := Some {| Setup.client_id := Some (lit "client");
                              Setup.client_secret := Some (lit "secret");
                              Setup.token_url := Some (lit "https://auth.example/oauth2/token");
                              Setup.discovery_url :=
                                Some (lit "https://auth.example/.well-known/openid-configuration") |};
     Setup.gateway := Some {| Setup.gateway_id := Some (lit "gw-1");
                              Setup.gateway_url := Some (lit "https://gateway.example/mcp");
                              Setup.gateway_name := Some (lit "resource-optimizer-gateway") |};
     Setup.smithy_targets := None |}.

(** A control plane on which everything works, but for the answers given
    for the role, the gateway and the targets. *)
Definition cloud_with (role : nat -> reply str) (the_gateway : nat -> reply (str * str))
           (target : nat -> reply str) : Setup.Cloud :=
  {| Setup.config_read := fun _ => Reply config_file_content;
     Setup.config_write := fun _ => Reply tt;
     Setup.create_role := role;
     Setup.put_role_policy := fun _ => Reply tt;
     Setup.caller_identity := fun _ => Reply (lit "123456789012");
     Setup.session_region := fun _ => Reply None;
     Setup.create_gateway := the_gateway;
     Setup.create_gateway_target := target |}.

Definition throttled : exn := Exception (lit "ThrottlingException").

(** The first target is refused, the other two are created. *)
Definition flaky_targets (n : nat) : reply str :=
  match n with
  | O => Fails throttled
  | _ => Reply (lit "target-" ++ str_of_nat n)
  end.

Definition flaky_cloud : Setup.Cloud :=
  cloud_with (fun _ => Reply (lit "arn:aws:iam::123456789012:role/ResourceOptimizerGatewayRole"))
             (fun _ => Reply (lit "gw-1", lit "https://gateway.example/mcp"))
             flaky_targets.

(** The caller may not create roles. *)
Definition denied_cloud : Setup.Cloud :=
  cloud_with (fun _ => Fails (Exception (lit "AccessDenied")))
             (fun _ => Fails throttled)
             (fun _ => Fails throttled).

(** The role is there already; the gateway cannot be created. *)
Definition second_run_cloud : Setup.Cloud :=
  cloud_with (fun _ => Fails (EntityAlreadyExistsException (lit "EntityAlreadyExists")))
             (fun _ => Fails throttled)
             (fun _ => Fails throttled).

(** The run of [agent.py] on that conversation, and the run of the
    runtime on two requests. *)
Definition chat_trace : list event :=
  snd (@AgentPy.main ascii_casing config [] 3 chat_env []).

Definition served_trace : list event :=
  snd (RuntimeAgent.run environ [] 3 [Some question; None] chat_env []).

End Sample.

(** ** The settings [agent.py] reads when it is loaded *)

Module AgentSettings.
Import Setup.

(** [d[key]] in a statement of the module: the value, or a [KeyError]. *)
Definition subscript {A} (key : string) (value : option A) : result A :=
  match value with
  | Some a => Ret a
  | None => Raise (KeyError (lit key))
  end.

Definition and_then {A B} (r : result A) (k : A -> result B) : result B :=
  match r with
  | Ret a => k a
  | Raise e => Raise e
  | Unfinished => Unfinished
  end.

Definition not_found : str :=
  CROSS ++ lit " config.json not found. Please run setup scripts first".

(** The statements of the module from the check on [config.json] to
    [REGION].  [there] is what [Path('config.json').exists()] answers and
    [content] what [open] and [json.load] give; the result comes with the
    lines printed. *)
Definition load (there : bool) (content : reply ConfigFile)
  : result AgentPy.Config * list str :=
  if negb there then (Raise (SystemExit 1), [not_found])
  else
    (match content with
     | Fails e => Raise e
     | Reply config =>
         and_then (subscript "cognito" (cognito config)) (fun section =>
         and_then (subscript "client_id" (client_id section)) (fun the_client_id =>
         and_then (subscript "cognito" (cognito config)) (fun section =>
         and_then (subscript "client_secret" (client_secret section)) (fun the_client_secret =>
         and_then (subscript "cognito" (cognito config)) (fun section =>
         and_then (subscript "token_url" (token_url section)) (fun the_token_url =>
         and_then (subscript "gateway" (gateway config)) (fun section =>
         and_then (subscript "url" (gateway_url section)) (fun the_gateway_url =>
         and_then (subscript "aws" (aws config)) (fun section =>
         Ret {| AgentPy.CLIENT_ID := the_client_id;
                AgentPy.CLIENT_SECRET := the_client_secret;
                AgentPy.TOKEN_URL := the_token_url;
                AgentPy.GATEWAY_URL := the_gateway_url;
                AgentPy.REGION := match region section with
                                  | Some r => r
                                  | None => lit "us-east-1"
                                  end |})))))))))
     end, []).

End AgentSettings.

(** ** What the statements on a conversation and on a run speak of *)

Module Talk.

Section Lines.
Context {casing : Casing}.

(** [user_input.lower() == "exit"] and [not user_input.strip()]. *)
Definition is_exit (line : str) : bool := str_eqb (lower line) (lit "exit").
Definition is_blank (line : str) : bool := negb (truthy (strip line)).

(** The lines typed before the first that says [exit]. *)
Fixpoint until_exit (lines : list str) : list str :=
  match lines with
  | [] => []
  | line :: rest => if is_exit line then [] else line :: until_exit rest
  end.

(** Of these, the lines that are not blank. *)
Definition asked (lines : list str) : list str :=
  filter (fun line => negb (is_blank line)) (until_exit lines).

(** A call of the model with a prompt that is neither blank nor [exit]. *)
Definition fit_to_ask (e : event) : Prop :=
  match e with
  | Invoke prompt => is_exit prompt = false /\ is_blank prompt = false
  | _ => True
  end.

End Lines.

(** The prompt for a line of the user. *)
Definition ask : event := Input (nl ++ BUST ++ lit " You: ").

(** [s] is [t] with some of its characters left out. *)
Inductive subsequence {A : Type} : list A -> list A -> Prop :=
| subsequence_nil : subsequence [] []
| subsequence_keep a s t : subsequence s t -> subsequence (a :: s) (a :: t)
| subsequence_drop a s t : subsequence s t -> subsequence s (a :: t).

(** The first calls of [create_resource_optimizer_agent], up to the
    opening of the transport. *)
Definition opening_calls (config : AgentPy.Config) (access_token : str)
  : list event :=
  [ Print (nl ++ rule_eq);
    Print (WRENCH ++ lit "  AWS Resource Optimizer Agent");
    Print rule_eq;
    Print (LOCK ++ lit " Authenticating with gateway...");
    HttpPost (AgentPy.TOKEN_URL config)
      (lit "grant_type=client_credentials&client_id=" ++ AgentPy.CLIENT_ID config
       ++ lit "&client_secret=" ++ AgentPy.CLIENT_SECRET config);
    Print (CHECK ++ lit " Authentication successful");
    Print (ANTENNA ++ lit " Connecting to AgentCore Gateway...");
    TransportOpen (AgentPy.GATEWAY_URL config) (lit "Bearer " ++ access_token) ].

(** The entries [03-create-smithy-targets.py] keeps for the targets in
    [specs], when the control plane answers the calls from the [k]-th on
    with [answers]: one entry for each target that was created. *)
Fixpoint made (answers : nat -> reply str) (k : nat) (specs : list Setup.TargetSpec)
  : list Setup.SmithyTarget :=
  match specs with
  | [] => []
  | spec :: rest =>
      match answers k with
      | Reply id =>
          {| Setup.target_id := id;
             Setup.target_name := Setup.spec_name spec;
             Setup.target_uri := Setup.spec_uri spec;
             Setup.target_description := Setup.spec_description spec |}
          :: made answers (S k) rest
      | Fails _ => made answers (S k) rest
      end
  end.

(** [boto3.Session().region_name or 'us-east-1'] *)
Definition region_or_default (session : option str) : str :=
  match session with
  | Some r => if truthy r then r else lit "us-east-1"
  | None => lit "us-east-1"
  end.

(** What [01-create-iam-role.py] starts from when there is no
    [config.json]. *)
Definition fresh_config : Setup.ConfigFile :=
  {| Setup.aws := Some {| Setup.account_id := None;
                          Setup.gateway_role_arn := None;
                          Setup.region := None |};
     Setup.cognito := None; Setup.gateway := None;
     Setup.smithy_targets := None |}.

Definition is_Sleep (a : Setup.action) : bool :=
  match a with Setup.Sleep _ => true | _ => false end.

(** What [02-create-gateway.py] may do in a run against [cloud]: print,
    read and write [config.json], and ask for the gateway, with the role,
    the client and the discovery URL that [config.json] holds. *)
Definition of_the_gateway_script (cloud : Setup.Cloud) (a : Setup.action) : Prop :=
  match a with
  | Setup.Out _ | Setup.LoadConfig | Setup.SaveConfig _ => True
  | Setup.CreateGateway _ _ _ _ _ _ _ _ =>
      exists config section role c client discovery,
        Setup.config_read cloud 0 = Reply config
        /\ Setup.aws config = Some section
        /\ Setup.gateway_role_arn section = Some role
        /\ Setup.cognito config = Some c
        /\ Setup.client_id c = Some client
        /\ Setup.discovery_url c = Some discovery
        /\ a = Setup.gateway_request role client discovery
  | _ => False
  end.

(** What [03-create-smithy-targets.py] may do in a run against [cloud]:
    print, read and write [config.json], pause for two seconds, and ask
    for one of its three targets on the gateway that [config.json]
    names. *)
Definition of_the_targets_script (cloud : Setup.Cloud) (a : Setup.action) : Prop :=
  match a with
  | Setup.Out _ | Setup.LoadConfig | Setup.SaveConfig _ => True
  | Setup.Sleep seconds => seconds = 2
  | Setup.CreateGatewayTarget _ _ _ _ _ =>
      exists config section the_gateway spec,
        Setup.config_read cloud 0 = Reply config
        /\ Setup.gateway config = Some section
        /\ Setup.gateway_id section = Some the_gateway
        /\ In spec Setup.targets_to_create
        /\ a = Setup.attempt the_gateway spec
  | _ => False
  end.

(** A run of [03-create-smithy-targets.py] that kept the entries
    [created]: it wrote them to [config.json], if there are any, and
    nothing else; it paused once for each; and it ended with status 0, or
    with status 1 when there are none. *)
Definition kept (config : Setup.ConfigFile) (created : list Setup.SmithyTarget)
           (run : result unit * list Setup.action) : Prop :=
  filter Setup.is_SaveConfig (snd run)
  = match created with
    | [] => []
    | _ :: _ => [Setup.SaveConfig (Setup.set_smithy_targets config created)]
    end
  /\ calls_so_far is_Sleep (snd run) = length created
  /\ Setup.exit_status (fst run)
     = Some match created with [] => 1 | _ :: _ => 0 end.

End Talk.

(** ** More sample worlds *)

Module Sample2.
Import Sample.

(** The gateway sends one page and fails on the next call. *)
Definition timeout : exn := Exception (lit "gateway timeout").

Definition broken_env : Env :=
  {| token_endpoint := fun n => Reply (token_number n);
     transport := fun _ => Reply tt;
     gateway := fun n => match n with
                         | O => Reply first_page
                         | _ => Fails timeout
                         end;
     memories := fun _ => Reply [lit "ResourceOptimizerMemory-abc"];
     new_memory := no_reply;
     config_file := fun _ => Reply tt;
     agent_ctor := fun _ => Reply tt;
     stdin := no_reply;
     model := no_reply;
     last_turns := fun _ => Reply [];
     memory_store := fun _ => Reply tt |}.

(** The user interrupts the program while it asks for its token. *)
Definition interrupted_env : Env :=
  {| token_endpoint := fun _ => Fails KeyboardInterrupt;
     transport := no_reply; gateway := no_reply; memories := no_reply;
     new_memory := no_reply; config_file := no_reply; agent_ctor := no_reply;
     stdin := no_reply; model := no_reply; last_turns := no_reply;
     memory_store := no_reply |}.

(** Three lines are typed, the second blank, then the input ends; the
    model fails on the first question and answers the second. *)
Definition typed : list str :=
  [ question; lit "   "; lit "And my volumes?" ].

Definition typing (n : nat) : reply str :=
  match nth_error typed n with
  | Some line => Reply line
  | None => Fails EOFError
  end.

Definition moody_model (n : nat) : reply response :=
  match n with
  | O => Fails (Exception (lit "rate limit exceeded"))
  | _ => Reply answer
  end.

Definition typing_env : Env :=
  env_with two_pages token_number typing moody_model.

Definition plain_agent : AgentPy.Agent :=
  {| AgentPy.agent_name := []; AgentPy.system_prompt := [];
     AgentPy.agent_tools := []; AgentPy.state_actor_id := None;
     AgentPy.state_session_id := None; AgentPy.messages := [] |}.

(** The memory service holds three memories, two of them of the agent. *)
Definition crowded_env : Env :=
  {| token_endpoint := no_reply; transport := no_reply; gateway := no_reply;
     memories := fun _ => Reply [ lit "OtherMemory-1";
                                  lit "ResourceOptimizerMemory-abc";
                                  lit "ResourceOptimizerMemory-def" ];
     new_memory := no_reply; config_file := no_reply; agent_ctor := no_reply;
     stdin := no_reply; model := no_reply; last_turns := no_reply;
     memory_store := no_reply |}.

(** The role can be created, its policy cannot be put. *)
Definition no_policy_cloud : Setup.Cloud :=
  {| Setup.config_read := fun _ => Reply config_file_content;
     Setup.config_write := fun _ => Reply tt;
     Setup.create_role :=
       fun _ => Reply (lit "arn:aws:iam::123456789012:role/ResourceOptimizerGatewayRole");
     Setup.put_role_policy := fun _ => Fails (Exception (lit "AccessDenied"));
     Setup.caller_identity := fun _ => Reply (lit "123456789012");
     Setup.session_region := fun _ => Reply None;
     Setup.create_gateway := fun _ => Fails throttled;
     Setup.create_gateway_target := fun _ => Fails throttled |}.

(** There is no [config.json]. *)
Definition bare_cloud : Setup.Cloud :=
  {| Setup.config_read := fun _ => Fails (FileNotFoundError (lit "config.json"));
     Setup.config_write := fun _ => Reply tt;
     Setup.create_role := fun _ => Fails throttled;
     Setup.put_role_policy := fun _ => Fails throttled;
     Setup.caller_identity := fun _ => Fails throttled;
     Setup.session_region := fun _ => Reply None;
     Setup.create_gateway := fun _ => Fails throttled;
     Setup.create_gateway_target := fun _ => Fails throttled |}.

(** Everything works. *)
Definition kind_cloud : Setup.Cloud :=
  cloud_with (fun _ => Reply (lit "arn:aws:iam::123456789012:role/ResourceOptimizerGatewayRole"))
             (fun _ => Reply (lit "gw-1", lit "https://gateway.example/mcp"))
             (fun n => Reply (lit "target-" ++ str_of_nat n)).

End Sample2.

(* ===================================================================== *)
(** * Part II: properties                                                 *)
(* ===================================================================== *)

Unset Implicit Arguments.

(** ** Traces *)

Section TraceFacts.
Context {E Ev : Type}.

Lemma calls_so_far_app (same : Ev -> bool) (a b : list Ev) :
  calls_so_far same (a ++ b) = calls_so_far same a + calls_so_far same b.
Proof. unfold calls_so_far. now rewrite filter_app, length_app. Qed.

Lemma calls_so_far_snoc (same : Ev -> bool) (a : list Ev) (e : Ev) :
  calls_so_far same (a ++ [e])
  = calls_so_far same a + (if same e then 1 else 0).
Proof. rewrite calls_so_far_app. unfold calls_so_far. simpl. now destruct (same e). Qed.

Lemma calls_so_far_all (same : Ev -> bool) (d : list Ev) :
  Forall (fun e => same e = true) d -> calls_so_far same d = length d.
Proof.
  unfold calls_so_far. induction 1 as [|e d He _ IH]; simpl; [reflexivity|].
  rewrite He. simpl. now rewrite IH.
Qed.

Lemma calls_so_far_none (same : Ev -> bool) (d : list Ev) :
  Forall (fun e => same e = false) d -> calls_so_far same d = 0.
Proof.
  unfold calls_so_far. induction 1 as [|e d He _ IH]; simpl; [reflexivity|].
  now rewrite He.
Qed.

End TraceFacts.

(** ** The pagination loops *)

Module Pagination.

Import AgentPy RuntimeAgent.

(** The calls a loop makes when the gateway answers with the pages
    [pg 0], ..., [pg n]: no token first, then the token of each page. *)
Definition expected_calls (first : option str) (pg : nat -> PaginatedList) (n : nat)
  : list event :=
  map ListTools (first :: map (fun i => pagination_token (pg i)) (seq 0 n)).

Definition all_items (pg : nat -> PaginatedList) (n : nat) : list MCPAgentTool :=
  flat_map (fun i => items (pg i)) (seq 0 n).

Lemma all_items_S pg n :
  all_items pg (S n) = items (pg 0) ++ all_items (fun i => pg (S i)) n.
Proof.
  unfold all_items. simpl. f_equal.
  rewrite <- seq_shift, flat_map_concat_map, map_map, <- flat_map_concat_map.
  reflexivity.
Qed.

Lemma expected_calls_S first pg n :
  expected_calls first pg (S n)
  = ListTools first
    :: expected_calls (pagination_token (pg 0)) (fun i => pg (S i)) n.
Proof.
  unfold expected_calls. simpl. do 2 f_equal.
  now rewrite <- seq_shift, !map_map.
Qed.

Lemma list_tools_sync_run client tok env tr :
  list_tools_sync client tok env tr
  = (match gateway env (calls_so_far is_ListTools tr) with
     | Reply p => Ret p
     | Fails e => Raise e
     end, tr ++ [ListTools tok]).
Proof. reflexivity. Qed.

(** The loop of [agent.py] from any state of its variables. *)
Lemma agent_loop_pages client env n :
  forall fuel pg tools tok tr,
    (forall i, i <= n ->
       gateway env (calls_so_far is_ListTools tr + i) = Reply (pg i)) ->
    (forall i, i < n -> pagination_token (pg i) <> None) ->
    pagination_token (pg n) = None ->
    n < fuel ->
    get_full_tools_list_while fuel client true tools tok env tr
    = (Ret (tools ++ all_items pg (S n)), tr ++ expected_calls tok pg n).
Proof.
  induction n as [|n IH]; intros fuel pg tools tok tr Hpg Hsome Hnone Hfuel;
    (destruct fuel as [|fuel]; [lia|]); simpl;
    unfold bind; rewrite list_tools_sync_run;
    generalize (Hpg 0 ltac:(lia)); rewrite Nat.add_0_r; intros ->.
  - rewrite Hnone. destruct fuel; unfold all_items; simpl;
      now rewrite app_nil_r.
  - destruct (pagination_token (pg 0)) as [next|] eqn:E0;
      [|exfalso; apply (Hsome 0); [lia|exact E0]].
    rewrite (IH fuel (fun i => pg (S i))); try lia.
    + rewrite (all_items_S pg), expected_calls_S, E0, <- !app_assoc. reflexivity.
    + intros i Hi. rewrite calls_so_far_snoc. simpl.
      rewrite <- (Hpg (S i)) by lia. f_equal. lia.
    + intros i Hi. apply Hsome. lia.
    + exact Hnone.
Qed.

(** The loop of [runtime_agent.py]. *)
Lemma runtime_loop_pages client env n :
  forall fuel pg tools tok tr,
    (forall i, i <= n ->
       gateway env (calls_so_far is_ListTools tr + i) = Reply (pg i)) ->
    (forall i, i < n -> pagination_token (pg i) <> None) ->
    pagination_token (pg n) = None ->
    n < fuel ->
    get_tools_while fuel client tools tok env tr
    = (Ret (tools ++ all_items pg (S n)), tr ++ expected_calls tok pg n).
Proof.
  induction n as [|n IH]; intros fuel pg tools tok tr Hpg Hsome Hnone Hfuel;
    (destruct fuel as [|fuel]; [lia|]); simpl;
    unfold bind; rewrite list_tools_sync_run;
    generalize (Hpg 0 ltac:(lia)); rewrite Nat.add_0_r; intros ->.
  - rewrite Hnone. unfold all_items; simpl. now rewrite app_nil_r.
  - destruct (pagination_token (pg 0)) as [next|] eqn:E0;
      [|exfalso; apply (Hsome 0); [lia|exact E0]].
    rewrite (IH fuel (fun i => pg (S i))); try lia.
    + rewrite (all_items_S pg), expected_calls_S, E0, <- !app_assoc. reflexivity.
    + intros i Hi. rewrite calls_so_far_snoc. simpl.
      rewrite <- (Hpg (S i)) by lia. f_equal. lia.
    + intros i Hi. apply Hsome. lia.
    + exact Hnone.
Qed.

End Pagination.

Module PaginationClaims.

Import AgentPy RuntimeAgent Pagination.

(** C1.  When the gateway answers the calls of the loop with the pages
    [pg 0 .. pg n], of which only the last has no pagination token, the
    loop of [get_full_tools_list] and the loop of [get_tools] call
    [list_tools_sync] with no token first and then with the token of
    the page before, make exactly these [n + 1] calls, and return the
    tools of the pages in the order received. *)
Theorem pagination_follows_tokens client env tr n pg fuel :
  (forall i, i <= n ->
     gateway env (calls_so_far is_ListTools tr + i) = Reply (pg i)) ->
  (forall i, i < n -> pagination_token (pg i) <> None) ->
  pagination_token (pg n) = None ->
  n < fuel ->
  get_full_tools_list fuel client env tr
  = (Ret (concat (map (fun i => items (pg i)) (seq 0 (S n)))),
     tr ++ map ListTools
             (None :: map (fun i => pagination_token (pg i)) (seq 0 n)))
  /\ get_tools_while fuel client [] None env tr
     = (Ret (concat (map (fun i => items (pg i)) (seq 0 (S n)))),
        tr ++ map ListTools
                (None :: map (fun i => pagination_token (pg i)) (seq 0 n))).
Proof.
  intros Hpg Hsome Hnone Hfuel. rewrite <- flat_map_concat_map.
  split.
  - unfold get_full_tools_list.
    now rewrite (@agent_loop_pages client env n fuel pg [] None tr Hpg Hsome Hnone Hfuel).
  - now rewrite (@runtime_loop_pages client env n fuel pg [] None tr Hpg Hsome Hnone Hfuel).
Qed.

Lemma pagination_follows_tokens_witness :
  get_full_tools_list 2 Sample.some_client Sample.paged_env []
  = (Ret [Sample.short_tool; Sample.long_tool; Sample.other_tool],
     [ListTools None; ListTools (Some (lit "page-2"))])
  /\ get_tools_while 2 Sample.some_client [] None Sample.paged_env []
     = (Ret [Sample.short_tool; Sample.long_tool; Sample.other_tool],
        [ListTools None; ListTools (Some (lit "page-2"))]).
Proof.
  refine (pagination_follows_tokens Sample.some_client Sample.paged_env []
            1 Sample.two_pages 2 _ _ _ _).
  - intros i _. reflexivity.
  - intros i Hi. destruct i as [|i]; [discriminate|lia].
  - reflexivity.
  - lia.
Defined.

(** The first page without a token. *)
Lemma first_page_without_token (pg : nat -> PaginatedList) n :
  pagination_token (pg n) = None ->
  exists m, m <= n /\ pagination_token (pg m) = None
            /\ forall i, i < m -> pagination_token (pg i) <> None.
Proof.
  revert pg. induction n as [|n IH]; intros pg Hn.
  - exists 0. split; [lia|split; [exact Hn|]]. intros i Hi. lia.
  - destruct (pagination_token (pg 0)) as [t|] eqn:E0.
    + destruct (IH (fun i => pg (S i)) Hn) as (m & Hm & Hnone & Hsome).
      exists (S m). split; [lia|split; [exact Hnone|]].
      intros [|i] Hi; [congruence|]. apply (Hsome i). lia.
    + exists 0. split; [lia|split; [exact E0|]]. intros i Hi. lia.
Qed.

Lemma agent_loop_endless client env :
  forall fuel pg tools tok tr,
    (forall i, gateway env (calls_so_far is_ListTools tr + i) = Reply (pg i)) ->
    (forall n, pagination_token (pg n) <> None) ->
    exists tr',
      get_full_tools_list_while fuel client true tools tok env tr
      = (Unfinished, tr').
Proof.
  induction fuel as [|fuel IH]; intros pg tools tok tr Hpg Hsome; simpl.
  - now exists tr.
  - unfold bind. rewrite list_tools_sync_run.
    generalize (Hpg 0). rewrite Nat.add_0_r. intros ->.
    destruct (pagination_token (pg 0)) as [next|] eqn:E0;
      [|now elim (Hsome 0)].
    apply (IH (fun i => pg (S i))).
    + intros i. rewrite calls_so_far_snoc. simpl.
      rewrite <- (Hpg (S i)). f_equal. lia.
    + intros n. apply Hsome.
Qed.

Lemma runtime_loop_endless client env :
  forall fuel pg tools tok tr,
    (forall i, gateway env (calls_so_far is_ListTools tr + i) = Reply (pg i)) ->
    (forall n, pagination_token (pg n) <> None) ->
    exists tr',
      get_tools_while fuel client tools tok env tr = (Unfinished, tr').
Proof.
  induction fuel as [|fuel IH]; intros pg tools tok tr Hpg Hsome; simpl.
  - now exists tr.
  - unfold bind. rewrite list_tools_sync_run.
    generalize (Hpg 0). rewrite Nat.add_0_r. intros ->.
    destruct (pagination_token (pg 0)) as [next|] eqn:E0;
      [|now elim (Hsome 0)].
    apply (IH (fun i => pg (S i))).
    + intros i. rewrite calls_so_far_snoc. simpl.
      rewrite <- (Hpg (S i)). f_equal. lia.
    + intros n. apply Hsome.
Qed.

(** C5.  Let the gateway answer the calls of the loop with the pages
    [pg 0], [pg 1], ...  If some page has no pagination token, both
    loops return after finitely many iterations; if every page has one,
    neither loop returns, however many iterations it is given. *)
Theorem pagination_terminates client env tr pg :
  (forall i, gateway env (calls_so_far is_ListTools tr + i) = Reply (pg i)) ->
  ((exists n, pagination_token (pg n) = None) ->
   exists fuel tools tr',
     get_full_tools_list fuel client env tr = (Ret tools, tr')
     /\ get_tools_while fuel client [] None env tr = (Ret tools, tr'))
  /\ ((forall n, pagination_token (pg n) <> None) ->
      forall fuel,
        fst (get_full_tools_list fuel client env tr) = Unfinished
        /\ fst (get_tools_while fuel client [] None env tr) = Unfinished).
Proof.
  intros Hpg. split.
  - intros [n Hn].
    destruct (first_page_without_token pg n Hn) as (m & _ & Hnone & Hsome).
    exists (S m), ([] ++ all_items pg (S m)), (tr ++ expected_calls None pg m).
    split.
    + apply agent_loop_pages; auto.
    + apply runtime_loop_pages; auto.
  - intros Hsome fuel. split.
    + destruct (agent_loop_endless client env fuel pg [] None tr Hpg Hsome)
        as [tr' E].
      unfold get_full_tools_list. now rewrite E.
    + destruct (runtime_loop_endless client env fuel pg [] None tr Hpg Hsome)
        as [tr' E].
      now rewrite E.
Qed.

Lemma pagination_terminates_witness :
  (exists fuel tools tr',
     get_full_tools_list fuel Sample.some_client Sample.paged_env []
     = (Ret tools, tr')
     /\ get_tools_while fuel Sample.some_client [] None Sample.paged_env []
        = (Ret tools, tr'))
  /\ (forall fuel,
        fst (get_full_tools_list fuel Sample.some_client Sample.endless_env [])
        = Unfinished
        /\ fst (get_tools_while fuel Sample.some_client [] None
                  Sample.endless_env []) = Unfinished).
Proof.
  split.
  - apply (proj1 (pagination_terminates Sample.some_client Sample.paged_env []
                    Sample.two_pages (fun i => eq_refl))).
    exists 1. reflexivity.
  - apply (proj2 (pagination_terminates Sample.some_client Sample.endless_env []
                    Sample.endless_pages (fun i => eq_refl))).
    intros n. discriminate.
Defined.

End PaginationClaims.

(** ** Text: white space and the thinking tags *)

Module TextFacts.

Lemma lstrip_suffix s : exists ws, s = ws ++ lstrip s.
Proof.
  induction s as [|c s [ws IH]]; simpl.
  - now exists [].
  - destruct (isspace c).
    + exists (c :: ws). simpl. now f_equal.
    + now exists [].
Qed.

Lemma lstrip_head s c rest : lstrip s = c :: rest -> isspace c = false.
Proof.
  induction s as [|a s IH]; simpl; [discriminate|].
  destruct (isspace a) eqn:Ea; [exact IH|].
  intros [= <- _]. exact Ea.
Qed.

Lemma lstrip_fixed c s : isspace c = false -> lstrip (c :: s) = c :: s.
Proof. simpl. now intros ->. Qed.

Lemma lstrip_app a b :
  lstrip (a ++ b) = match lstrip a with [] => lstrip b | _ :: _ => lstrip a ++ b end.
Proof.
  induction a as [|c a IH]; simpl; [reflexivity|].
  destruct (isspace c); [exact IH|reflexivity].
Qed.

Lemma rstrip_cons c s :
  rstrip (c :: s)
  = match lstrip (rev s) with
    | [] => if isspace c then [] else [c]
    | _ :: _ => c :: rstrip s
    end.
Proof.
  unfold rstrip. simpl rev. rewrite lstrip_app.
  destruct (lstrip (rev s)) as [|x l] eqn:E.
  - simpl. now destruct (isspace c).
  - now rewrite rev_app_distr.
Qed.

Lemma rstrip_prefix s : exists ws, s = rstrip s ++ ws.
Proof.
  unfold rstrip. destruct (lstrip_suffix (rev s)) as [ws E].
  exists (rev ws). rewrite <- rev_app_distr, <- E. now rewrite rev_involutive.
Qed.

Lemma rstrip_keeps_head c s :
  isspace c = false -> exists rest, rstrip (c :: s) = c :: rest.
Proof.
  intros Hc. rewrite rstrip_cons, Hc.
  destruct (lstrip (rev s)); eauto.
Qed.

Lemma strip_head s c rest : strip s = c :: rest -> isspace c = false.
Proof.
  unfold strip. destruct (lstrip s) as [|a t] eqn:E.
  - discriminate.
  - pose proof (lstrip_head s _ _ E) as Ha.
    destruct (rstrip_keeps_head a t Ha) as [r ->].
    now intros [= <- _].
Qed.

Lemma strip_last s front c : strip s = front ++ [c] -> isspace c = false.
Proof.
  unfold strip, rstrip. intros E.
  apply (f_equal (@rev _)) in E. rewrite rev_involutive, rev_app_distr in E.
  simpl in E. exact (lstrip_head _ _ _ E).
Qed.

Section Tags.
Context {casing : Casing}.
Import Re.

Lemma match_literal_app p a b r :
  match_literal p a = Some r -> match_literal p (a ++ b) = Some (r ++ b).
Proof.
  revert a. induction p as [|x p IH]; intros a; simpl.
  - now intros [= ->].
  - destruct a as [|y a]; [discriminate|]. simpl.
    destruct (ieq x y); [apply IH|discriminate].
Qed.

Lemma match_literal_suffix p s r :
  match_literal p s = Some r -> exists m, s = m ++ r /\ length m = length p.
Proof.
  revert s. induction p as [|x p IH]; intros s; simpl.
  - intros [= ->]. now exists [].
  - destruct s as [|y s]; [discriminate|].
    destruct (ieq x y); [|discriminate].
    intros H. destruct (IH _ H) as (m & -> & Hm).
    exists (y :: m). simpl. now rewrite Hm.
Qed.

Lemma lazy_until_suffix p s r :
  lazy_until p s = Some r -> exists m, s = m ++ r.
Proof.
  induction s as [|c s IH]; simpl.
  - destruct (match_literal p []) eqn:E; [|discriminate].
    intros [= <-]. destruct (match_literal_suffix _ _ _ E) as (m & Hm & _).
    now exists m.
  - destruct (match_literal p (c :: s)) eqn:E.
    + intros [= <-]. destruct (match_literal_suffix _ _ _ E) as (m & Hm & _).
      now exists m.
    + intros H. destruct (IH H) as [m ->]. now exists (c :: m).
Qed.

(** A match of the block pattern covers at least the opening tag. *)
Lemma match_block_suffix s rest :
  match_block s = Some rest ->
  exists m, s = m ++ rest /\ 10 <= length m.
Proof.
  unfold match_block.
  destruct (match_literal OPEN s) as [body|] eqn:E1; [|discriminate].
  destruct (lazy_until CLOSE body) as [r|] eqn:E2; [|discriminate].
  intros [= <-].
  destruct (match_literal_suffix _ _ _ E1) as (m1 & -> & H1).
  destruct (lazy_until_suffix _ _ _ E2) as (m2 & ->).
  destruct (lstrip_suffix r) as [ws Hws].
  exists (m1 ++ m2 ++ ws). split.
  - rewrite <- !app_assoc. now rewrite <- Hws.
  - rewrite length_app, H1. simpl. lia.
Qed.

Lemma has_open_nil : has_open [] = false.
Proof. reflexivity. Qed.

Lemma has_open_cons c s :
  has_open (c :: s)
  = match match_literal OPEN (c :: s) with
    | Some _ => true
    | None => has_open s
    end.
Proof. reflexivity. Qed.

Lemma has_open_app_l a b : has_open a = true -> has_open (a ++ b) = true.
Proof.
  induction a as [|c a IH].
  - rewrite has_open_nil. discriminate.
  - change ((c :: a) ++ b) with (c :: a ++ b). rewrite !has_open_cons.
    destruct (match_literal OPEN (c :: a)) as [r|] eqn:E.
    + intros _. change (c :: a ++ b) with ((c :: a) ++ b).
      now rewrite (match_literal_app _ _ b _ E).
    + intros H. destruct (match_literal OPEN (c :: a ++ b)); auto.
Qed.

Lemma has_open_app_r a b : has_open b = true -> has_open (a ++ b) = true.
Proof.
  intros H. induction a as [|c a IH]; [exact H|].
  change ((c :: a) ++ b) with (c :: a ++ b). rewrite has_open_cons.
  destruct (match_literal OPEN (c :: a ++ b)); auto.
Qed.

Lemma no_open_app a b :
  has_open (a ++ b) = false -> has_open a = false /\ has_open b = false.
Proof.
  intros H. split.
  - destruct (has_open a) eqn:E; [|reflexivity].
    now rewrite (has_open_app_l _ b E) in H.
  - destruct (has_open b) eqn:E; [|reflexivity].
    now rewrite (has_open_app_r a _ E) in H.
Qed.

Lemma no_open_strip s : has_open s = false -> has_open (strip s) = false.
Proof.
  intros H. unfold strip.
  destruct (lstrip_suffix s) as [ws E]. rewrite E in H.
  apply no_open_app in H. destruct H as [_ H].
  destruct (rstrip_prefix (lstrip s)) as [ws' E']. rewrite E' in H.
  now apply no_open_app in H.
Qed.

Lemma match_unclosed_eq s :
  match_unclosed s
  = match match_literal OPEN s with
    | Some _ => true
    | None =>
        match s with
        | c :: s' => isspace c && match_unclosed s'
        | [] => false
        end
    end.
Proof. destruct s; reflexivity. Qed.

Lemma re_sub_unclosed_eq s :
  re_sub_unclosed s
  = if match_unclosed s then []
    else match s with
         | [] => []
         | c :: s' => c :: re_sub_unclosed s'
         end.
Proof. destruct s; reflexivity. Qed.

Lemma re_sub_unclosed_prefix s : exists t, s = re_sub_unclosed s ++ t.
Proof.
  induction s as [|c s [t IH]]; rewrite re_sub_unclosed_eq.
  - exists []. now destruct (match_unclosed []).
  - destruct (match_unclosed (c :: s)).
    + now exists (c :: s).
    + exists t. simpl. now f_equal.
Qed.

Lemma match_unclosed_head s :
  match_unclosed s = false -> match_literal OPEN s = None.
Proof.
  rewrite match_unclosed_eq.
  destruct (match_literal OPEN s); [discriminate|reflexivity].
Qed.

(** What the second substitution leaves has no opening tag. *)
Lemma no_open_re_sub_unclosed s : has_open (re_sub_unclosed s) = false.
Proof.
  induction s as [|c s IH]; rewrite re_sub_unclosed_eq.
  - now destruct (match_unclosed []).
  - destruct (match_unclosed (c :: s)) eqn:E; [reflexivity|].
    apply match_unclosed_head in E.
    rewrite has_open_cons, IH.
    destruct (match_literal OPEN (c :: re_sub_unclosed s)) as [r|] eqn:E';
      [|reflexivity].
    destruct (re_sub_unclosed_prefix s) as [t Ht].
    apply (match_literal_app _ _ t) in E'.
    change ((c :: re_sub_unclosed s) ++ t) with (c :: re_sub_unclosed s ++ t) in E'.
    rewrite <- Ht in E'. congruence.
Qed.

Lemma match_unclosed_has_open s : match_unclosed s = true -> has_open s = true.
Proof.
  induction s as [|c s IH]; rewrite match_unclosed_eq.
  - intros H. cbv in H. discriminate H.
  - rewrite has_open_cons.
    destruct (match_literal OPEN (c :: s)); [reflexivity|].
    intros H. apply andb_prop in H. now apply IH.
Qed.

Lemma re_sub_unclosed_id s : has_open s = false -> re_sub_unclosed s = s.
Proof.
  induction s as [|c s IH]; intros H; rewrite re_sub_unclosed_eq.
  - now destruct (match_unclosed []).
  - destruct (match_unclosed (c :: s)) eqn:E.
    + apply match_unclosed_has_open in E. congruence.
    + f_equal. apply IH. rewrite has_open_cons in H.
      now destruct (match_literal OPEN (c :: s)).
Qed.

Lemma re_sub_blocks_id s : has_open s = false -> re_sub_blocks s = s.
Proof.
  unfold re_sub_blocks. induction s as [|c s IH]; intros H; [reflexivity|].
  cbn [re_sub_blocks_from]. unfold match_block.
  rewrite has_open_cons in H.
  destruct (match_literal OPEN (c :: s)); [discriminate|].
  f_equal. now apply IH.
Qed.

Lemma re_sub_blocks_skip m rest :
  re_sub_blocks_from (length m) (m ++ rest) = re_sub_blocks_from 0 rest.
Proof. induction m as [|c m IH]; [reflexivity|exact IH]. Qed.

(** [re.sub] goes on after the end of a match, and copies a character
    at which there is none. *)
Lemma re_sub_blocks_eq c s :
  re_sub_blocks (c :: s)
  = match match_block (c :: s) with
    | Some rest => re_sub_blocks rest
    | None => c :: re_sub_blocks s
    end.
Proof.
  unfold re_sub_blocks. cbn [re_sub_blocks_from].
  destruct (match_block (c :: s)) as [rest|] eqn:E; [|reflexivity].
  destruct (match_block_suffix _ _ E) as (m & Hm & Hlen).
  destruct m as [|x m]; [simpl in Hlen; lia|].
  injection Hm as -> ->.
  rewrite length_app, Nat.add_sub. apply re_sub_blocks_skip.
Qed.

End Tags.

End TextFacts.

Module UnclosedTag.
Import Re TextFacts.

(** A string of white space only. *)
Lemma lstrip_nil_iff s : lstrip s = [] <-> forallb isspace s = true.
Proof.
  induction s as [|c s IH]; simpl; [tauto|].
  destruct (isspace c); simpl; [exact IH|].
  split; discriminate.
Qed.

Lemma forallb_rev {A} (f : A -> bool) l : forallb f (rev l) = forallb f l.
Proof.
  induction l as [|a l IH]; simpl; [reflexivity|].
  rewrite forallb_app, IH. simpl. rewrite andb_true_r. apply andb_comm.
Qed.

Lemma rstrip_all_space s : forallb isspace s = true -> rstrip s = [].
Proof.
  intros H. unfold rstrip.
  rewrite <- forallb_rev in H. apply lstrip_nil_iff in H. now rewrite H.
Qed.

Lemma rstrip_cons_keep c s :
  forallb isspace (c :: s) = false -> rstrip (c :: s) = c :: rstrip s.
Proof.
  intros H. rewrite rstrip_cons.
  destruct (lstrip (rev s)) as [|x l] eqn:E; [|reflexivity].
  apply lstrip_nil_iff in E. rewrite forallb_rev in E.
  simpl in H. rewrite E, andb_true_r in H. rewrite H.
  now rewrite (rstrip_all_space s E).
Qed.

Lemma lstrip_idempotent s : lstrip (lstrip s) = lstrip s.
Proof.
  induction s as [|c s IH]; simpl; [reflexivity|].
  destruct (isspace c) eqn:E; [exact IH|]. simpl. now rewrite E.
Qed.

Lemma rstrip_idempotent s : rstrip (rstrip s) = rstrip s.
Proof. unfold rstrip. now rewrite rev_involutive, lstrip_idempotent. Qed.

Lemma lstrip_rstrip s : lstrip (rstrip s) = rstrip (lstrip s).
Proof.
  induction s as [|c s IH]; [reflexivity|].
  destruct (forallb isspace (c :: s)) eqn:E.
  - rewrite (rstrip_all_space _ E).
    apply lstrip_nil_iff in E. now rewrite E.
  - rewrite (rstrip_cons_keep _ _ E). simpl.
    destruct (isspace c) eqn:Ec; [exact IH|].
    now rewrite (rstrip_cons_keep _ _ E).
Qed.

Lemma strip_rstrip s : strip (rstrip s) = strip s.
Proof. unfold strip. now rewrite lstrip_rstrip, rstrip_idempotent. Qed.

Section Tags.
Context {casing : Casing}.

Lemma lazy_until_eq p s :
  lazy_until p s
  = match match_literal p s with
    | Some rest => Some rest
    | None => match s with [] => None | _ :: s' => lazy_until p s' end
    end.
Proof. destruct s; reflexivity. Qed.

Lemma lazy_until_none_suffix p m t :
  lazy_until p (m ++ t) = None -> lazy_until p t = None.
Proof.
  induction m as [|c m IH]; [trivial|].
  change ((c :: m) ++ t) with (c :: m ++ t). rewrite lazy_until_eq.
  destruct (match_literal p (c :: m ++ t)); [discriminate|exact IH].
Qed.

(** No block matches where no closing tag follows. *)
Lemma match_block_unclosed m t :
  lazy_until CLOSE (m ++ t) = None -> match_block t = None.
Proof.
  intros H. apply lazy_until_none_suffix in H. unfold match_block.
  destruct (match_literal OPEN t) as [body|] eqn:E; [|reflexivity].
  destruct (match_literal_suffix _ _ _ E) as (m' & -> & _).
  apply lazy_until_none_suffix in H. now rewrite H.
Qed.

Lemma re_sub_blocks_unclosed m t :
  lazy_until CLOSE (m ++ t) = None -> re_sub_blocks_from 0 t = t.
Proof.
  revert m. induction t as [|c t IH]; intros m H; [reflexivity|].
  cbn [re_sub_blocks_from]. rewrite (match_block_unclosed m _ H).
  f_equal. apply (IH (m ++ [c])). now rewrite <- app_assoc.
Qed.

Lemma none_starts_in_tail c before rest :
  none_starts_in (c :: before) rest -> none_starts_in before rest.
Proof. intros H b1 x b2 E. apply (H (c :: b1) x b2). now rewrite E. Qed.

Lemma re_sub_blocks_before before rest :
  none_starts_in before rest ->
  lazy_until CLOSE rest = None ->
  re_sub_blocks (before ++ rest) = before ++ rest.
Proof.
  intros Hb Hr. unfold re_sub_blocks.
  induction before as [|c before IH].
  - apply (re_sub_blocks_unclosed [] rest Hr).
  - change ((c :: before) ++ rest) with (c :: before ++ rest).
    cbn [re_sub_blocks_from]. unfold match_block.
    rewrite (Hb [] c before eq_refl). f_equal.
    apply IH. exact (none_starts_in_tail _ _ _ Hb).
Qed.

Lemma match_unclosed_before before rest body :
  none_starts_in before rest ->
  match_literal OPEN rest = Some body ->
  match_unclosed (before ++ rest) = forallb isspace before.
Proof.
  intros Hb Hr. induction before as [|c before IH].
  - simpl app. rewrite match_unclosed_eq, Hr. reflexivity.
  - change ((c :: before) ++ rest) with (c :: before ++ rest).
    rewrite match_unclosed_eq, (Hb [] c before eq_refl).
    simpl. f_equal. apply IH. exact (none_starts_in_tail _ _ _ Hb).
Qed.

Lemma re_sub_unclosed_before before rest body :
  none_starts_in before rest ->
  match_literal OPEN rest = Some body ->
  re_sub_unclosed (before ++ rest) = rstrip before.
Proof.
  intros Hb Hr. induction before as [|c before IH].
  - simpl app. rewrite re_sub_unclosed_eq, match_unclosed_eq, Hr. reflexivity.
  - rewrite re_sub_unclosed_eq, (match_unclosed_before _ _ _ Hb Hr).
    destruct (forallb isspace (c :: before)) eqn:E.
    + now rewrite (rstrip_all_space _ E).
    + rewrite (rstrip_cons_keep _ _ E).
      change ((c :: before) ++ rest) with (c :: before ++ rest).
      cbv iota. f_equal. apply IH. exact (none_starts_in_tail _ _ _ Hb).
Qed.

End Tags.
End UnclosedTag.

Module TextClaims.
Import Re TextFacts UnclosedTag AgentPy.



(** C10.  In an iteration of the interactive loop whose input is neither
    ["exit"] nor blank and whose response is a string, if the cleaned
    text, lowered, contains ["rate limit"] or ["throttl"], the two lines
    of the fixed notice are printed and nothing else: the response text
    is not. *)
Theorem rate_limit_notice_replaces_text {casing : Casing}
        (agent : Agent) (env : Env) (tr : list event) (line r : str) :
  stdin env (calls_so_far is_Input tr) = Reply line ->
  str_eqb (lower line) (lit "exit") = false ->
  truthy (strip line) = true ->
  model env (calls_so_far is_Invoke tr) = Reply (RStr r) ->
  contains (lit "rate limit") (lower (cleaned_response r))
  || contains (lit "throttl") (lower (cleaned_response r)) = true ->
  iteration agent env tr
  = (Ret Continue,
     tr ++ [Input (nl ++ BUST ++ lit " You: "); Invoke line;
            Print (nl ++ WARNING ++ lit "  AWS API rate limit reached.");
            Print (BULB ++ lit " Wait a moment and try again, or ask about different resources.")]).
Proof.
  intros Hin Hexit Hblank Hmodel Hrate.
  unfold iteration, try_except, bind, call, show_response, print, emit, ret.
  rewrite Hin, Hexit, Hblank. cbn [negb].
  rewrite calls_so_far_snoc. cbn [is_Invoke]. rewrite Nat.add_0_r, Hmodel.
  rewrite Hrate. unfold bind, print, emit. rewrite <- !app_assoc. reflexivity.
Qed.

Definition throttling_env : Env :=
  Sample.env_with Sample.two_pages Sample.token_number
    (fun _ => Reply (lit "Is any Lambda function throttled?"))
    (fun _ => Reply (RStr (lit "<thinking>check</thinking>No, throttling never occurred."))).

Lemma rate_limit_notice_replaces_text_witness :
  @iteration ascii_casing
    {| agent_name := []; system_prompt := []; agent_tools := [];
       state_actor_id := None; state_session_id := None; messages := [] |}
    throttling_env []
  = (Ret Continue,
     [Input (nl ++ BUST ++ lit " You: ");
      Invoke (lit "Is any Lambda function throttled?");
      Print (nl ++ WARNING ++ lit "  AWS API rate limit reached.");
      Print (BULB ++ lit " Wait a moment and try again, or ask about different resources.")]).
Proof.
  apply (@rate_limit_notice_replaces_text ascii_casing _ throttling_env []
           (lit "Is any Lambda function throttled?")
           (lit "<thinking>check</thinking>No, throttling never occurred."));
    reflexivity.
Defined.

End TextClaims.

(** ** Steps in their place *)

Module StepFacts.
Import Steps AgentPy RuntimeAgent.

Lemma seen_snoc kind (tr : list event) e :
  seen kind (tr ++ [e]) = seen kind tr || kind e.
Proof. unfold seen. rewrite existsb_app. simpl. now rewrite orb_false_r. Qed.

Lemma snoc_split {A} (tr before after : list A) (e x : A) :
  tr ++ [e] = before ++ x :: after ->
  (after = [] /\ before = tr /\ x = e)
  \/ (exists after', after = after' ++ [e] /\ tr = before ++ x :: after').
Proof.
  pattern after. apply rev_ind; [intros H|intros a l _ H].
  - left. apply app_inj_tail in H. destruct H as [-> ->]. auto.
  - right. exists l.
    change (before ++ x :: l ++ [a]) with (before ++ (x :: l) ++ [a]) in H.
    rewrite app_assoc in H. apply app_inj_tail in H. destruct H as [-> ->].
    auto.
Qed.

Lemma in_place_nil step : in_place step [].
Proof. intros [|b bs] x after H; discriminate H. Qed.

Lemma in_place_snoc step tr e :
  in_place step tr -> step tr e -> in_place step (tr ++ [e]).
Proof.
  intros Htr He before x after H.
  destruct (snoc_split _ _ _ _ _ H) as [(_ & -> & ->)|(after' & _ & ->)].
  - exact He.
  - now apply (Htr before x after').
Qed.

Lemma enumerated_S env k :
  enumerated env (S k)
  = enumerated env k ++ match gateway env k with
                        | Reply page => items page
                        | Fails _ => []
                        end.
Proof.
  unfold enumerated. rewrite seq_S, flat_map_app. simpl. now rewrite app_nil_r.
Qed.

(** What a pagination loop needs of the trace it starts from, and what
    it keeps. *)
Record listing (env : Env) (step : list event -> event -> Prop)
       (tools : list MCPAgentTool) (tok : option str) (tr : list event) : Prop := {
  listing_in_place : in_place step tr;
  listing_open : seen is_TransportOpen tr = true;
  listing_no_agent : seen is_NewAgent tr = false;
  listing_token : tok = token_due env tr;
  listing_tools : tools = enumerated env (calls_so_far is_ListTools tr) }.

Definition lists_in_place (env : Env) (step : list event -> event -> Prop) : Prop :=
  forall before token,
    seen is_TransportOpen before = true ->
    seen is_NewAgent before = false ->
    token = token_due env before ->
    step before (ListTools token).

(** A trace that only grew by listing calls. *)
Definition grew_by_listing (tr tr' : list event) : Prop :=
  exists d, tr' = tr ++ d /\ Forall (fun e => is_ListTools e = true) d.

Lemma grew_refl tr : grew_by_listing tr tr.
Proof. exists []. now rewrite app_nil_r. Qed.

Lemma grew_step tr tok tr' :
  grew_by_listing (tr ++ [ListTools tok]) tr' -> grew_by_listing tr tr'.
Proof.
  intros (d & -> & Hd). exists (ListTools tok :: d). split.
  - now rewrite <- app_assoc.
  - now constructor.
Qed.

Lemma listing_next env step tools tok tr :
  lists_in_place env step ->
  listing env step tools tok tr ->
  forall page,
    gateway env (calls_so_far is_ListTools tr) = Reply page ->
    listing env step (tools ++ items page) (pagination_token page)
            (tr ++ [ListTools tok]).
Proof.
  intros Hstep [Hin Hopen Hagent Htok Htools] page Hpage. split.
  - apply in_place_snoc; auto.
  - rewrite seen_snoc, Hopen. reflexivity.
  - rewrite seen_snoc, Hagent. reflexivity.
  - unfold token_due, page_token. rewrite calls_so_far_snoc. simpl.
    rewrite Nat.add_1_r. now rewrite Hpage.
  - rewrite calls_so_far_snoc. simpl. rewrite Nat.add_1_r, enumerated_S, Hpage.
    now rewrite Htools.
Qed.

(** What holds when a pagination loop is over, however it ends. *)
Record listed (env : Env) (step : list event -> event -> Prop)
       (tr : list event) (r : result (list MCPAgentTool)) (tr' : list event)
  : Prop := {
  listed_in_place : in_place step tr';
  listed_grew : grew_by_listing tr tr';
  listed_tools :
    forall all, r = Ret all ->
                seen is_ListTools tr' = true
                /\ all = enumerated env (calls_so_far is_ListTools tr') }.

Lemma listed_failed env step tr e tok :
  lists_in_place env step ->
  forall tools, listing env step tools tok tr ->
  listed env step tr (Raise e) (tr ++ [ListTools tok]).
Proof.
  intros Hstep tools [Hin Hopen Hagent Htok _]. split.
  - apply in_place_snoc; auto.
  - exists [ListTools tok]. split; [reflexivity|]. now repeat constructor.
  - discriminate.
Qed.

Lemma listed_last env step tr tok tools page :
  lists_in_place env step ->
  listing env step tools tok tr ->
  gateway env (calls_so_far is_ListTools tr) = Reply page ->
  listed env step tr (Ret (tools ++ items page)) (tr ++ [ListTools tok]).
Proof.
  intros Hstep H Hpage.
  destruct (listing_next _ _ _ _ _ Hstep H page Hpage) as [Hin _ _ _ Htools].
  split.
  - exact Hin.
  - exists [ListTools tok]. split; [reflexivity|]. now repeat constructor.
  - intros all [= <-]. split; [|exact Htools].
    rewrite seen_snoc. simpl. apply orb_true_r.
Qed.

Lemma listed_longer env step tr tok r tr' :
  listed env step (tr ++ [ListTools tok]) r tr' -> listed env step tr r tr'.
Proof.
  intros [Hin Hgrew Htools]. split; auto. now apply grew_step with tok.
Qed.

Lemma agent_loop_listed env step client :
  lists_in_place env step ->
  forall fuel tools tok tr,
    listing env step tools tok tr ->
    listed env step tr
           (fst (get_full_tools_list_while fuel client true tools tok env tr))
           (snd (get_full_tools_list_while fuel client true tools tok env tr)).
Proof.
  intros Hstep. induction fuel as [|fuel IH]; intros tools tok tr H; simpl.
  - split; [exact (listing_in_place _ _ _ _ _ H)|apply grew_refl|discriminate].
  - unfold bind. rewrite Pagination.list_tools_sync_run.
    destruct (gateway env (calls_so_far is_ListTools tr)) as [page|e] eqn:E.
    + destruct (pagination_token page) as [next|] eqn:Enext.
      * apply listed_longer with tok. apply IH.
        rewrite <- Enext. now apply listing_next.
      * destruct fuel; simpl; now apply listed_last.
    + simpl. now apply listed_failed with tools.
Qed.

Lemma runtime_loop_listed env step client :
  lists_in_place env step ->
  forall fuel tools tok tr,
    listing env step tools tok tr ->
    listed env step tr
           (fst (get_tools_while fuel client tools tok env tr))
           (snd (get_tools_while fuel client tools tok env tr)).
Proof.
  intros Hstep. induction fuel as [|fuel IH]; intros tools tok tr H; simpl.
  - split; [exact (listing_in_place _ _ _ _ _ H)|apply grew_refl|discriminate].
  - unfold bind. rewrite Pagination.list_tools_sync_run.
    destruct (gateway env (calls_so_far is_ListTools tr)) as [page|e] eqn:E.
    + destruct (pagination_token page) as [next|] eqn:Enext.
      * apply listed_longer with tok. apply IH.
        rewrite <- Enext. now apply listing_next.
      * simpl. now apply listed_last.
    + simpl. now apply listed_failed with tools.
Qed.

(** Listing calls leave the other counts and sights as they were. *)
Lemma grew_seen kind tr tr' :
  (forall t, kind (ListTools t) = false) ->
  grew_by_listing tr tr' -> seen kind tr' = seen kind tr.
Proof.
  intros Hk (d & -> & Hd). unfold seen. rewrite existsb_app.
  replace (existsb kind d) with false; [apply orb_false_r|].
  symmetry. induction Hd as [|e d He _ IH]; [reflexivity|].
  simpl. rewrite IH. destruct e; try discriminate He. now rewrite Hk.
Qed.

Lemma grew_calls kind tr tr' :
  (forall t, kind (ListTools t) = false) ->
  grew_by_listing tr tr' -> calls_so_far kind tr' = calls_so_far kind tr.
Proof.
  intros Hk (d & -> & Hd). rewrite calls_so_far_app.
  rewrite (calls_so_far_none kind d); [apply Nat.add_0_r|].
  induction Hd as [|e d He _ IH]; constructor; auto.
  destruct e; try discriminate He. apply Hk.
Qed.

End StepFacts.

(** ** Runs of [agent.py], step by step *)

Module AgentRun.
Import Steps StepFacts AgentPy.

(** The kinds of calls a trace has seen, and how many listing calls. *)
Record sights := {
  s_post : bool; s_open : bool; s_agent : bool; s_lists : nat }.

Definition note (sm : sights) (e : event) : sights :=
  {| s_post := s_post sm || is_HttpPost e;
     s_open := s_open sm || is_TransportOpen e;
     s_agent := s_agent sm || is_NewAgent e;
     s_lists := s_lists sm + (if is_ListTools e then 1 else 0) |}.

Record ok (step : list event -> event -> Prop) (sm : sights) (tr : list event)
  : Prop := {
  ok_in_place : in_place step tr;
  ok_post : seen is_HttpPost tr = s_post sm;
  ok_open : seen is_TransportOpen tr = s_open sm;
  ok_agent : seen is_NewAgent tr = s_agent sm;
  ok_lists : calls_so_far is_ListTools tr = s_lists sm }.

Lemma ok_nil step : ok step (Build_sights false false false 0) [].
Proof. split; try reflexivity. apply in_place_nil. Qed.

Lemma ok_snoc step sm tr e :
  ok step sm tr -> step tr e -> ok step (note sm e) (tr ++ [e]).
Proof.
  intros [Hin Hp Ho Ha Hl] He. split; simpl.
  - now apply in_place_snoc.
  - now rewrite seen_snoc, Hp.
  - now rewrite seen_snoc, Ho.
  - now rewrite seen_snoc, Ha.
  - now rewrite calls_so_far_snoc, Hl.
Qed.

(** A call of none of the four kinds. *)
Definition plain (e : event) : bool :=
  negb (is_HttpPost e || is_TransportOpen e || is_NewAgent e || is_ListTools e).

Lemma ok_plain step sm tr e :
  ok step sm tr -> plain e = true -> step tr e -> ok step sm (tr ++ [e]).
Proof.
  intros H Hp He. pose proof (ok_snoc step sm tr e H He) as H'.
  replace (note sm e) with sm in H'; [exact H'|].
  destruct sm as [p o a l]. unfold note, plain in *. simpl.
  destruct (is_HttpPost e), (is_TransportOpen e), (is_NewAgent e), (is_ListTools e);
    try discriminate Hp.
  now rewrite !orb_false_r, Nat.add_0_r.
Qed.

Lemma seen_calls kind (tr : list event) :
  seen kind tr = negb (calls_so_far kind tr =? 0).
Proof.
  unfold seen, calls_so_far. induction tr as [|e tr IH]; simpl; [reflexivity|].
  destruct (kind e); simpl; [reflexivity|exact IH].
Qed.

Lemma not_seen_no_calls kind (tr : list event) :
  seen kind tr = false -> calls_so_far kind tr = 0.
Proof.
  unfold seen, calls_so_far. induction tr as [|e tr IH]; simpl; [reflexivity|].
  destruct (kind e); simpl; [discriminate|exact IH].
Qed.

Lemma after_prefix_app p s : after_prefix p (p ++ s) = Some s.
Proof.
  induction p as [|c p IH]; simpl; [reflexivity|].
  unfold char_eqb. now rewrite N.eqb_refl.
Qed.

Lemma said_agent_says s : said (agent_says s) = Some s.
Proof.
  unfold said. replace (agent_says s) with (agent_says [] ++ s).
  - apply after_prefix_app.
  - unfold agent_says. now rewrite !app_nil_r, <- !app_assoc.
Qed.

Section Steps.
Context {casing : Casing}.
Variable env : Env.
Variable config : Config.
Variable prompt_text : str.

#[local] Abbreviation step := (agent_step env config).

(** A line that is not a line of the agent is in its place anywhere. *)
Lemma other_line_in_place before line :
  said line = None -> step before (Print line).
Proof.
  intros H s ->. rewrite said_agent_says in H. discriminate H.
Qed.

Lemma agent_line_in_place earlier user_input s :
  came_back env (calls_so_far is_Invoke earlier) s ->
  step (earlier ++ [Invoke user_input]) (Print (agent_says s)).
Proof.
  intros H s' E. exists earlier, user_input. split; [reflexivity|].
  apply (f_equal said) in E. rewrite !said_agent_says in E.
  now injection E as <-.
Qed.

Lemma agent_lists_in_place : lists_in_place env step.
Proof. intros before token Ho Ha Ht. simpl. auto. Qed.

End Steps.

End AgentRun.

(** ** Running a program one call at a time *)

Section RunFacts.
Context {E Ev : Type}.

Lemma run_bind_emit {B} (ev : Ev) (k : unit -> @M E Ev B) env tr :
  bind (emit ev) k env tr = k tt env (tr ++ [ev]).
Proof. reflexivity. Qed.

Lemma run_bind_call {A B} (ev : Ev) same (oracle : E -> nat -> reply A)
      (k : A -> @M E Ev B) env tr :
  bind (call ev same oracle) k env tr
  = match oracle env (calls_so_far same tr) with
    | Reply a => k a env (tr ++ [ev])
    | Fails e => (Raise e, tr ++ [ev])
    end.
Proof. unfold bind, call. now destruct (oracle env (calls_so_far same tr)). Qed.

Lemma run_bind_ret {A B} (a : A) (k : A -> @M E Ev B) env tr :
  bind (ret a) k env tr = k a env tr.
Proof. reflexivity. Qed.

Lemma run_bind_bind {A B C} (m : @M E Ev A) (k : A -> @M E Ev B)
      (h : B -> @M E Ev C) env tr :
  bind (bind m k) h env tr = bind m (fun a => bind (k a) h) env tr.
Proof. unfold bind. now destruct (m env tr) as [[a|e|] tr']. Qed.

Lemma run_bind {A B} (m : @M E Ev A) (k : A -> @M E Ev B) env tr :
  bind m k env tr
  = match fst (m env tr) with
    | Ret a => k a env (snd (m env tr))
    | Raise e => (Raise e, snd (m env tr))
    | Unfinished => (Unfinished, snd (m env tr))
    end.
Proof. unfold bind. now destruct (m env tr) as [[a|e|] tr']. Qed.

End RunFacts.

(** ** Every run of [agent.py] keeps its steps in place *)

Module AgentTrace.
Import Steps StepFacts AgentPy AgentRun.

Section Trace.
Context {casing : Casing}.
Variable env : Env.
Variable config : Config.
Variable prompt_text : str.

#[local] Abbreviation step := (agent_step env config).

(** Calls that change none of the sights. *)
Ltac plains :=
  repeat (apply ok_plain;
          [ | reflexivity
            | first [ exact I
                    | apply other_line_in_place; vm_compute; reflexivity ] ]);
  try assumption.

Lemma memory_ok sm tr :
  ok step sm tr -> ok step sm (snd (create_or_get_memory env tr)).
Proof.
  intros H. unfold create_or_get_memory, try_except.
  rewrite run_bind_call.
  destruct (memories env _) as [ids|e].
  - destruct (find (startswith memory_name) ids) as [id|].
    + simpl. plains.
    + rewrite run_bind_call. destruct (new_memory env _) as [id|e].
      * rewrite run_bind_call. destruct (config_file env _) as [[]|e].
        -- simpl. plains.
        -- destruct e; simpl; plains.
      * destruct e; simpl; plains.
  - destruct e; simpl; plains.
Qed.


Lemma invoke_in_place sm tr user_input :
  ok step sm tr -> s_agent sm = true -> step tr (Invoke user_input).
Proof. intros H Ha. simpl. now rewrite (ok_agent _ _ _ H). Qed.

Lemma iteration_ok sm tr agent :
  ok step sm tr -> s_agent sm = true ->
  ok step sm (snd (iteration agent env tr)).
Proof.
  intros H Ha. unfold iteration, try_except.
  rewrite run_bind_call.
  destruct (stdin env _) as [line|e].
  - assert (H1 : ok step sm (tr ++ [Input (nl ++ BUST ++ lit " You: ")])) by plains.
    destruct (str_eqb (lower line) (lit "exit")); [simpl; plains|].
    destruct (truthy (strip line)); [|simpl; plains].
    cbn [negb]. rewrite run_bind_call.
    assert (H2 : ok step sm ((tr ++ [Input (nl ++ BUST ++ lit " You: ")])
                             ++ [Invoke line])).
    { apply ok_plain; [exact H1|reflexivity|].
      now apply invoke_in_place with sm. }
    destruct (model env _) as [resp|e] eqn:Emodel.
    + assert (Hback : came_back env
                        (calls_so_far is_Invoke
                           (tr ++ [Input (nl ++ BUST ++ lit " You: ")]))
                        match resp with
                        | RStr r => Re.cleaned_response r
                        | RObj _ shown => shown
                        end).
      { unfold came_back. rewrite Emodel. now destruct resp. }
      destruct resp as [r|m shown]; unfold show_response.
      * destruct (contains _ _ || contains _ _); [simpl; plains|].
        destruct (truthy (Re.cleaned_response r)); [|simpl; plains].
        simpl. apply ok_plain; [exact H2|reflexivity|].
        apply agent_line_in_place. exact Hback.
      * simpl. apply ok_plain; [exact H2|reflexivity|].
        apply agent_line_in_place. exact Hback.
    + destruct e; simpl; try (destruct (contains _ _); simpl); plains.
  - destruct e; simpl; try (destruct (contains _ _); simpl); plains.
Qed.

Lemma interactive_loop_ok agent sm fuel :
  forall tr, ok step sm tr -> s_agent sm = true ->
             ok step sm (snd (interactive_loop fuel agent env tr)).
Proof.
  induction fuel as [|fuel IH]; intros tr H Ha; simpl; [exact H|].
  rewrite run_bind.
  pose proof (iteration_ok sm tr agent H Ha) as H1.
  destruct (fst (iteration agent env tr)) as [[|]|e|]; simpl; auto.
Qed.


Lemma finally_emit {A} (body : Prog A) ev tr :
  fst (finally body (emit ev) env tr) = fst (body env tr)
  /\ snd (finally body (emit ev) env tr)
     = match fst (body env tr) with
       | Unfinished => snd (body env tr)
       | _ => snd (body env tr) ++ [ev]
       end.
Proof. unfold finally, emit. now destruct (body env tr) as [[a|e|] tr']. Qed.

(** What the caller of [create_resource_optimizer_agent] can rely on. *)
Definition created (sm : sights) (r : result (Agent * MCPClient * str)) : Prop :=
  forall agent client id,
    r = Ret (agent, client, id) ->
    s_agent sm = true /\ s_post sm = true
    /\ exists access_token,
         token_endpoint env 0 = Reply access_token
         /\ client = {| transport_callable :=
                          create_streamable_http_transport (GATEWAY_URL config)
                            access_token |}.

Definition set_up (run : result (Agent * MCPClient * str) * list event) : Prop :=
  exists sm, ok step sm (snd run) /\ created sm (fst run).

Lemma set_up_failed sm e tr : ok step sm tr -> set_up (Raise e, tr).
Proof. intros H. exists sm. split; [exact H|]. intros a c i E. discriminate E. Qed.

Lemma set_up_unfinished sm tr : ok step sm tr -> set_up (Unfinished, tr).
Proof. intros H. exists sm. split; [exact H|]. intros a c i E. discriminate E. Qed.

(** The block under [with mcp_client] in [create_resource_optimizer_agent]. *)
Lemma listing_block_ok fuel access_token tr :
  token_endpoint env 0 = Reply access_token ->
  ok step (Build_sights true true false 0) tr ->
  let client := {| transport_callable :=
                     create_streamable_http_transport (GATEWAY_URL config)
                       access_token |} in
  set_up
    ((all_tools <- get_full_tools_list fuel client ;;
      let tools := filter name_fits all_tools in
      print (CHECK ++ lit " Gateway connected (" ++ str_of_nat (length tools)
             ++ lit " tools available)") ;;
      print (BRAIN ++ lit " Loading AgentCore Memory...") ;;
      memory_id <- create_or_get_memory ;;
      print (CHECK ++ lit " Memory ready (ID: " ++ memory_id ++ lit ")") ;;
      agent <- new_Agent (lit "ResourceOptimizerAgent") prompt_text tools
                 (Some ACTOR_ID) (Some SESSION_ID) ;;
      ret (agent, client, memory_id)) env tr).
Proof.
  intros Htok H client.
  rewrite run_bind.
  assert (Hlisting : listing env step [] None tr).
  { destruct H as [Hin Hp Ho Ha Hl]. split; auto.
    - unfold token_due. now rewrite Hl.
    - now rewrite Hl. }
  pose proof (agent_loop_listed env step client (agent_lists_in_place env config)
                fuel [] None tr Hlisting) as [Hin Hgrew Htools].
  fold (get_full_tools_list fuel client env tr) in *.
  assert (Hk : forall kind, (forall t, kind (ListTools t) = false) ->
                            seen kind (snd (get_full_tools_list fuel client env tr))
                            = seen kind tr).
  { intros kind Hkind. now apply grew_seen. }
  set (tr1 := snd (get_full_tools_list fuel client env tr)) in *.
  assert (H1 : ok step (Build_sights true true false
                          (calls_so_far is_ListTools tr1)) tr1).
  { destruct H as [_ Hp Ho Ha _]. split; simpl; auto.
    - now rewrite Hk.
    - now rewrite Hk.
    - now rewrite Hk. }
  destruct (fst (get_full_tools_list fuel client env tr)) as [all|e|];
    [|now apply set_up_failed with (1 := H1)
     |now apply set_up_unfinished with (1 := H1)].
  destruct (Htools all eq_refl) as [Hseen Hall].
  cbv zeta. unfold print. rewrite !run_bind_emit, run_bind.
  set (tr2 := (tr1 ++ _) ++ _).
  assert (H2 : ok step (Build_sights true true false
                          (calls_so_far is_ListTools tr1)) tr2) by (unfold tr2; plains).
  pose proof (memory_ok _ _ H2) as H3.
  destruct (fst (create_or_get_memory env tr2)) as [id|e|];
    [|now apply set_up_failed with (1 := H3)
     |now apply set_up_unfinished with (1 := H3)].
  rewrite run_bind_emit. unfold new_Agent.
  rewrite run_bind_bind, run_bind_call.
  set (tr3 := snd (create_or_get_memory env tr2) ++ _).
  assert (H4 : ok step (Build_sights true true false
                          (calls_so_far is_ListTools tr1)) tr3)
    by (unfold tr3; plains).
  assert (H5 : ok step (Build_sights true true true
                          (calls_so_far is_ListTools tr1))
                  (tr3 ++ [NewAgent (lit "ResourceOptimizerAgent")
                                    (filter name_fits all)])).
  { assert (Hs : step tr3 (NewAgent (lit "ResourceOptimizerAgent")
                                    (filter name_fits all))).
    { simpl. split.
      - rewrite seen_calls, (ok_lists _ _ _ H4). simpl.
        now rewrite <- seen_calls.
      - rewrite (ok_lists _ _ _ H4). simpl. now rewrite Hall. }
    pose proof (ok_snoc _ _ _ _ H4 Hs) as H5.
    unfold note in H5. simpl in H5. now rewrite Nat.add_0_r in H5. }
  destruct (agent_ctor env _) as [[]|e];
    [|now apply set_up_failed with (1 := H5)].
  simpl. eexists. split; [exact H5|].
  intros agent c id' [= <- <- <-]. simpl. repeat split.
  now exists access_token.
Qed.

Lemma set_up_finally (body : Prog (Agent * MCPClient * str)) tr :
  set_up (body env tr) -> set_up (finally body (emit TransportClose) env tr).
Proof.
  intros (sm & Hok & Hcreated). unfold finally, emit.
  destruct (body env tr) as [[a|e|] tr']; cbn [fst snd] in *.
  - exists sm. split; [now apply ok_plain|exact Hcreated].
  - apply set_up_failed with sm. now apply ok_plain.
  - now apply set_up_unfinished with sm.
Qed.

Lemma create_ok fuel :
  set_up (create_resource_optimizer_agent config prompt_text fuel env []).
Proof.
  unfold create_resource_optimizer_agent, print, fetch_access_token, post_for_token.
  rewrite !run_bind_emit, run_bind_call.
  set (tr0 := ((([] ++ _) ++ _) ++ _) ++ _).
  assert (H0 : ok step (Build_sights false false false 0) tr0).
  { unfold tr0. plains. apply ok_nil. }
  set (post := HttpPost _ _).
  assert (H1 : ok step (Build_sights true false false 0) (tr0 ++ [post])).
  { apply (ok_snoc _ _ _ post H0). split; [reflexivity|].
    now rewrite (ok_post _ _ _ H0). }
  change (calls_so_far is_HttpPost tr0) with 0.
  destruct (token_endpoint env 0) as [access_token|e] eqn:Etok;
    [|now apply set_up_failed with (1 := H1)].
  rewrite !run_bind_emit. cbv zeta.
  unfold with_client. cbn [transport_callable].
  unfold create_streamable_http_transport at 1, streamablehttp_client.
  rewrite run_bind_call.
  set (tr2 := ((tr0 ++ [post]) ++ _) ++ _).
  assert (H2 : ok step (Build_sights true false false 0) tr2)
    by (unfold tr2; plains).
  set (opening := TransportOpen _ _).
  assert (H3 : ok step (Build_sights true true false 0) (tr2 ++ [opening])).
  { apply (ok_snoc _ _ _ opening H2). split; [reflexivity|]. split.
    - now rewrite (ok_post _ _ _ H2).
    - now exists access_token. }
  destruct (transport env _) as [[]|e];
    [|now apply set_up_failed with (1 := H3)].
  apply set_up_finally.
  exact (listing_block_ok fuel access_token _ Etok H3).
Qed.

Lemma print_all_run lines tr :
  print_all lines env tr = (Ret tt, tr ++ map Print lines).
Proof.
  revert tr. induction lines as [|l lines IH]; intros tr; simpl.
  - now rewrite app_nil_r.
  - unfold print. rewrite run_bind_emit, IH. now rewrite <- app_assoc.
Qed.

Lemma ok_prints sm lines :
  Forall (fun l => said l = None) lines ->
  forall tr, ok step sm tr -> ok step sm (tr ++ map Print lines).
Proof.
  induction 1 as [|l lines Hl _ IH]; intros tr H; simpl.
  - now rewrite app_nil_r.
  - change (Print l :: map Print lines) with ([Print l] ++ map Print lines).
    rewrite app_assoc. apply IH. apply ok_plain; auto.
    now apply other_line_in_place.
Qed.

Lemma welcome_lines : Forall (fun l => said l = None) welcome.
Proof. repeat constructor. Qed.

(** The statements of [main] under its [try]. *)
Lemma main_body_ok fuel :
  let body :=
    ('(agent, mcp_client, _) <- create_resource_optimizer_agent config prompt_text fuel ;;
     print_all welcome ;;
     with_client mcp_client (interactive_loop fuel agent)) in
  exists sm, ok step sm (snd (body env [])).
Proof.
  intros body. unfold body. rewrite run_bind.
  destruct (create_ok fuel) as (sm & Hok & Hcreated).
  destruct (fst (create_resource_optimizer_agent config prompt_text fuel env []))
    as [[[agent client] id]|e|]; [|now exists sm..].
  cbv iota beta.
  destruct (Hcreated agent client id eq_refl) as (Ha & Hp & tok & Htok & ->).
  rewrite run_bind, print_all_run. cbn [fst snd].
  pose proof (ok_prints sm welcome welcome_lines _ Hok) as H1.
  unfold with_client. cbn [transport_callable].
  unfold create_streamable_http_transport, streamablehttp_client.
  rewrite run_bind_call.
  set (tr1 := _ ++ map Print welcome) in *.
  set (opening := TransportOpen _ _).
  assert (H2 : ok step (note sm opening) (tr1 ++ [opening])).
  { apply (ok_snoc _ _ _ opening H1). split; [reflexivity|]. split.
    - now rewrite (ok_post _ _ _ H1).
    - now exists tok. }
  destruct (transport env _) as [[]|e]; [|now eexists; exact H2].
  cbv beta.
  match goal with
  | |- context [finally ?body ?cleanup env ?tr] =>
      destruct (finally_emit body TransportClose tr) as [_ ->]
  end.
  exists (note sm opening).
  assert (H3 : ok step (note sm opening)
                  (snd (interactive_loop fuel agent env (tr1 ++ [opening])))).
  { apply interactive_loop_ok; [exact H2|]. simpl. now rewrite Ha. }
  destruct (fst (interactive_loop fuel agent env (tr1 ++ [opening])));
    auto; now apply ok_plain.
Qed.

(** Every event of every run of [main] is in its place. *)
Lemma main_in_place fuel :
  in_place step (snd (main config prompt_text fuel env [])).
Proof.
  destruct (main_body_ok fuel) as (sm & H). cbv zeta in H.
  unfold main, try_except.
  match goal with
  | |- context [match ?run with (r, tr') => _ end] =>
      destruct run as [[u|e|] tr1]
  end; cbn [fst snd] in *; try exact (ok_in_place _ _ _ H).
  unfold on_Exception. destruct (is_Exception e); [|exact (ok_in_place _ _ _ H)].
  simpl. apply in_place_snoc; [exact (ok_in_place _ _ _ H)|].
  apply other_line_in_place. vm_compute. reflexivity.
Qed.

End Trace.
End AgentTrace.

(** ** Every run of [runtime_agent.py] keeps its steps in place *)

Module RuntimeTrace.
Import Steps StepFacts AgentRun RuntimeAgent.

Section Trace.
Variable env : Env.
Variable environ : Environ.
Variable prompt_text : str.

#[local] Abbreviation step := (runtime_step env environ).

Lemma runtime_lists_in_place : lists_in_place env step.
Proof. intros before token Ho Ha Ht. simpl. auto. Qed.

(** The sights after a piece of code that lists no tools and makes no
    agent. *)
Definition same_agent (sm sm' : sights) : Prop :=
  s_agent sm' = s_agent sm /\ s_lists sm' = s_lists sm.

Lemma same_agent_note sm e :
  is_NewAgent e = false -> is_ListTools e = false -> same_agent sm (note sm e).
Proof.
  intros Ha Hl. unfold same_agent, note. simpl.
  now rewrite Ha, Hl, orb_false_r, Nat.add_0_r.
Qed.

Lemma same_agent_trans sm1 sm2 sm3 :
  same_agent sm1 sm2 -> same_agent sm2 sm3 -> same_agent sm1 sm3.
Proof. unfold same_agent. intros [-> ->] [-> ->]. auto. Qed.

Lemma create_transport_ok sm tr :
  ok step sm tr ->
  exists sm',
    ok step sm' (snd (create_transport environ env tr))
    /\ same_agent sm sm'
    /\ (fst (create_transport environ env tr) = Ret tt -> s_open sm' = true).
Proof.
  intros H. unfold create_transport, get_access_token, post_for_token.
  rewrite run_bind_call.
  set (post := HttpPost _ _).
  assert (H1 : ok step (note sm post) (tr ++ [post])).
  { apply ok_snoc; [exact H|]. reflexivity. }
  destruct (token_endpoint env _) as [token|e] eqn:Etok.
  - unfold streamablehttp_client, call. cbn [fst snd].
    set (opening := TransportOpen _ _).
    exists (note (note sm post) opening). split; [|split].
    + apply ok_snoc; [exact H1|]. split; [reflexivity|].
      now exists tr, (lit "grant_type=client_credentials&client_id="
                      ++ COGNITO_CLIENT_ID environ ++ lit "&client_secret="
                      ++ COGNITO_CLIENT_SECRET environ), token.
    + apply same_agent_trans with (note sm post); now apply same_agent_note.
    + intros _. simpl. apply orb_true_r.
  - exists (note sm post). split; [exact H1|]. split.
    + now apply same_agent_note.
    + discriminate.
Qed.

Lemma get_tools_ok fuel :
  exists sm,
    ok step sm (snd (get_tools environ fuel env []))
    /\ s_agent sm = false
    /\ forall tools client,
         fst (get_tools environ fuel env []) = Ret (tools, client) ->
         0 < s_lists sm
         /\ tools = filter name_fits (enumerated env (s_lists sm))
         /\ client = {| transport_callable := create_transport environ |}.
Proof.
  unfold get_tools. cbv zeta. unfold with_client. cbn [transport_callable].
  rewrite run_bind.
  destruct (create_transport_ok _ _ (ok_nil step)) as (sm & H & [Ha Hl] & Ho).
  simpl in Ha, Hl.
  destruct (fst (create_transport environ env [])) as [[]|e|];
    [|exists sm; cbn [fst snd];
      (split; [exact H|split; [exact Ha|intros ? ? E; discriminate E]])..].
  specialize (Ho eq_refl).
  set (tr := snd (create_transport environ env [])) in *.
  set (client := {| transport_callable := create_transport environ |}).
  assert (Hlisting : listing env step [] None tr).
  { destruct H as [Hin Hp Hopen Hagent Hlists]. split; auto.
    - congruence.
    - congruence.
    - unfold token_due. now rewrite Hlists, Hl.
    - now rewrite Hlists, Hl. }
  pose proof (runtime_loop_listed env step client runtime_lists_in_place
                fuel [] None tr Hlisting) as [Hin Hgrew Htools].
  unfold finally. rewrite run_bind.
  set (tr1 := snd (get_tools_while fuel client [] None env tr)) in *.
  assert (H1 : ok step (Build_sights (s_post sm) true false
                          (calls_so_far is_ListTools tr1)) tr1).
  { destruct H as [_ Hp Hopen Hagent _]. split; simpl; auto.
    - unfold tr1. rewrite (grew_seen _ _ _ (fun _ => eq_refl) Hgrew). exact Hp.
    - unfold tr1. rewrite (grew_seen _ _ _ (fun _ => eq_refl) Hgrew). congruence.
    - unfold tr1. rewrite (grew_seen _ _ _ (fun _ => eq_refl) Hgrew). congruence. }
  destruct (fst (get_tools_while fuel client [] None env tr)) as [all|e|].
  - destruct (Htools all eq_refl) as [Hseen Hall].
    cbn. eexists. split; [apply ok_plain; [exact H1|reflexivity|exact I]|].
    split; [reflexivity|].
    intros tools c [= <- <-]. simpl. split; [|split; [now rewrite Hall|reflexivity]].
    rewrite seen_calls in Hseen. fold tr1 in Hseen.
    destruct (calls_so_far is_ListTools tr1); [discriminate|lia].
  - cbn. eexists. split; [apply ok_plain; [exact H1|reflexivity|exact I]|].
    split; [reflexivity|]. intros ? ? E; discriminate E.
  - cbn. eexists. split; [exact H1|]. split; [reflexivity|].
    intros ? ? E; discriminate E.
Qed.

Lemma startup_ok fuel :
  exists sm,
    ok step sm (snd (startup environ prompt_text fuel env []))
    /\ forall agent client,
         fst (startup environ prompt_text fuel env []) = Ret (agent, client) ->
         s_agent sm = true
         /\ client = {| transport_callable := create_transport environ |}.
Proof.
  unfold startup. rewrite run_bind.
  destruct (get_tools_ok fuel) as (sm & H & Ha & Hret).
  destruct (fst (get_tools environ fuel env [])) as [[tools client]|e|];
    [|exists sm; (split; [exact H|intros ? ? E; discriminate E])..].
  destruct (Hret tools client eq_refl) as (Hpos & -> & ->).
  cbv iota beta. unfold AgentPy.new_Agent.
  rewrite run_bind_bind, run_bind_call.
  set (agent := NewAgent _ _).
  assert (H1 : ok step (note sm agent)
                  (snd (get_tools environ fuel env []) ++ [agent])).
  { apply ok_snoc; [exact H|]. split.
    - rewrite seen_calls, (ok_lists _ _ _ H).
      destruct (s_lists sm); [lia|reflexivity].
    - now rewrite (ok_lists _ _ _ H). }
  destruct (agent_ctor env _) as [[]|e].
  - cbn. exists (note sm agent). split; [exact H1|].
    intros a c [= <- <-]. split; [apply orb_true_r|reflexivity].
  - exists (note sm agent). split; [exact H1|]. intros ? ? E; discriminate E.
Qed.

Lemma snd_bind_ret {A B} (m : Prog A) (f : A -> B) tr :
  snd (bind m (fun a => ret (f a)) env tr) = snd (m env tr).
Proof. unfold bind, ret. now destruct (m env tr) as [[a|e|] tr']. Qed.

Lemma fst_bind_ret {A B} (m : Prog A) (f : A -> B) tr :
  fst (bind m (fun a => ret (f a)) env tr)
  = match fst (m env tr) with
    | Ret a => Ret (f a)
    | Raise e => Raise e
    | Unfinished => Unfinished
    end.
Proof. unfold bind, ret. now destruct (m env tr) as [[a|e|] tr']. Qed.

Lemma invoke_ok sm tr payload :
  ok step sm tr -> s_agent sm = true ->
  exists sm',
    ok step sm'
       (snd (invoke {| transport_callable := create_transport environ |}
               payload env tr))
    /\ s_agent sm' = true.
Proof.
  intros H Ha. unfold invoke. cbv zeta. rewrite snd_bind_ret.
  unfold with_client. cbn [transport_callable]. rewrite run_bind.
  destruct (create_transport_ok _ _ H) as (sm1 & H1 & [Ha1 _] & _).
  rewrite Ha in Ha1.
  destruct (fst (create_transport environ env tr)) as [[]|e|];
    [|now exists sm1..].
  unfold finally, call.
  set (invocation := Invoke _).
  assert (H2 : ok step sm1 (snd (create_transport environ env tr) ++ [invocation])).
  { apply ok_plain; [exact H1|reflexivity|]. simpl.
    now rewrite (ok_agent _ _ _ H1). }
  exists sm1. split; [|exact Ha1].
  destruct (model env _) as [resp|e]; cbn; now apply ok_plain.
Qed.

Lemma serve_ok payloads :
  forall sm tr,
    ok step sm tr -> s_agent sm = true ->
    exists sm',
      ok step sm'
         (snd (serve {| transport_callable := create_transport environ |}
                 payloads env tr)).
Proof.
  induction payloads as [|p payloads IH]; intros sm tr H Ha; simpl.
  - now exists sm.
  - set (client := {| transport_callable := create_transport environ |}) in *.
    destruct (invoke_ok sm tr p H Ha) as (sm1 & H1 & Ha1). fold client in H1.
    rewrite run_bind. unfold try_except.
    rewrite (surjective_pairing
               (bind (invoke client p) (fun x => ret (Some x)) env tr)).
    rewrite fst_bind_ret, snd_bind_ret.
    destruct (fst (invoke client p env tr)) as [x|e|]; cbn [fst snd].
    + rewrite snd_bind_ret. exact (IH sm1 _ H1 Ha1).
    + unfold on_Exception. destruct (is_Exception e); cbn [fst snd ret].
      * rewrite snd_bind_ret. exact (IH sm1 _ H1 Ha1).
      * now exists sm1.
    + now exists sm1.
Qed.

(** Every event of every run of the runtime is in its place. *)
Lemma run_in_place fuel payloads :
  in_place step (snd (run environ prompt_text fuel payloads env [])).
Proof.
  unfold run. rewrite run_bind.
  destruct (startup_ok fuel) as (sm & H & Hret).
  destruct (fst (startup environ prompt_text fuel env [])) as [[agent client]|e|];
    try exact (ok_in_place _ _ _ H).
  destruct (Hret agent client eq_refl) as [Ha ->].
  destruct (serve_ok payloads sm _ H Ha) as (sm' & H').
  exact (ok_in_place _ _ _ H').
Qed.

End Trace.
End RuntimeTrace.

(** ** A run of [agent.py] in which every service answers *)

Module AgentSuccess.
Import Steps StepFacts AgentPy AgentRun Pagination.

Section Success.
Context {casing : Casing}.
Variable env : Env.
Variable config : Config.
Variable prompt_text : str.

Lemma no_calls_in_listing kind (toks : list (option str)) :
  (forall t, kind (ListTools t) = false) ->
  calls_so_far kind (map ListTools toks) = 0.
Proof.
  intros Hk. apply calls_so_far_none.
  induction toks as [|t toks IH]; constructor; auto.
Qed.

Lemma create_succeeds fuel access_token n pg ids memory_id :
  token_endpoint env 0 = Reply access_token ->
  transport env 0 = Reply tt ->
  (forall i, i <= n -> gateway env i = Reply (pg i)) ->
  (forall i, i < n -> pagination_token (pg i) <> None) ->
  pagination_token (pg n) = None ->
  n < fuel ->
  memories env 0 = Reply ids ->
  find (startswith memory_name) ids = Some memory_id ->
  agent_ctor env 0 = Reply tt ->
  let tools := filter name_fits (all_items pg (S n)) in
  create_resource_optimizer_agent config prompt_text fuel env []
  = (Ret ({| agent_name := lit "ResourceOptimizerAgent";
             system_prompt := prompt_text;
             agent_tools := tools;
             state_actor_id := Some ACTOR_ID;
             state_session_id := Some SESSION_ID;
             messages := [] |},
          {| transport_callable :=
               create_streamable_http_transport (GATEWAY_URL config) access_token |},
          memory_id),
     set_up_calls config access_token
       (None :: map (fun i => pagination_token (pg i)) (seq 0 n)) tools memory_id).
Proof.
  intros Htok Htransport Hpg Hsome Hnone Hfuel Hmem Hfind Hctor tools.
  unfold create_resource_optimizer_agent, print, fetch_access_token, post_for_token.
  rewrite !run_bind_emit, run_bind_call.
  change (calls_so_far is_HttpPost _) with 0. rewrite Htok.
  rewrite !run_bind_emit. cbv zeta.
  unfold with_client. cbn [transport_callable].
  unfold create_streamable_http_transport at 1, streamablehttp_client.
  rewrite run_bind_call.
  change (calls_so_far is_TransportOpen _) with 0. rewrite Htransport.
  unfold finally. rewrite run_bind. unfold get_full_tools_list.
  rewrite (agent_loop_pages _ env n fuel pg [] None); auto.
  cbn [fst snd]. change ([] ++ all_items pg (S n)) with (all_items pg (S n)).
  fold tools. unfold expected_calls.
  rewrite !run_bind_emit, run_bind.
  unfold create_or_get_memory, try_except. rewrite run_bind_call.
  rewrite !calls_so_far_app, (no_calls_in_listing is_ListMemories);
    [|reflexivity].
  cbn [calls_so_far filter length is_ListMemories Nat.add].
  rewrite Hmem, Hfind. cbn [fst snd ret].
  rewrite run_bind_emit. unfold new_Agent.
  rewrite run_bind_bind, run_bind_call.
  rewrite !calls_so_far_app, (no_calls_in_listing is_NewAgent);
    [|reflexivity].
  cbn [calls_so_far filter length is_NewAgent Nat.add].
  rewrite Hctor. unfold bind, ret, emit.
  unfold set_up_calls. rewrite <- !app_assoc. reflexivity.
Qed.


Lemma iteration_prints agent tr line response :
  stdin env (calls_so_far is_Input tr) = Reply line ->
  str_eqb (lower line) (lit "exit") = false ->
  truthy (strip line) = true ->
  model env (calls_so_far is_Invoke tr) = Reply response ->
  shown_as_is response = true ->
  iteration agent env tr
  = (Ret Continue,
     tr ++ [Input (nl ++ BUST ++ lit " You: "); Invoke line;
            Print (agent_says (answer_text response))]).
Proof.
  intros Hin Hexit Hblank Hmodel Hshown.
  unfold iteration, try_except.
  rewrite run_bind_call, Hin, Hexit, Hblank. cbn [negb].
  rewrite run_bind_call, calls_so_far_snoc. cbn [is_Invoke].
  rewrite Nat.add_0_r, Hmodel.
  destruct response as [r|m shown]; unfold show_response, answer_text.
  - simpl in Hshown. apply andb_prop in Hshown. destruct Hshown as [Hrate Hfull].
    apply negb_true_iff in Hrate. rewrite Hrate, Hfull.
    unfold bind, print, emit, ret. rewrite <- !app_assoc. reflexivity.
  - unfold bind, print, emit, ret. rewrite <- !app_assoc. reflexivity.
Qed.

End Success.
End AgentSuccess.

(** ** The claims on whole runs *)

Module RunClaims.
Import Steps StepFacts AgentPy AgentRun.





(** C8.  Every call of [create_transport] first posts to the token
    endpoint and, when a token comes back, opens the transport with that
    token as bearer; and in every run of the runtime, each transport that
    is opened comes right after a post to the token endpoint and carries
    the token of that very post: none carries a token kept from before. *)
Theorem every_transport_has_its_own_token
        (env : Env) (environ : RuntimeAgent.Environ) (prompt_text : str)
        (fuel : nat) (payloads : list (option str)) :
  (forall tr,
     RuntimeAgent.create_transport environ env tr
     = match token_endpoint env (calls_so_far is_HttpPost tr) with
       | Reply token =>
           (match transport env (calls_so_far is_TransportOpen tr) with
            | Reply _ => Ret tt
            | Fails e => Raise e
            end,
            tr ++ [HttpPost (RuntimeAgent.COGNITO_TOKEN_URL environ)
                     (lit "grant_type=client_credentials&client_id="
                      ++ RuntimeAgent.COGNITO_CLIENT_ID environ
                      ++ lit "&client_secret="
                      ++ RuntimeAgent.COGNITO_CLIENT_SECRET environ);
                   TransportOpen (RuntimeAgent.GATEWAY_URL environ)
                     (lit "Bearer " ++ token)])
       | Fails e =>
           (Raise e,
            tr ++ [HttpPost (RuntimeAgent.COGNITO_TOKEN_URL environ)
                     (lit "grant_type=client_credentials&client_id="
                      ++ RuntimeAgent.COGNITO_CLIENT_ID environ
                      ++ lit "&client_secret="
                      ++ RuntimeAgent.COGNITO_CLIENT_SECRET environ)])
       end)
  /\ (forall before url authorization after,
        snd (RuntimeAgent.run environ prompt_text fuel payloads env [])
        = before ++ TransportOpen url authorization :: after ->
        url = RuntimeAgent.GATEWAY_URL environ
        /\ exists earlier data token,
             before = earlier ++ [HttpPost (RuntimeAgent.COGNITO_TOKEN_URL environ) data]
             /\ token_endpoint env (calls_so_far is_HttpPost earlier) = Reply token
             /\ authorization = lit "Bearer " ++ token).
Proof.
  split.
  - intros tr.
    unfold RuntimeAgent.create_transport, RuntimeAgent.get_access_token,
      post_for_token.
    rewrite run_bind_call.
    destruct (token_endpoint env (calls_so_far is_HttpPost tr)) as [token|e];
      [|reflexivity].
    unfold streamablehttp_client, call.
    rewrite calls_so_far_snoc. cbn [is_TransportOpen].
    rewrite Nat.add_0_r, <- app_assoc.
    now destruct (transport env (calls_so_far is_TransportOpen tr)) as [[]|e].
  - intros before url authorization after H.
    exact (RuntimeTrace.run_in_place env environ prompt_text fuel payloads
             before _ after H).
Qed.

Lemma every_transport_has_its_own_token_witness :
  lit "https://gateway.example/mcp" = RuntimeAgent.GATEWAY_URL Sample.environ
  /\ exists earlier data token,
       firstn 11 Sample.served_trace
       = earlier ++ [HttpPost (RuntimeAgent.COGNITO_TOKEN_URL Sample.environ) data]
       /\ token_endpoint Sample.chat_env (calls_so_far is_HttpPost earlier)
          = Reply token
       /\ lit "Bearer token-2" = lit "Bearer " ++ token.
Proof.
  apply (proj2 (every_transport_has_its_own_token Sample.chat_env Sample.environ
                  [] 3 [Some Sample.question; None])
           (firstn 11 Sample.served_trace) _ _ (skipn 12 Sample.served_trace)).
  vm_compute. reflexivity.
Defined.

End RunClaims.

(** ** The memory hooks *)

Module HookClaims.
Import AgentPy.

(** C7.  [on_message_added] looks at the first content block of the newest
    message: when it has a text that is not empty, it calls [create_event]
    once, with that text and the message's role as they are, and logs the
    error if the call raises an [Exception]; when the block has no text or
    an empty one, it calls nothing.  [on_agent_initialized], when the
    state has an actor and a session id, asks the store for the last five
    turns and, if there are any, appends them to the system prompt, each
    message as [role: text] on a line of its own, the texts as they are;
    with no turns, with an id missing or when the store fails, it leaves
    the agent as it was. *)
Theorem memory_hooks_pass_text_through
        (self : CostMemoryHookProvider) (agent : Agent) (env : Env)
        (tr : list event) :
  (forall newest block t,
     last_item (messages agent) = Some newest ->
     hd_error (content newest) = Some block ->
     text block = Some t ->
     truthy t = true ->
     let saving := CreateEvent (memory_id self) (state_actor_id agent)
                     (state_session_id agent) [(t, role newest)] in
     on_message_added self agent env tr
     = match memory_store env (calls_so_far is_CreateEvent tr) with
       | Reply _ => (Ret tt, tr ++ [saving])
       | Fails e =>
           if is_Exception e
           then (Ret tt, tr ++ [saving;
                                LogError (lit "Memory save error: " ++ exn_str e)])
           else (Raise e, tr ++ [saving])
       end)
  /\ (forall newest block,
        last_item (messages agent) = Some newest ->
        hd_error (content newest) = Some block ->
        text block = None \/ text block = Some [] ->
        on_message_added self agent env tr = (Ret tt, tr))
  /\ (forall actor_id session_id,
        state_actor_id agent = Some actor_id ->
        state_session_id agent = Some session_id ->
        truthy actor_id = true ->
        truthy session_id = true ->
        let asking := GetLastKTurns (memory_id self) actor_id session_id 5 in
        on_agent_initialized self agent env tr
        = match last_turns env (calls_so_far is_GetLastKTurns tr) with
          | Reply [] => (Ret agent, tr ++ [asking])
          | Reply recent_turns =>
              (Ret (set_system_prompt agent
                      (system_prompt agent ++ nl ++ nl
                       ++ lit "Recent conversation:" ++ nl
                       ++ join nl (map (fun m => m_role m ++ lit ": " ++ m_text m)
                                       (concat recent_turns)))),
               tr ++ [asking])
          | Fails e =>
              if is_Exception e
              then (Ret agent,
                    tr ++ [asking;
                           LogError (lit "Memory load error: " ++ exn_str e)])
              else (Raise e, tr ++ [asking])
          end)
  /\ (falsy (state_actor_id agent) = true \/ falsy (state_session_id agent) = true ->
      on_agent_initialized self agent env tr = (Ret agent, tr)).
Proof.
  repeat split.
  - intros newest block t Hlast Hhd Htext Hfull saving.
    unfold on_message_added, try_except, index.
    rewrite Hlast, run_bind_ret, Hhd, run_bind_ret, Htext, Hfull.
    unfold create_event, call. fold saving.
    destruct (memory_store env (calls_so_far is_CreateEvent tr)) as [[]|e];
      [reflexivity|].
    unfold on_Exception. destruct (is_Exception e); [|reflexivity].
    unfold emit. now rewrite <- app_assoc.
  - intros newest block Hlast Hhd Htext.
    unfold on_message_added, try_except, index.
    rewrite Hlast, run_bind_ret, Hhd, run_bind_ret.
    destruct Htext as [-> | ->]; reflexivity.
  - intros actor_id session_id Hactor Hsession Ha Hs asking.
    unfold on_agent_initialized, try_except, falsy.
    rewrite Hactor, Hsession, Ha, Hs. cbn [negb orb].
    unfold get_last_k_turns. rewrite run_bind_call. fold asking.
    destruct (last_turns env (calls_so_far is_GetLastKTurns tr)) as [[|turn turns]|e];
      [reflexivity|reflexivity|].
    unfold on_Exception. destruct (is_Exception e); [|reflexivity].
    unfold bind, emit, ret. now rewrite <- app_assoc.
  - intros H. unfold on_agent_initialized, try_except.
    destruct H as [-> | ->]; [reflexivity|].
    now rewrite orb_true_r.
Qed.

Lemma memory_hooks_pass_text_through_witness :
  on_message_added Sample.provider Sample.talking_agent Sample.remembering_env []
  = (Ret tt,
     [CreateEvent (lit "ResourceOptimizerMemory-abc") (Some ACTOR_ID)
        (Some SESSION_ID) [(Sample.question, lit "user")]])
  /\ fst (on_agent_initialized Sample.provider Sample.talking_agent
            Sample.remembering_env [])
     = Ret (set_system_prompt Sample.talking_agent
              (lit "You are an AWS Resource Optimizer." ++ nl ++ nl
               ++ lit "Recent conversation:" ++ nl
               ++ lit "USER: List my volumes" ++ nl
               ++ lit "ASSISTANT: You have two volumes.")).
Proof.
  destruct (memory_hooks_pass_text_through Sample.provider Sample.talking_agent
              Sample.remembering_env []) as (Hsave & _ & Hload & _).
  split.
  - apply (Hsave {| role := lit "user";
                    content := [ {| text := Some Sample.question |} ] |}
                 {| text := Some Sample.question |} Sample.question);
      reflexivity.
  - rewrite (Hload ACTOR_ID SESSION_ID); reflexivity.
Defined.

End HookClaims.

(** ** What every call of a run satisfies *)

Section Always.
Context {E Ev : Type}.
Variable P : Ev -> Prop.
Variable env : E.

(** Every call that [m] adds to a trace satisfies [P]. *)
Definition always {A} (m : @M E Ev A) : Prop :=
  forall tr, Forall P tr -> Forall P (snd (m env tr)).

Lemma always_ret {A} (a : A) : always (ret a).
Proof. intros tr H. exact H. Qed.

Lemma always_raise {A} (e : exn) : always (@raise E Ev A e).
Proof. intros tr H. exact H. Qed.

Lemma always_emit (ev : Ev) : P ev -> always (emit ev).
Proof.
  intros Hev tr H. simpl. apply Forall_app. split; [exact H|]. now constructor.
Qed.

Lemma always_call {A} (ev : Ev) same (oracle : E -> nat -> reply A) :
  P ev -> always (call ev same oracle).
Proof.
  intros Hev tr H. simpl. apply Forall_app. split; [exact H|]. now constructor.
Qed.

Lemma always_bind {A B} (m : @M E Ev A) (k : A -> @M E Ev B) :
  always m -> (forall a, always (k a)) -> always (bind m k).
Proof.
  intros Hm Hk tr H. rewrite run_bind. specialize (Hm tr H).
  destruct (fst (m env tr)); [now apply Hk|exact Hm|exact Hm].
Qed.

Lemma always_try_except {A} (m : @M E Ev A) handlers :
  always m ->
  (forall e h, handlers e = Some h -> always h) ->
  always (try_except m handlers).
Proof.
  intros Hm Hh tr H. unfold try_except. specialize (Hm tr H).
  destruct (m env tr) as [[a|e|] tr']; cbn [snd] in *; auto.
  destruct (handlers e) as [h|] eqn:Eh; [|exact Hm].
  now apply (Hh e h Eh).
Qed.

Lemma always_on_Exception {A} (handler : exn -> @M E Ev A) e h :
  (forall e, always (handler e)) -> on_Exception handler e = Some h -> always h.
Proof.
  intros Hh. unfold on_Exception. destruct (is_Exception e); [|discriminate].
  intros [= <-]. apply Hh.
Qed.

End Always.

(** ** The documents the scripts send *)

Module SetupPayloads.
Import Setup.

Section Payloads.
Context {json_lib : JsonLib}.
Variable cloud : Cloud.

(** One step of a proof that every call of a script satisfies [P]. *)
Ltac static_step :=
  first [ apply always_ret
        | apply always_raise
        | apply always_emit
        | apply always_call
        | apply always_bind; [|intros ?]
        | apply always_try_except; [|intros ? ? ?] ].

Ltac static := repeat static_step.

(** The clause that catches the exception at hand. *)
Ltac handled :=
  match goal with
  | H : _ = Some ?h |- always _ _ ?h =>
      match type of H with
      | context [match ?e with _ => _ end] => destruct e
      | context [on_Exception _ ?e] => destruct e
      end;
      cbn in H; try discriminate H; injection H as <-
  end.

Lemma item_always P {A} key (value : option A) : always P cloud (item key value).
Proof. destruct value; [apply always_ret|apply always_raise]. Qed.

Lemma iam_role_static config :
  always (static_payload config) cloud iam_role_script.
Proof.
  unfold iam_role_script, create_gateway_role, put_permissions, get_account,
    load_config, save_config, out, sys_exit.
  static; try exact I; try (split; reflexivity);
    handled; static; try exact I; try (split; reflexivity).
Qed.


Lemma always_bind_item P {A B} key (value : option A) (k : A -> Script B) :
  (forall a, value = Some a -> always P cloud (k a)) ->
  always P cloud (bind (item key value) k).
Proof.
  intros Hk. destruct value as [a|]; simpl.
  - intros tr H. rewrite run_bind_ret. now apply Hk.
  - intros tr H. exact H.
Qed.

Lemma always_outs P lines :
  (forall line, P (Out line)) -> always P cloud (out_all lines).
Proof.
  intros HP. induction lines as [|l lines IH]; simpl.
  - apply always_ret.
  - apply always_bind; [apply always_emit, HP|intros _; exact IH].
Qed.

(** What [create_gateway_with_semantic_search] does once it has read the
    file. *)
Lemma gateway_static_after_load config :
  always (static_payload (Some config)) cloud
         (aws_section <- item "aws" (aws config) ;;
          role_arn <- item "gateway_role_arn" (gateway_role_arn aws_section) ;;
          if no_cognito (cognito config)
          then
            out (CROSS ++ lit " Cognito configuration not found. Using existing Cognito setup") ;;
            sys_exit 1
          else
            let cognito_config :=
              match cognito config with
              | Some c => c
              | None => {| client_id := None; client_secret := None;
                           token_url := None; discovery_url := None |}
              end in
            out (lit "Creating AgentCore Gateway with Semantic Search") ;;
            out (lit "Using IAM role: " ++ role_arn) ;;
            client <- item "client_id" (client_id cognito_config) ;;
            out (lit "Using Cognito client: " ++ client) ;;
            discovery <- item "discovery_url" (discovery_url cognito_config) ;;
            try_except
              (out (nl ++ WRENCH ++ lit " Creating Gateway: " ++ the_gateway_name) ;;
               out (lit "  " ++ TICK ++ lit " Semantic Search: ENABLED") ;;
               out (lit "  " ++ TICK ++ lit " Debug Mode: ENABLED") ;;
               '(id, url) <- call (CreateGateway the_gateway_name role_arn (lit "MCP")
                                     (lit "CUSTOM_JWT") (auth_config client discovery)
                                     protocol_configuration (lit "DEBUG")
                                     (lit "Resource Optimizer Gateway with semantic search for EC2, RDS, EBS, CloudWatch"))
                                  is_CreateGateway create_gateway ;;
               out (nl ++ CHECK ++ lit " Gateway created successfully!") ;;
               out (lit "  Gateway ID:  " ++ id) ;;
               out (lit "  Gateway URL: " ++ url) ;;
               let section := {| gateway_id := Some id; gateway_url := Some url;
                                 gateway_name := Some the_gateway_name |} in
               save_config (set_gateway config section) ;;
               out (nl ++ CHECK ++ lit " Configuration updated") ;;
               ret section)
              (on_Exception (fun e =>
                 out (CROSS ++ lit " Error creating Gateway: " ++ exn_str e) ;;
                 sys_exit 1))).
Proof.
  apply always_bind_item. intros aws_section _.
  apply always_bind_item. intros role_arn _.
  destruct (no_cognito (cognito config)) eqn:Ecognito.
  - unfold out, sys_exit. static. exact I.
  - cbv zeta. unfold out.
    apply always_bind; [now apply always_emit|intros _].
    apply always_bind; [now apply always_emit|intros _].
    apply always_bind_item. intros client Hclient.
    apply always_bind; [now apply always_emit|intros _].
    apply always_bind_item. intros discovery Hdiscovery.
    assert (Hauth : Some (auth_config client discovery) = authorizer_of config).
    { unfold authorizer_of. destruct (cognito config) as [c|]; [|discriminate].
      now rewrite Hclient, Hdiscovery. }
    unfold save_config, sys_exit.
    static; try exact I; try (split; [exact Hauth|reflexivity]).
    + destruct a2 as [id url]. static; exact I.
    + handled; static; exact I.
Qed.

(** Reading the file, or leaving when it is not there. *)
Lemma load_or_exit_run hint tr :
  try_except load_config (config_missing hint) cloud tr
  = match config_read cloud (calls_so_far is_LoadConfig tr) with
    | Reply config => (Ret config, tr ++ [LoadConfig])
    | Fails (FileNotFoundError m) =>
        (Raise (SystemExit 1),
         tr ++ [LoadConfig; Out (CROSS ++ lit " config.json not found. " ++ hint)])
    | Fails e => (Raise e, tr ++ [LoadConfig])
    end.
Proof.
  unfold try_except, load_config, call.
  destruct (config_read cloud (calls_so_far is_LoadConfig tr)) as [config|e];
    [reflexivity|].
  destruct e; try reflexivity.
  unfold config_missing, out, sys_exit, bind, emit, raise.
  now rewrite <- app_assoc.
Qed.

Lemma gateway_static :
  Forall (static_payload (config_of cloud)) (snd (gateway_script cloud [])).
Proof.
  unfold gateway_script, create_gateway_with_semantic_search, out.
  rewrite !run_bind_emit, run_bind_bind, run_bind, load_or_exit_run.
  set (tr := (([] ++ _) ++ _) ++ _).
  assert (Htr : forall c, Forall (static_payload c) tr) by (intros c; repeat constructor).
  change (calls_so_far is_LoadConfig tr) with 0. unfold config_of.
  destruct (config_read cloud 0) as [config|e]; cbn [fst snd].
  - match goal with
    | |- Forall _ (snd (bind ?m ?k cloud ?tr)) =>
        apply (always_bind (static_payload (Some config)) cloud m k)
    end.
    + apply gateway_static_after_load.
    + intros result. static; exact I.
    + apply Forall_app. split; [apply Htr|]. repeat constructor.
  - destruct e; cbn [fst snd]; apply Forall_app; (split; [apply Htr|]);
      repeat constructor.
Qed.

Lemma target_static config the_gateway created spec :
  In spec targets_to_create ->
  always (static_payload config) cloud (create_target the_gateway created spec).
Proof.
  intros Hspec. unfold create_target, out.
  static; try exact I.
  - split; [|reflexivity].
    apply in_map with (f := fun spec => smithy_config (spec_uri spec)). exact Hspec.
  - handled; static; exact I.
Qed.

Lemma targets_static config the_gateway specs :
  (forall spec, In spec specs -> In spec targets_to_create) ->
  forall created,
    always (static_payload config) cloud (create_targets the_gateway created specs).
Proof.
  induction specs as [|spec specs IH]; intros Hspecs created; simpl.
  - apply always_ret.
  - apply always_bind.
    + apply target_static. apply Hspecs. now left.
    + intros created'. apply IH. intros s Hs. apply Hspecs. now right.
Qed.

Lemma smithy_targets_static config :
  always (static_payload config) cloud smithy_targets_script.
Proof.
  unfold smithy_targets_script, create_all_smithy_targets, load_config, save_config,
    out, sys_exit.
  apply always_bind; [now apply always_emit|intros _].
  apply always_bind; [now apply always_emit|intros _].
  apply always_bind; [now apply always_emit|intros _].
  apply always_bind.
  - apply always_bind.
    + static; try exact I. unfold config_missing in *. handled. unfold out, sys_exit.
      static. exact I.
    + intros config'. apply always_bind_item. intros section _.
      apply always_bind_item. intros the_gateway _.
      do 5 (apply always_bind; [now apply always_emit|intros _]).
      apply always_bind; [now apply targets_static|intros created].
      destruct created; static; exact I.
  - intros results. destruct results as [|target results].
    + static. exact I.
    + do 4 (apply always_bind; [now apply always_emit|intros _]).
      apply always_bind; [now apply always_outs|intros _].
      static; exact I.
Qed.

End Payloads.
End SetupPayloads.

(** ** What the scripts do when a call fails *)

Module SetupFailures.
Import Setup.

Section Failures.
Context {json_lib : JsonLib}.
Variable cloud : Cloud.

Lemma sdk_calls_app a b : sdk_calls (a ++ b) = sdk_calls a ++ sdk_calls b.
Proof. apply filter_app. Qed.

(** One pass of the [for] loop. *)
Lemma create_target_run the_gateway created spec tr :
  create_target the_gateway created spec cloud tr
  = let asked :=
      tr ++ [Out (nl ++ WRENCH ++ lit " Creating: " ++ spec_name spec ++ lit " ("
                  ++ spec_size spec ++ lit ")");
             Out (lit "   URI: " ++ spec_uri spec);
             attempt the_gateway spec] in
    match create_gateway_target cloud (calls_so_far is_CreateGatewayTarget tr) with
    | Reply id =>
        (Ret (created ++ [ {| target_id := id; target_name := spec_name spec;
                              target_uri := spec_uri spec;
                              target_description := spec_description spec |} ]),
         asked ++ [Out (lit "   " ++ CHECK ++ lit " Created: " ++ id); Sleep 2])
    | Fails e =>
        if is_Exception e
        then (Ret created,
              asked ++ [Out (lit "   " ++ CROSS ++ lit " Error: " ++ exn_str e)])
        else (Raise e, asked)
    end.
Proof.
  unfold create_target, try_except, out. rewrite !run_bind_emit, run_bind_call.
  rewrite !calls_so_far_snoc. cbn [is_CreateGatewayTarget]. rewrite !Nat.add_0_r.
  fold (attempt the_gateway spec).
  destruct (create_gateway_target cloud _) as [id|e]; cbv zeta.
  - rewrite !run_bind_emit. unfold ret. now rewrite <- !app_assoc.
  - unfold on_Exception. destruct (is_Exception e).
    + rewrite run_bind_emit. unfold ret. now rewrite <- !app_assoc.
    + now rewrite <- !app_assoc.
Qed.

Lemma out_all_run lines tr :
  out_all lines cloud tr = (Ret tt, tr ++ map Out lines).
Proof.
  revert tr. induction lines as [|l lines IH]; intros tr; simpl.
  - now rewrite app_nil_r.
  - unfold out. rewrite run_bind_emit, IH. now rewrite <- app_assoc.
Qed.

Lemma sdk_calls_outs lines : sdk_calls (map Out lines) = [].
Proof. induction lines as [|l lines IH]; [reflexivity|exact IH]. Qed.


(** Running a script call by call. *)
Ltac go := repeat first [ rewrite run_bind_bind
                        | rewrite run_bind_emit
                        | rewrite run_bind_ret ].

(** The number of earlier calls of the kind, worked out. *)
Ltac count oracle :=
  match goal with
  | |- context [oracle cloud (calls_so_far ?kind ?tr)] =>
      let n := eval vm_compute in (calls_so_far kind tr) in
      change (calls_so_far kind tr) with n
  end.

Ltac next_target H :=
  rewrite run_bind, create_target_run; cbv zeta;
  count create_gateway_target;
  match goal with
  | |- context [create_gateway_target cloud ?i] =>
      destruct (create_gateway_target cloud i) as [?id|?e];
      [|cbn in H; rewrite H]
  end;
  cbn [fst snd]; go.

Lemma targets_script_run config section the_gateway :
  config_read cloud 0 = Reply config ->
  gateway config = Some section ->
  gateway_id section = Some the_gateway ->
  soft (create_gateway_target cloud 0) ->
  soft (create_gateway_target cloud 1) ->
  soft (create_gateway_target cloud 2) ->
  config_write cloud 0 = Reply tt ->
  outcome (map (attempt the_gateway) targets_to_create)
          (if is_failure (create_gateway_target cloud 0)
              && is_failure (create_gateway_target cloud 1)
              && is_failure (create_gateway_target cloud 2)
           then 1 else 0)
          (smithy_targets_script cloud []).
Proof.
  intros Hread Hsection Hid H0 H1 H2 Hwrite.
  unfold smithy_targets_script, create_all_smithy_targets, out.
  go. rewrite run_bind, SetupPayloads.load_or_exit_run.
  count config_read. rewrite Hread. cbn [fst snd].
  rewrite Hsection. unfold item at 1. go.
  rewrite Hid. unfold item at 1. go.
  unfold targets_to_create at 2. cbn [create_targets]. go.
  next_target H0; next_target H1; next_target H2;
    cbn [app]; unfold save_config, sys_exit; go;
    try (rewrite run_bind_call; count config_write; rewrite Hwrite; go);
    try (rewrite run_bind, out_all_run; cbn [fst snd map]; go);
    (split; [vm_compute; reflexivity|reflexivity]).
Qed.


Lemma run_bind_try {A B} (m : Script A) handlers (k : A -> Script B) tr :
  bind (try_except m handlers) k cloud tr
  = match m cloud tr with
    | (Ret a, tr') => k a cloud tr'
    | (Raise e, tr') =>
        match handlers e with
        | Some handler => bind handler k cloud tr'
        | None => (Raise e, tr')
        end
    | (Unfinished, tr') => (Unfinished, tr')
    end.
Proof.
  unfold bind, try_except. destruct (m cloud tr) as [[a|e|] tr']; try reflexivity.
  now destruct (handlers e).
Qed.

Lemma role_failure_run e :
  create_role cloud 0 = Fails e ->
  is_Exception e = true ->
  (forall m, e <> EntityAlreadyExistsException m) ->
  gave_up [role_request] (CROSS ++ lit " Error creating role: " ++ exn_str e)
          (iam_role_script cloud []).
Proof.
  intros Hrole Hcaught Hother.
  unfold iam_role_script, create_gateway_role, out. go.
  rewrite run_bind_try, run_bind_call.
  count create_role. rewrite Hrole.
  destruct e; try discriminate Hcaught; try (now elim (Hother msg));
    unfold on_Exception, sys_exit; cbn [is_Exception]; go;
    (split; [split|]; vm_compute; reflexivity).
Qed.

Lemma role_exists_run m account :
  create_role cloud 0 = Fails (EntityAlreadyExistsException m) ->
  caller_identity cloud 0 = Reply account ->
  put_role_policy cloud 0 = Reply tt ->
  outcome [role_request; GetCallerIdentity; policy_request] 0
          (iam_role_script cloud []).
Proof.
  intros Hrole Haccount Hpolicy.
  unfold iam_role_script, create_gateway_role, out. go.
  rewrite run_bind_try, run_bind_call.
  count create_role. rewrite Hrole.
  unfold get_account, put_permissions. go.
  rewrite !run_bind_call. count caller_identity. rewrite Haccount. go.
  rewrite !run_bind_call. count put_role_policy. rewrite Hpolicy. go.
  split; vm_compute; reflexivity.
Qed.

Lemma gateway_failure_run config section role c client discovery e :
  config_read cloud 0 = Reply config ->
  aws config = Some section ->
  gateway_role_arn section = Some role ->
  cognito config = Some c ->
  client_id c = Some client ->
  discovery_url c = Some discovery ->
  create_gateway cloud 0 = Fails e ->
  is_Exception e = true ->
  gave_up [gateway_request role client discovery]
          (CROSS ++ lit " Error creating Gateway: " ++ exn_str e)
          (gateway_script cloud []).
Proof.
  intros Hread Haws Hrole Hcognito Hclient Hdiscovery Hgateway Hcaught.
  unfold gateway_script, create_gateway_with_semantic_search, out. go.
  rewrite run_bind, SetupPayloads.load_or_exit_run.
  count config_read. rewrite Hread. cbn [fst snd].
  rewrite Haws. unfold item at 1. go.
  rewrite Hrole. unfold item at 1. go.
  rewrite Hcognito. unfold no_cognito. rewrite Hclient. cbv iota. go.
  unfold item at 1. go. rewrite Hdiscovery. unfold item at 1. go.
  rewrite run_bind_try. go.
  rewrite run_bind_call. count create_gateway. rewrite Hgateway.
  unfold on_Exception, sys_exit. rewrite Hcaught. go.
  split; [split|]; vm_compute; reflexivity.
Qed.

End Failures.
End SetupFailures.

(** ** The claims on the provisioning scripts *)

Module SetupClaims.
Import Setup.




(** C9.  In every run of the three scripts, whatever the control plane
    answers: the role is asked for with the trust policy and its policy
    is put with the permissions policy, both as written in the script,
    in the branch that creates the role as in the branch that finds it;
    the gateway is asked for with the authorizer made of the client id
    and the discovery URL of [config.json] and with the fixed protocol
    configuration; a target is asked for with the configuration of one of
    the three fixed models and the fixed credential configuration. *)
Theorem payloads_are_static {json_lib : JsonLib} (cloud : Cloud) :
  Forall (static_payload (config_of cloud)) (snd (iam_role_script cloud []))
  /\ Forall (static_payload (config_of cloud)) (snd (gateway_script cloud []))
  /\ Forall (static_payload (config_of cloud))
            (snd (smithy_targets_script cloud [])).
Proof.
  split; [|split].
  - apply SetupPayloads.iam_role_static. constructor.
  - apply SetupPayloads.gateway_static.
  - apply SetupPayloads.smithy_targets_static. constructor.
Qed.

End SetupClaims.

(* ===================================================================== *)
(** * Part III: more properties of the code                               *)
(* ===================================================================== *)

(** ** The two pagination loops *)

Module Loops.
Import AgentPy RuntimeAgent Pagination.

(** The loop of [agent.py], led by its flag, and the loop of
    [runtime_agent.py], left by [break], from the same state. *)
Lemma loops_agree fuel :
  forall client client' tools tok env tr,
    get_full_tools_list_while fuel client true tools tok env tr
    = get_tools_while fuel client' tools tok env tr.
Proof.
  induction fuel as [|fuel IH]; intros client client' tools tok env tr;
    [reflexivity|].
  simpl. unfold bind. rewrite !list_tools_sync_run.
  destruct (gateway env (calls_so_far is_ListTools tr)) as [page|e];
    [|reflexivity].
  destruct (pagination_token page) as [next|].
  - apply IH.
  - now destruct fuel.
Qed.

(** The loop of [agent.py] when the call for page [n] fails. *)
Lemma agent_loop_fails client env n :
  forall fuel pg tools tok tr e,
    (forall i, i < n ->
       gateway env (calls_so_far is_ListTools tr + i) = Reply (pg i)) ->
    (forall i, i < n -> pagination_token (pg i) <> None) ->
    gateway env (calls_so_far is_ListTools tr + n) = Fails e ->
    n < fuel ->
    get_full_tools_list_while fuel client true tools tok env tr
    = (Raise e, tr ++ expected_calls tok pg n).
Proof.
  induction n as [|n IH]; intros fuel pg tools tok tr e Hpg Hsome Hfail Hfuel;
    (destruct fuel as [|fuel]; [lia|]); simpl;
    unfold bind; rewrite list_tools_sync_run.
  - rewrite Nat.add_0_r in Hfail. now rewrite Hfail.
  - generalize (Hpg 0 ltac:(lia)); rewrite Nat.add_0_r; intros ->.
    destruct (pagination_token (pg 0)) as [next|] eqn:E0;
      [|exfalso; apply (Hsome 0); [lia|exact E0]].
    rewrite (IH fuel (fun i => pg (S i)) _ _ _ e); try lia.
    + rewrite expected_calls_S, E0, <- !app_assoc. reflexivity.
    + intros i Hi. rewrite calls_so_far_snoc. simpl.
      rewrite <- (Hpg (S i)) by lia. f_equal. lia.
    + intros i Hi. apply Hsome. lia.
    + rewrite calls_so_far_snoc. simpl. rewrite <- Hfail. f_equal. lia.
Qed.

End Loops.

Module LoopFacts.
Import AgentPy RuntimeAgent Pagination.

(** X1.  The [while more_tools] loop of [get_full_tools_list] and the
    [while True] loop of [get_tools] are one loop: from the same tools
    collected so far and the same token, against the same gateway, they
    make the same calls and end in the same way, whether the gateway
    answers, fails or never stops announcing pages. *)
Theorem both_loops_are_one (fuel : nat) (client client' : MCPClient)
        (tools : list MCPAgentTool) (tok : option str) (env : Env)
        (tr : list event) :
  get_full_tools_list_while fuel client true tools tok env tr
  = get_tools_while fuel client' tools tok env tr.
Proof. apply Loops.loops_agree. Qed.

(** X2.  When the gateway answers [n] calls of a loop with pages that
    announce a next page and fails on the call after them, the loop ends
    with the exception of that call, after exactly these [n + 1] calls:
    the tools of the pages received are not returned. *)
Theorem a_failed_page_fails_the_listing (client : MCPClient) (env : Env)
        (tr : list event) (n : nat) (pg : nat -> PaginatedList) (e : exn)
        (fuel : nat) :
  (forall i, i < n ->
     gateway env (calls_so_far is_ListTools tr + i) = Reply (pg i)) ->
  (forall i, i < n -> pagination_token (pg i) <> None) ->
  gateway env (calls_so_far is_ListTools tr + n) = Fails e ->
  n < fuel ->
  get_full_tools_list fuel client env tr
  = (Raise e,
     tr ++ map ListTools
             (None :: map (fun i => pagination_token (pg i)) (seq 0 n)))
  /\ get_tools_while fuel client [] None env tr
     = (Raise e,
        tr ++ map ListTools
                (None :: map (fun i => pagination_token (pg i)) (seq 0 n))).
Proof.
  intros Hpg Hsome Hfail Hfuel.
  assert (H : get_full_tools_list fuel client env tr
              = (Raise e, tr ++ expected_calls None pg n)).
  { apply Loops.agent_loop_fails; assumption. }
  split; [exact H|].
  rewrite <- (Loops.loops_agree fuel client client). exact H.
Qed.

Lemma a_failed_page_fails_the_listing_witness :
  get_full_tools_list 5 Sample.some_client Sample2.broken_env []
  = (Raise Sample2.timeout, [ListTools None; ListTools (Some (lit "page-2"))])
  /\ get_tools_while 5 Sample.some_client [] None Sample2.broken_env []
     = (Raise Sample2.timeout, [ListTools None; ListTools (Some (lit "page-2"))]).
Proof.
  apply (a_failed_page_fails_the_listing Sample.some_client Sample2.broken_env []
           1 (fun _ => Sample.first_page) Sample2.timeout 5).
  - intros i Hi. destruct i as [|i]; [reflexivity|lia].
  - intros i Hi. discriminate.
  - reflexivity.
  - lia.
Defined.

End LoopFacts.

(** ** How [main] ends *)

Module MainFacts.
Import AgentPy Pagination.

Section Ends.
Context {casing : Casing}.
Variable env : Env.
Variable config : Config.
Variable prompt_text : str.

(** X3.  When the token and the transport are obtained and the listing
    of the tools fails with an [Exception], [main] closes the transport,
    prints that the agent could not be initialized, with the text of the
    exception, and returns: no memory is looked up, no agent is made and
    no input is read. *)
Theorem a_failed_listing_ends_main (fuel : nat) (access_token : str)
        (n : nat) (pg : nat -> PaginatedList) (e : exn) :
  token_endpoint env 0 = Reply access_token ->
  transport env 0 = Reply tt ->
  (forall i, i < n -> gateway env i = Reply (pg i)) ->
  (forall i, i < n -> pagination_token (pg i) <> None) ->
  gateway env n = Fails e ->
  is_Exception e = true ->
  n < fuel ->
  main config prompt_text fuel env []
  = (Ret tt,
     Talk.opening_calls config access_token
     ++ map ListTools (None :: map (fun i => pagination_token (pg i)) (seq 0 n))
     ++ [ TransportClose;
          Print (CROSS ++ lit " Failed to initialize agent: " ++ exn_str e) ]).
Proof.
  intros Htok Htransport Hpg Hsome Hfail Hcaught Hfuel.
  assert (H : create_resource_optimizer_agent config prompt_text fuel env []
              = (Raise e,
                 Talk.opening_calls config access_token
                 ++ expected_calls None pg n ++ [TransportClose])).
  { unfold create_resource_optimizer_agent, print, fetch_access_token,
      post_for_token.
    rewrite !run_bind_emit, run_bind_call.
    change (calls_so_far is_HttpPost _) with 0. rewrite Htok.
    rewrite !run_bind_emit. cbv zeta.
    unfold with_client. cbn [transport_callable].
    unfold create_streamable_http_transport at 1, streamablehttp_client.
    rewrite run_bind_call.
    change (calls_so_far is_TransportOpen _) with 0. rewrite Htransport.
    unfold finally. rewrite run_bind. unfold get_full_tools_list.
    rewrite (Loops.agent_loop_fails _ env n fuel pg [] None _ e);
      [|assumption..].
    cbn [fst snd]. unfold emit, Talk.opening_calls.
    rewrite <- !app_assoc. reflexivity. }
  unfold main, try_except, bind. rewrite H.
  unfold on_Exception. rewrite Hcaught.
  unfold print, emit, expected_calls. rewrite <- !app_assoc. reflexivity.
Qed.

(** X4.  [main] lets no [Exception] out: whatever the services answer,
    if it ends with an exception, that exception is none that
    [except Exception] catches (it is an interrupt or an exit). *)
Theorem main_lets_no_Exception_out (fuel : nat) (tr : list event) (e : exn) :
  fst (main config prompt_text fuel env tr) = Raise e ->
  is_Exception e = false.
Proof.
  unfold main, try_except.
  destruct (bind _ _ env tr) as [[[]|e0|] tr']; cbn [fst]; try discriminate.
  unfold on_Exception. destruct (is_Exception e0) eqn:E0.
  - discriminate.
  - intros [= <-]. exact E0.
Qed.

End Ends.

Lemma a_failed_listing_ends_main_witness :
  @main ascii_casing Sample.config [] 5 Sample2.broken_env []
  = (Ret tt,
     Talk.opening_calls Sample.config (lit "token-0")
     ++ [ListTools None; ListTools (Some (lit "page-2"))]
     ++ [ TransportClose;
          Print (CROSS ++ lit " Failed to initialize agent: gateway timeout") ]).
Proof.
  apply (@a_failed_listing_ends_main ascii_casing Sample2.broken_env Sample.config []
           5 (lit "token-0") 1 (fun _ => Sample.first_page) Sample2.timeout).
  - reflexivity.
  - reflexivity.
  - intros i Hi. destruct i as [|i]; [reflexivity|lia].
  - intros i Hi. discriminate.
  - reflexivity.
  - reflexivity.
  - lia.
Defined.

Lemma main_lets_no_Exception_out_witness :
  is_Exception KeyboardInterrupt = false.
Proof.
  apply (@main_lets_no_Exception_out ascii_casing Sample2.interrupted_env
           Sample.config [] 3 [] KeyboardInterrupt).
  reflexivity.
Defined.

End MainFacts.

(** ** The conversation *)

Module Conversation.
Import AgentPy Talk.

Lemma no_such_print kind (prints : list event) :
  (forall line, kind (Print line) = false) ->
  forallb is_Print prints = true ->
  filter kind prints = [].
Proof.
  intros Hkind. induction prints as [|e prints IH]; [reflexivity|].
  simpl. intros H. apply andb_prop in H. destruct H as [He Hrest].
  destruct e; try discriminate He. rewrite Hkind. now apply IH.
Qed.

Section Loop.
Context {casing : Casing}.
Variable agent : Agent.
Variable env : Env.

(** The lines an iteration has printed, read off its run. *)
Ltac printed :=
  eexists;
  (split; [|unfold bind, print, emit, ret; rewrite <- ?app_assoc; reflexivity]);
  reflexivity.

(** An iteration in which a line is read. *)
Lemma iteration_on_a_line tr line :
  stdin env (calls_so_far is_Input tr) = Reply line ->
  (forall e, model env (calls_so_far is_Invoke tr) = Fails e ->
             is_Exception e = true /\ e <> EOFError) ->
  exists prints,
    forallb is_Print prints = true
    /\ iteration agent env tr
       = if is_exit line then (Ret Break, tr ++ ask :: prints)
         else if is_blank line then (Ret Continue, tr ++ [ask])
              else (Ret Continue, tr ++ ask :: Invoke line :: prints).
Proof.
  intros Hin Hsoft. unfold iteration, try_except.
  rewrite run_bind_call, Hin. fold ask. unfold is_exit, is_blank.
  destruct (str_eqb (lower line) (lit "exit")); [printed|].
  destruct (truthy (strip line)); cbn [negb];
    [|exists []; split; reflexivity].
  rewrite run_bind_call, calls_so_far_snoc. cbn [is_Invoke ask].
  rewrite Nat.add_0_r.
  destruct (model env (calls_so_far is_Invoke tr)) as [response|e] eqn:Emodel.
  - unfold show_response. destruct response as [r|m shown]; [|printed].
    destruct (contains (lit "rate limit") (lower (Re.cleaned_response r))
              || contains (lit "throttl") (lower (Re.cleaned_response r)));
      [printed|].
    destruct (truthy (Re.cleaned_response r)); printed.
  - destruct (Hsoft e eq_refl) as [Hcaught Hother].
    destruct e; try discriminate Hcaught; try (now elim Hother);
      unfold on_Exception; cbn [is_Exception];
      destruct (contains (lit "rate limit") (lower (exn_str _))); printed.
Qed.

(** An iteration in which the input has ended. *)
Lemma iteration_at_the_end tr :
  stdin env (calls_so_far is_Input tr) = Fails EOFError ->
  iteration agent env tr
  = (Ret Break, tr ++ [ask; Print (nl ++ nl ++ lit "Input stream ended.")]).
Proof.
  intros Hin. unfold iteration, try_except. rewrite run_bind_call, Hin.
  unfold bind, print, emit, ret. now rewrite <- app_assoc.
Qed.

Lemma loop_on_lines lines :
  forall fuel tr,
    (forall i line, nth_error lines i = Some line ->
                    stdin env (calls_so_far is_Input tr + i) = Reply line) ->
    stdin env (calls_so_far is_Input tr + length lines) = Fails EOFError ->
    (forall i e, model env i = Fails e -> is_Exception e = true /\ e <> EOFError) ->
    length lines < fuel ->
    fst (interactive_loop fuel agent env tr) = Ret tt
    /\ filter is_Invoke (snd (interactive_loop fuel agent env tr))
       = filter is_Invoke tr ++ map Invoke (asked lines).
Proof.
  induction lines as [|line rest IH]; intros fuel tr Hlines Hend Hsoft Hfuel;
    (destruct fuel as [|fuel]; [simpl in Hfuel; lia|]);
    cbn [interactive_loop]; rewrite run_bind.
  - simpl in Hend. rewrite Nat.add_0_r in Hend.
    rewrite (iteration_at_the_end tr Hend). cbn [fst snd]. split; [reflexivity|].
    unfold ret. cbn [snd]. rewrite filter_app. reflexivity.
  - destruct (iteration_on_a_line tr line) as (prints & Hprints & E).
    { rewrite <- (Hlines 0 line eq_refl). f_equal. lia. }
    { intros e. apply Hsoft. }
    rewrite E. unfold asked. cbn [until_exit].
    destruct (is_exit line); cbn [fst snd].
    + split; [reflexivity|].
      unfold ret. cbn [snd]. rewrite filter_app. cbn [filter is_Invoke ask].
      now rewrite (no_such_print is_Invoke prints).
    + assert (Hnext : forall tr',
                calls_so_far is_Input tr' = S (calls_so_far is_Input tr) ->
                fst (interactive_loop fuel agent env tr') = Ret tt
                /\ filter is_Invoke (snd (interactive_loop fuel agent env tr'))
                   = filter is_Invoke tr' ++ map Invoke (asked rest)).
      { intros tr' Hcount. apply IH.
        - intros i l Hl. rewrite Hcount.
          rewrite <- (Hlines (S i) l Hl). f_equal. lia.
        - rewrite Hcount. rewrite <- Hend. simpl. f_equal. lia.
        - exact Hsoft.
        - simpl in Hfuel. lia. }
      cbn [filter]. destruct (is_blank line); cbn [negb fst snd].
      * destruct (Hnext (tr ++ [ask])) as [Hret Hcalls].
        { rewrite calls_so_far_snoc. simpl. lia. }
        split; [exact Hret|]. rewrite Hcalls, filter_app. simpl.
        now rewrite app_nil_r.
      * destruct (Hnext (tr ++ ask :: Invoke line :: prints)) as [Hret Hcalls].
        { unfold calls_so_far. rewrite filter_app, length_app.
          cbn [filter is_Input ask].
          rewrite (no_such_print is_Input prints);
            [simpl; lia|reflexivity|exact Hprints]. }
        split; [exact Hret|]. rewrite Hcalls, filter_app.
        cbn [filter is_Invoke ask map].
        rewrite (no_such_print is_Invoke prints); [|reflexivity|exact Hprints].
        now rewrite <- app_assoc.
Qed.

End Loop.
End Conversation.

(** ** Calls that satisfy a condition, in the programs of [agent.py] *)

Section AlwaysMore.
Context {E Ev : Type}.
Variable P : Ev -> Prop.
Variable env : E.

Lemma always_finally {A} (m : @M E Ev A) cleanup :
  always P env m -> always P env cleanup -> always P env (finally m cleanup).
Proof.
  intros Hm Hc tr H. unfold finally. specialize (Hm tr H).
  destruct (m env tr) as [[a|e|] tr']; cbn [snd] in *; [| |exact Hm];
    specialize (Hc tr' Hm);
    destruct (cleanup env tr') as [[[]|e'|] tr'']; exact Hc.
Qed.

Lemma always_unfinished {A} : always P env (@unfinished E Ev A).
Proof. intros tr H. exact H. Qed.

(** The same for a program of which every result satisfies [Q]. *)
Lemma always_bind_with {A B} (Q : A -> Prop) (m : @M E Ev A)
      (k : A -> @M E Ev B) :
  always P env m ->
  (forall tr a, fst (m env tr) = Ret a -> Q a) ->
  (forall a, Q a -> always P env (k a)) ->
  always P env (bind m k).
Proof.
  intros Hm HQ Hk tr H. rewrite run_bind. specialize (Hm tr H).
  destruct (fst (m env tr)) as [a|e|] eqn:Efst; [|exact Hm|exact Hm].
  now apply (Hk a (HQ tr a Efst)).
Qed.

Lemma bind_Ret_inv {A B} (m : @M E Ev A) (k : A -> @M E Ev B) tr b :
  fst (bind m k env tr) = Ret b ->
  exists a, fst (m env tr) = Ret a /\ fst (k a env (snd (m env tr))) = Ret b.
Proof.
  rewrite run_bind. destruct (fst (m env tr)) as [a|e|]; try discriminate.
  intros H. now exists a.
Qed.

Lemma finally_Ret_inv {A} (m : @M E Ev A) cleanup tr a :
  fst (finally m cleanup env tr) = Ret a -> fst (m env tr) = Ret a.
Proof.
  unfold finally. destruct (m env tr) as [[a'|e|] tr']; cbn [fst];
    try discriminate;
    destruct (cleanup env tr') as [[[]|e'|] tr'']; cbn [fst];
    try discriminate; auto.
Qed.

End AlwaysMore.

Module Prompts.
Import AgentPy Talk.

Section Prompts.
Context {casing : Casing}.
Variable env : Env.
Variable config : Config.
Variable prompt_text : str.

#[local] Abbreviation fit := (always fit_to_ask env).

Ltac fit_step :=
  first [ apply always_ret
        | apply always_raise
        | apply always_emit; exact I
        | apply always_call; exact I
        | apply always_finally
        | apply always_bind; [|intros ?]
        | apply always_try_except; [|intros ? ? ?] ].

Lemma listing_fit fuel client :
  forall more tools tok, fit (get_full_tools_list_while fuel client more tools tok).
Proof.
  induction fuel as [|fuel IH]; intros [|] tools tok; simpl;
    try apply always_ret; try apply always_unfinished.
  unfold list_tools_sync.
  apply always_bind; [apply always_call; exact I|intros page].
  destruct (World.pagination_token page); apply IH.
Qed.

Lemma memory_fit : fit create_or_get_memory.
Proof.
  unfold create_or_get_memory.
  apply always_try_except.
  - apply always_bind; [apply always_call; exact I|intros ids].
    destruct (find _ ids); repeat fit_step.
  - intros e h Hh. apply (always_on_Exception fit_to_ask env _ e h) in Hh; [exact Hh|].
    intros e'. repeat fit_step.
Qed.

Lemma with_client_fit {A} client (body : Prog A) :
  fit (transport_callable client) -> fit body -> fit (with_client client body).
Proof.
  intros Hc Hb. unfold with_client.
  apply always_bind; [exact Hc|intros _].
  apply always_finally; [exact Hb|apply always_emit; exact I].
Qed.

Lemma transport_fit url token : fit (create_streamable_http_transport url token).
Proof. apply always_call. exact I. Qed.

Lemma create_fit fuel :
  fit (create_resource_optimizer_agent config prompt_text fuel).
Proof.
  unfold create_resource_optimizer_agent, print, fetch_access_token,
    post_for_token.
  do 4 (apply always_bind; [apply always_emit; exact I|intros _]).
  apply always_bind; [apply always_call; exact I|intros access_token].
  do 2 (apply always_bind; [apply always_emit; exact I|intros _]).
  cbv zeta. apply with_client_fit; [apply transport_fit|].
  apply always_bind; [apply listing_fit|intros all_tools].
  do 2 (apply always_bind; [apply always_emit; exact I|intros _]).
  apply always_bind; [apply memory_fit|intros memory_id].
  unfold new_Agent. repeat fit_step.
Qed.

Lemma show_fit response : fit (show_response response).
Proof.
  unfold show_response, print. destruct response as [r|m shown].
  - destruct (_ || _); [repeat fit_step|].
    destruct (truthy _); repeat fit_step.
  - repeat fit_step.
Qed.

Lemma iteration_fit agent : fit (iteration agent).
Proof.
  unfold iteration, print. apply always_try_except.
  - apply always_bind; [apply always_call; exact I|intros user_input].
    destruct (str_eqb (lower user_input) (lit "exit")) eqn:Eexit;
      [repeat fit_step|].
    destruct (truthy (strip user_input)) eqn:Eblank; cbn [negb];
      [|apply always_ret].
    apply always_bind.
    + apply always_call. split; [exact Eexit|].
      unfold is_blank. now rewrite Eblank.
    + intros response.
      apply always_bind; [apply show_fit|intros _; apply always_ret].
  - intros e h Hh.
    destruct e; cbn [on_Exception is_Exception] in Hh; try discriminate Hh;
      injection Hh as <-; repeat fit_step;
      destruct (contains _ _); repeat fit_step.
Qed.

Lemma loop_fit agent fuel : fit (interactive_loop fuel agent).
Proof.
  induction fuel as [|fuel IH]; simpl; [apply always_unfinished|].
  apply always_bind; [apply iteration_fit|intros [|]];
    [apply always_ret|exact IH].
Qed.

Lemma print_all_fit lines : fit (print_all lines).
Proof.
  induction lines as [|l lines IH]; simpl; [apply always_ret|].
  apply always_bind; [apply always_emit; exact I|intros _; exact IH].
Qed.

(** The client that the set-up returns opens its transport with
    [create_streamable_http_transport]. *)
Lemma create_returns_its_client fuel tr agent client memory_id :
  fst (create_resource_optimizer_agent config prompt_text fuel env tr)
  = Ret (agent, client, memory_id) ->
  exists access_token,
    client = {| transport_callable :=
                  create_streamable_http_transport (GATEWAY_URL config)
                                                   access_token |}.
Proof.
  unfold create_resource_optimizer_agent. intros H.
  do 4 (apply bind_Ret_inv in H; destruct H as (_ & _ & H)).
  apply bind_Ret_inv in H. destruct H as (access_token & _ & H).
  do 2 (apply bind_Ret_inv in H; destruct H as (_ & _ & H)).
  cbv zeta in H. unfold with_client in H.
  apply bind_Ret_inv in H. destruct H as (_ & _ & H).
  apply finally_Ret_inv in H.
  apply bind_Ret_inv in H. destruct H as (all_tools & _ & H).
  do 2 (apply bind_Ret_inv in H; destruct H as (_ & _ & H)).
  apply bind_Ret_inv in H. destruct H as (id & _ & H).
  apply bind_Ret_inv in H. destruct H as (_ & _ & H).
  apply bind_Ret_inv in H. destruct H as (agent' & _ & H).
  injection H as _ <- _. now exists access_token.
Qed.

Lemma main_fit fuel : fit (main config prompt_text fuel).
Proof.
  unfold main, print. apply always_try_except.
  - apply (always_bind_with _ _
             (fun r => exists access_token,
                snd (fst r)
                = {| transport_callable :=
                       create_streamable_http_transport (GATEWAY_URL config)
                                                        access_token |})).
    + apply create_fit.
    + intros tr [[agent client] memory_id] H. cbn [fst snd].
      exact (create_returns_its_client fuel tr agent client memory_id H).
    + intros [[agent client] memory_id] [access_token Hclient].
      cbn [fst snd] in Hclient. subst client.
      apply always_bind; [apply print_all_fit|intros _].
      apply with_client_fit; [apply transport_fit|apply loop_fit].
  - intros e h Hh. apply (always_on_Exception fit_to_ask env _ e h) in Hh; [exact Hh|].
    intros e'. repeat fit_step.
Qed.

End Prompts.
End Prompts.

Module ConversationFacts.
Import AgentPy Talk.

(** X5.  When the lines of [lines] are typed one after the other and the
    input then ends, and the model, each time it is called, answers or
    raises an [Exception] other than [EOFError], the interactive loop
    ends, and the model has been called once for each line typed before
    the first [exit] that is not blank, with that line as it was typed,
    in the order typed. *)
Theorem the_model_gets_the_lines_typed {casing : Casing} (agent : Agent)
        (env : Env) (tr : list event) (lines : list str) (fuel : nat) :
  (forall i line, nth_error lines i = Some line ->
                  stdin env (calls_so_far is_Input tr + i) = Reply line) ->
  stdin env (calls_so_far is_Input tr + length lines) = Fails EOFError ->
  (forall i e, model env i = Fails e -> is_Exception e = true /\ e <> EOFError) ->
  length lines < fuel ->
  fst (interactive_loop fuel agent env tr) = Ret tt
  /\ filter is_Invoke (snd (interactive_loop fuel agent env tr))
     = filter is_Invoke tr ++ map Invoke (asked lines).
Proof. apply Conversation.loop_on_lines. Qed.

Lemma the_model_gets_the_lines_typed_witness :
  fst (@interactive_loop ascii_casing 4 Sample2.plain_agent Sample2.typing_env [])
  = Ret tt
  /\ filter is_Invoke
       (snd (@interactive_loop ascii_casing 4 Sample2.plain_agent
               Sample2.typing_env []))
     = [Invoke Sample.question; Invoke (lit "And my volumes?")].
Proof.
  apply (@the_model_gets_the_lines_typed ascii_casing Sample2.plain_agent
           Sample2.typing_env [] Sample2.typed 4).
  - intros i line H. simpl. unfold Sample2.typing. now rewrite H.
  - reflexivity.
  - intros i e H. destruct i as [|i]; [|discriminate H].
    injection H as <-. split; [reflexivity|discriminate].
  - simpl. lia.
Defined.

(** X6.  In every run of [main], whatever the services answer, the model
    is never called with a blank line nor with a line that says [exit]
    in any letter case. *)
Theorem the_model_is_never_asked_nothing {casing : Casing} (env : Env)
        (config : Config) (prompt_text : str) (fuel : nat) :
  Forall fit_to_ask (snd (main config prompt_text fuel env [])).
Proof. apply Prompts.main_fit. constructor. Qed.

End ConversationFacts.

(** ** What cleaning a response leaves *)

Module Cleaning.
Import Re TextFacts UnclosedTag Talk.

Lemma subsequence_refl {A} (s : list A) : subsequence s s.
Proof. induction s; constructor; assumption. Qed.

Lemma subsequence_trans {A} (s t u : list A) :
  subsequence s t -> subsequence t u -> subsequence s u.
Proof.
  intros Hst Htu. revert s Hst.
  induction Htu as [|a t u Htu IH|a t u Htu IH]; intros s Hst.
  - exact Hst.
  - inversion Hst; subst.
    + constructor. now apply IH.
    + apply subsequence_drop. now apply IH.
  - apply subsequence_drop. now apply IH.
Qed.

Lemma subsequence_suffix {A} (ws s : list A) : subsequence s (ws ++ s).
Proof.
  induction ws as [|a ws IH]; simpl.
  - apply subsequence_refl.
  - apply subsequence_drop, IH.
Qed.

Lemma subsequence_nil_l {A} (s : list A) : subsequence [] s.
Proof. induction s; constructor; assumption. Qed.

Lemma subsequence_prefix {A} (s ws : list A) : subsequence s (s ++ ws).
Proof.
  induction s as [|a s IH]; simpl.
  - apply subsequence_nil_l.
  - apply subsequence_keep, IH.
Qed.

Lemma subsequence_length {A} (s t : list A) :
  subsequence s t -> length s <= length t.
Proof. induction 1; simpl; lia. Qed.

Lemma strip_subsequence s : subsequence (strip s) s.
Proof.
  unfold strip.
  destruct (rstrip_prefix (lstrip s)) as [ws Hws].
  destruct (lstrip_suffix s) as [ws' Hws'].
  apply subsequence_trans with (lstrip s).
  - rewrite Hws at 2. apply subsequence_prefix.
  - rewrite Hws' at 2. apply subsequence_suffix.
Qed.

Lemma strip_strip s : strip (strip s) = strip s.
Proof.
  unfold strip at 2. rewrite strip_rstrip.
  unfold strip. now rewrite lstrip_idempotent.
Qed.

Section Tags.
Context {casing : Casing}.

Lemma re_sub_blocks_subsequence s :
  forall inside, subsequence (re_sub_blocks_from inside s) s.
Proof.
  induction s as [|c s IH]; intros inside; [constructor|].
  cbn [re_sub_blocks_from]. destruct inside as [|k].
  - destruct (match_block (c :: s)) as [rest|].
    + apply subsequence_drop, IH.
    + apply subsequence_keep, IH.
  - apply subsequence_drop, IH.
Qed.

Lemma re_sub_unclosed_subsequence s : subsequence (re_sub_unclosed s) s.
Proof.
  destruct (re_sub_unclosed_prefix s) as [t Ht].
  rewrite Ht at 2. apply subsequence_prefix.
Qed.

Lemma cleaned_subsequence response :
  subsequence (cleaned_response response) response.
Proof.
  unfold cleaned_response.
  apply subsequence_trans with (re_sub_unclosed (re_sub_blocks response));
    [apply strip_subsequence|].
  apply subsequence_trans with (re_sub_blocks response);
    [apply re_sub_unclosed_subsequence|].
  apply re_sub_blocks_subsequence.
Qed.

Lemma cleaned_has_no_open response : has_open (cleaned_response response) = false.
Proof. apply no_open_strip, no_open_re_sub_unclosed. Qed.

End Tags.
End Cleaning.

Module CleaningFacts.
Import Re Talk.

(** X7.  Cleaning a response a second time changes nothing: what
    [main] derives from a string response has no thinking left in it and
    no white space around it, under any case tables. *)
Theorem cleaning_twice_is_cleaning_once {casing : Casing} (response : str) :
  cleaned_response (cleaned_response response) = cleaned_response response.
Proof.
  pose proof (Cleaning.cleaned_has_no_open response) as H.
  unfold cleaned_response at 1.
  rewrite (TextFacts.re_sub_blocks_id _ H), (TextFacts.re_sub_unclosed_id _ H).
  unfold cleaned_response. apply Cleaning.strip_strip.
Qed.

(** X8.  Cleaning only takes characters away: the cleaned text is the
    response with some of its characters left out, the others in their
    order; so it is never longer than the response, and no character is
    added or changed. *)
Theorem cleaning_only_leaves_out {casing : Casing} (response : str) :
  subsequence (cleaned_response response) response
  /\ length (cleaned_response response) <= length response.
Proof.
  split; [apply Cleaning.cleaned_subsequence|].
  apply Cleaning.subsequence_length, Cleaning.cleaned_subsequence.
Qed.

End CleaningFacts.

(** ** The hooks, the memory and a request to the runtime *)

Module Hooks.
Import AgentPy.

Section Caught.
Context {E Ev : Type}.

(** A [try] whose only clause is [except Exception] and whose clause
    raises nothing lets no [Exception] out. *)
Lemma try_except_catches {A} (m : @M E Ev A) (h : exn -> @M E Ev A) env tr e :
  (forall e0 tr0 e1, fst (h e0 env tr0) = Raise e1 -> is_Exception e1 = false) ->
  fst (try_except m (on_Exception h) env tr) = Raise e ->
  is_Exception e = false.
Proof.
  intros Hh. unfold try_except.
  destruct (m env tr) as [[a|e0|] tr']; cbn [fst]; try discriminate.
  unfold on_Exception. destruct (is_Exception e0) eqn:E0.
  - apply Hh.
  - intros [= <-]. exact E0.
Qed.

Lemma find_first {A} (f : A -> bool) (l : list A) :
  existsb f l = true ->
  exists earlier x later,
    l = earlier ++ x :: later /\ f x = true /\ existsb f earlier = false
    /\ find f l = Some x.
Proof.
  induction l as [|a l IH]; [discriminate|]. simpl.
  destruct (f a) eqn:Ea.
  - intros _. exists [], a, l. now repeat split.
  - intros H. destruct (IH H) as (earlier & x & later & -> & Hx & Hearlier & Hfind).
    exists (a :: earlier), x, later. simpl. rewrite Ea. now repeat split.
Qed.

Lemma find_none {A} (f : A -> bool) (l : list A) :
  existsb f l = false -> find f l = None.
Proof.
  induction l as [|a l IH]; [reflexivity|]. simpl.
  destruct (f a); [discriminate|exact IH].
Qed.

End Caught.
End Hooks.

Module HookFacts.
Import AgentPy.

(** X9.  The two hooks let no [Exception] out, whatever the memory service
    does; [on_agent_initialized] changes nothing of the agent but its
    system prompt, to which it only appends; and [on_message_added], when
    the agent has no message yet or the newest message has no content
    block, calls nothing and logs the index error. *)
Theorem the_hooks_let_no_Exception_out (self : CostMemoryHookProvider)
        (agent : Agent) (env : Env) (tr : list event) :
  (forall e, fst (on_message_added self agent env tr) = Raise e ->
             is_Exception e = false)
  /\ (forall e, fst (on_agent_initialized self agent env tr) = Raise e ->
                is_Exception e = false)
  /\ (forall agent',
        fst (on_agent_initialized self agent env tr) = Ret agent' ->
        agent_name agent' = agent_name agent
        /\ agent_tools agent' = agent_tools agent
        /\ state_actor_id agent' = state_actor_id agent
        /\ state_session_id agent' = state_session_id agent
        /\ messages agent' = messages agent
        /\ exists more, system_prompt agent' = system_prompt agent ++ more)
  /\ (messages agent = []
      \/ (exists newest, last_item (messages agent) = Some newest
                         /\ content newest = []) ->
      on_message_added self agent env tr
      = (Ret tt,
         tr ++ [LogError (lit "Memory save error: list index out of range")])).
Proof.
  split; [|split; [|split]].
  - intros e. apply Hooks.try_except_catches. intros e0 tr0 e1. discriminate.
  - intros e. apply Hooks.try_except_catches. intros e0 tr0 e1. discriminate.
  - intros agent'. unfold on_agent_initialized, try_except.
    assert (Hsame : agent_name agent = agent_name agent
                    /\ agent_tools agent = agent_tools agent
                    /\ state_actor_id agent = state_actor_id agent
                    /\ state_session_id agent = state_session_id agent
                    /\ messages agent = messages agent
                    /\ exists more, system_prompt agent = system_prompt agent ++ more).
    { repeat (split; [reflexivity|]). exists []. now rewrite app_nil_r. }
    destruct (falsy (state_actor_id agent) || falsy (state_session_id agent)).
    + cbn. intros [= <-]. exact Hsame.
    + unfold get_last_k_turns. rewrite run_bind_call.
      destruct (last_turns env _) as [[|turn turns]|e].
      * cbn. intros [= <-]. exact Hsame.
      * cbn [ret fst]. intros [= <-]. cbn.
        repeat (split; [reflexivity|]). eexists. reflexivity.
      * unfold on_Exception. destruct (is_Exception e); [|discriminate].
        cbn. intros [= <-]. exact Hsame.
  - intros H. unfold on_message_added, try_except, index.
    destruct H as [H|(newest & Hlast & Hcontent)].
    + rewrite H. reflexivity.
    + rewrite Hlast, run_bind_ret, Hcontent. reflexivity.
Qed.

Lemma the_hooks_let_no_Exception_out_witness :
  on_message_added Sample.provider Sample2.plain_agent Sample.remembering_env []
  = (Ret tt, [LogError (lit "Memory save error: list index out of range")]).
Proof.
  apply (proj2 (proj2 (proj2
           (the_hooks_let_no_Exception_out Sample.provider Sample2.plain_agent
              Sample.remembering_env [])))).
  left. reflexivity.
Defined.

(** X10.  [create_or_get_memory] lists the memories first.  When the id
    of one of them starts with [ResourceOptimizerMemory], the first such
    id is returned and nothing else is called: no memory is created and
    [config.json] is not written.  When none does, one memory is
    created, and its id is written to [config.json] and returned. *)
Theorem an_existing_memory_is_used_again (env : Env) (tr : list event)
        (ids : list str) :
  memories env (calls_so_far is_ListMemories tr) = Reply ids ->
  (existsb (startswith memory_name) ids = true ->
   exists earlier id later,
     ids = earlier ++ id :: later
     /\ startswith memory_name id = true
     /\ existsb (startswith memory_name) earlier = false
     /\ create_or_get_memory env tr = (Ret id, tr ++ [ListMemories]))
  /\ (existsb (startswith memory_name) ids = false ->
      forall id,
        new_memory env (calls_so_far is_CreateMemory tr) = Reply id ->
        config_file env (calls_so_far is_WriteConfig tr) = Reply tt ->
        create_or_get_memory env tr
        = (Ret id, tr ++ [ListMemories; CreateMemory memory_name;
                          WriteConfig id memory_name])).
Proof.
  intros Hlist. split.
  - intros Hsome.
    destruct (Hooks.find_first _ _ Hsome)
      as (earlier & id & later & Hids & Hid & Hearlier & Hfind).
    exists earlier, id, later. repeat (split; [assumption|]).
    unfold create_or_get_memory, try_except.
    now rewrite run_bind_call, Hlist, Hfind.
  - intros Hnone id Hnew Hwrite.
    unfold create_or_get_memory, try_except.
    rewrite run_bind_call, Hlist, (Hooks.find_none _ _ Hnone).
    rewrite run_bind_call, calls_so_far_snoc. cbn [is_CreateMemory].
    rewrite Nat.add_0_r, Hnew.
    rewrite run_bind_call, !calls_so_far_snoc. cbn [is_WriteConfig].
    rewrite !Nat.add_0_r, Hwrite.
    unfold ret. now rewrite <- !app_assoc.
Qed.

Lemma an_existing_memory_is_used_again_witness :
  exists earlier id later,
    [lit "OtherMemory-1"; lit "ResourceOptimizerMemory-abc";
     lit "ResourceOptimizerMemory-def"] = earlier ++ id :: later
    /\ startswith memory_name id = true
    /\ existsb (startswith memory_name) earlier = false
    /\ create_or_get_memory Sample2.crowded_env [] = (Ret id, [ListMemories]).
Proof.
  apply (proj1 (an_existing_memory_is_used_again Sample2.crowded_env []
                  [lit "OtherMemory-1"; lit "ResourceOptimizerMemory-abc";
                   lit "ResourceOptimizerMemory-def"] eq_refl)).
  reflexivity.
Defined.



End HookFacts.

(** ** More on the provisioning scripts *)

Module Provisioning.
Import Setup Talk.

(** Running a script call by call. *)
Ltac go := repeat first [ rewrite run_bind_bind
                        | rewrite run_bind_emit
                        | rewrite run_bind_ret ].

(** The number of earlier calls of the kind, worked out. *)
Ltac count oracle :=
  match goal with
  | |- context [oracle ?cloud (calls_so_far ?kind ?tr)] =>
      let n := eval vm_compute in (calls_so_far kind tr) in
      change (calls_so_far kind tr) with n
  end.

Ltac only_step :=
  first [ apply always_ret
        | apply always_raise
        | apply always_emit
        | apply always_call
        | apply always_bind; [|intros ?]
        | apply always_try_except; [|intros ? ? ?] ].

Lemma filter_outs kind (lines : list str) :
  (forall line, kind (Out line) = false) ->
  filter kind (map Out lines) = [].
Proof.
  intros Hkind. induction lines as [|l lines IH]; [reflexivity|].
  simpl. now rewrite Hkind.
Qed.

Section Runs.
Context {json_lib : JsonLib}.
Variable cloud : Cloud.

Lemma refused_policy_run arn e :
  create_role cloud 0 = Reply arn ->
  put_role_policy cloud 0 = Fails e ->
  is_Exception e = true ->
  (forall m, e <> EntityAlreadyExistsException m) ->
  gave_up [role_request; policy_request]
          (CROSS ++ lit " Error creating role: " ++ exn_str e)
          (iam_role_script cloud [])
  /\ existsb is_SaveConfig (snd (iam_role_script cloud [])) = false.
Proof.
  intros Hrole Hpolicy Hcaught Hother.
  unfold iam_role_script, create_gateway_role, out. go.
  rewrite SetupFailures.run_bind_try, run_bind_call.
  count create_role. rewrite Hrole. go.
  unfold put_permissions. rewrite run_bind_call.
  count put_role_policy. rewrite Hpolicy.
  destruct e; try discriminate Hcaught; try (now elim (Hother msg));
    unfold on_Exception, sys_exit; cbn [is_Exception]; go;
    (split; [split; [split|]|]; vm_compute; reflexivity).
Qed.

(** Reading the file, or starting afresh when it is not there. *)
Lemma load_or_fresh_run tr :
  try_except load_config
    (fun e => match e with
              | FileNotFoundError _ => Some (ret fresh_config)
              | _ => None
              end) cloud tr
  = match config_read cloud (calls_so_far is_LoadConfig tr) with
    | Reply config => (Ret config, tr ++ [LoadConfig])
    | Fails (FileNotFoundError m) => (Ret fresh_config, tr ++ [LoadConfig])
    | Fails e => (Raise e, tr ++ [LoadConfig])
    end.
Proof.
  unfold try_except, load_config, call.
  destruct (config_read cloud (calls_so_far is_LoadConfig tr)) as [config|e];
    [reflexivity|].
  now destruct e.
Qed.

Lemma recorded_role_run arn config account session :
  create_role cloud 0 = Reply arn ->
  put_role_policy cloud 0 = Reply tt ->
  config_read cloud 0 = Reply config
  \/ (exists m, config_read cloud 0 = Fails (FileNotFoundError m))
     /\ config = fresh_config ->
  caller_identity cloud 0 = Reply account ->
  session_region cloud 0 = Reply session ->
  config_write cloud 0 = Reply tt ->
  outcome [role_request; policy_request; GetCallerIdentity] 0
          (iam_role_script cloud [])
  /\ filter is_SaveConfig (snd (iam_role_script cloud []))
     = [SaveConfig
          {| aws := Some {| account_id := Some account;
                            gateway_role_arn := Some arn;
                            region := Some (region_or_default session) |};
             cognito := cognito config;
             gateway := gateway config;
             smithy_targets := smithy_targets config |}].
Proof.
  intros Hrole Hpolicy Hread Haccount Hsession Hwrite.
  unfold iam_role_script, create_gateway_role, out. go.
  rewrite SetupFailures.run_bind_try, run_bind_call.
  count create_role. rewrite Hrole. go.
  unfold put_permissions. rewrite run_bind_call.
  count put_role_policy. rewrite Hpolicy. go.
  rewrite run_bind.
  change (try_except load_config _) with
    (try_except load_config
       (fun e => match e with
                 | FileNotFoundError _ => Some (ret fresh_config)
                 | _ => None
                 end)).
  rewrite load_or_fresh_run. count config_read.
  set (tr := (_ ++ [Out (CHECK ++ lit " Permissions attached")])).
  assert (Hloaded :
            match config_read cloud 0 with
            | Reply config => (Ret config, tr ++ [LoadConfig])
            | Fails (FileNotFoundError m) => (Ret fresh_config, tr ++ [LoadConfig])
            | Fails e => (Raise e, tr ++ [LoadConfig])
            end = (Ret config, tr ++ [LoadConfig])).
  { destruct Hread as [-> | [[m ->] ->]]; reflexivity. }
  rewrite Hloaded. subst tr. cbn [fst snd].
  unfold get_account, save_config.
  rewrite run_bind_call. count caller_identity. rewrite Haccount.
  rewrite run_bind_call. count session_region. rewrite Hsession.
  cbv zeta. fold (region_or_default session).
  rewrite run_bind_call. count config_write. rewrite Hwrite. go.
  split; [split|]; vm_compute; reflexivity.
Qed.

Lemma existing_role_run m :
  create_role cloud 0 = Fails (EntityAlreadyExistsException m) ->
  existsb (fun a => is_LoadConfig a || is_SaveConfig a)
          (snd (iam_role_script cloud [])) = false.
Proof.
  intros Hrole.
  unfold iam_role_script, create_gateway_role, out. go.
  rewrite SetupFailures.run_bind_try, run_bind_call.
  count create_role. rewrite Hrole.
  unfold get_account, put_permissions. go.
  rewrite run_bind_call. count caller_identity.
  destruct (caller_identity cloud 0) as [account|e]; [|reflexivity]. go.
  rewrite run_bind_call. count put_role_policy.
  destruct (put_role_policy cloud 0) as [[]|e]; [|reflexivity]. go.
  reflexivity.
Qed.

(** *** [02-create-gateway.py] *)

Lemma gateway_made_run config section role c client discovery id url :
  config_read cloud 0 = Reply config ->
  aws config = Some section ->
  gateway_role_arn section = Some role ->
  cognito config = Some c ->
  client_id c = Some client ->
  discovery_url c = Some discovery ->
  create_gateway cloud 0 = Reply (id, url) ->
  config_write cloud 0 = Reply tt ->
  exists tr,
    gateway_script cloud [] = (Ret tt, tr)
    /\ sdk_calls tr = [gateway_request role client discovery]
    /\ filter is_SaveConfig tr
       = [SaveConfig
            (set_gateway config {| gateway_id := Some id;
                                   gateway_url := Some url;
                                   gateway_name := Some the_gateway_name |})].
Proof.
  intros Hread Haws Hrole Hcognito Hclient Hdiscovery Hgateway Hwrite.
  eexists. split.
  - unfold gateway_script, create_gateway_with_semantic_search, out. go.
    rewrite run_bind, SetupPayloads.load_or_exit_run.
    count config_read. rewrite Hread. cbn [fst snd].
    rewrite Haws. unfold item at 1. go.
    rewrite Hrole. unfold item at 1. go.
    rewrite Hcognito. unfold no_cognito. rewrite Hclient. cbv iota. go.
    unfold item at 1. go. rewrite Hdiscovery. unfold item at 1. go.
    rewrite SetupFailures.run_bind_try. go.
    rewrite run_bind_call. count create_gateway. rewrite Hgateway. go.
    unfold save_config. rewrite run_bind_call. count config_write.
    rewrite Hwrite. go. reflexivity.
  - split; vm_compute; reflexivity.
Qed.

Lemma gateway_script_only :
  Forall (of_the_gateway_script cloud) (snd (gateway_script cloud [])).
Proof.
  unfold gateway_script, create_gateway_with_semantic_search, out.
  rewrite !run_bind_emit, run_bind_bind, run_bind,
    SetupPayloads.load_or_exit_run.
  set (tr := (([] ++ _) ++ _) ++ _).
  assert (Htr : Forall (of_the_gateway_script cloud) tr)
    by (repeat constructor).
  change (calls_so_far is_LoadConfig tr) with 0.
  destruct (config_read cloud 0) as [config|e] eqn:Hread; cbn [fst snd].
  - match goal with
    | |- Forall _ (snd (bind ?m ?k cloud ?tr)) =>
        apply (always_bind (of_the_gateway_script cloud) cloud m k)
    end.
    + apply SetupPayloads.always_bind_item. intros section Haws.
      apply SetupPayloads.always_bind_item. intros role Hrole.
      destruct (no_cognito (cognito config)) eqn:Ecognito.
      * unfold sys_exit. repeat only_step. exact I.
      * cbv zeta.
        destruct (cognito config) as [c|] eqn:Hcognito; [|discriminate].
        apply always_bind; [now apply always_emit|intros _].
        apply always_bind; [now apply always_emit|intros _].
        apply SetupPayloads.always_bind_item. intros client Hclient.
        apply always_bind; [now apply always_emit|intros _].
        apply SetupPayloads.always_bind_item. intros discovery Hdiscovery.
        unfold save_config, sys_exit.
        apply always_try_except.
        -- do 3 (apply always_bind; [now apply always_emit|intros _]).
           apply always_bind.
           ++ apply always_call.
              exists config, section, role, c, client, discovery.
              now repeat split.
           ++ intros [id url]. repeat only_step; exact I.
        -- intros e h Hh.
           apply (always_on_Exception (of_the_gateway_script cloud) cloud _ e h) in Hh; [exact Hh|].
           intros e'. repeat only_step. exact I.
    + intros result. repeat only_step; exact I.
    + apply Forall_app. split; [apply Htr|]. repeat constructor.
  - destruct e; cbn [fst snd]; apply Forall_app; (split; [apply Htr|]);
      repeat constructor.
Qed.

(** *** [03-create-smithy-targets.py] *)

(** The [for] loop over any list of targets. *)
Lemma create_targets_run the_gateway specs :
  (forall i, soft (create_gateway_target cloud i)) ->
  forall created tr,
    exists added,
      create_targets the_gateway created specs cloud tr
      = (Ret (created
              ++ made (create_gateway_target cloud)
                      (calls_so_far is_CreateGatewayTarget tr) specs),
         tr ++ added)
      /\ sdk_calls added = map (attempt the_gateway) specs
      /\ filter is_SaveConfig added = []
      /\ calls_so_far is_Sleep added
         = length (made (create_gateway_target cloud)
                        (calls_so_far is_CreateGatewayTarget tr) specs).
Proof.
  intros Hsoft. induction specs as [|spec specs IH]; intros created tr.
  - exists []. simpl. unfold ret. rewrite !app_nil_r. now repeat split.
  - cbn [create_targets made]. rewrite run_bind, SetupFailures.create_target_run.
    cbv zeta. pose proof (Hsoft (calls_so_far is_CreateGatewayTarget tr)) as Hs.
    destruct (create_gateway_target cloud (calls_so_far is_CreateGatewayTarget tr))
      as [id|e]; cbn [fst snd].
    + match goal with
      | |- context [create_targets _ ?c specs cloud ?t] =>
          destruct (IH c t) as (added & Hrun & Hsdk & Hsave & Hsleep)
      end.
      rewrite Hrun.
      rewrite !calls_so_far_app in *.
      cbn [calls_so_far filter is_CreateGatewayTarget attempt length] in *.
      rewrite !Nat.add_0_r in *.
      replace (calls_so_far is_CreateGatewayTarget tr + 1)
        with (S (calls_so_far is_CreateGatewayTarget tr)) in * by lia.
      eexists. split; [|split; [|split]].
      * rewrite <- !app_assoc. reflexivity.
      * cbn [app]. unfold sdk_calls. cbn [filter is_sdk]. cbn.
        f_equal. exact Hsdk.
      * cbn. exact Hsave.
      * unfold calls_so_far in *. cbn. f_equal. exact Hsleep.
    + cbn in Hs. rewrite Hs. cbn [fst snd].
      match goal with
      | |- context [create_targets _ ?c specs cloud ?t] =>
          destruct (IH c t) as (added & Hrun & Hsdk & Hsave & Hsleep)
      end.
      rewrite Hrun.
      rewrite !calls_so_far_app in *.
      cbn [calls_so_far filter is_CreateGatewayTarget attempt length] in *.
      rewrite !Nat.add_0_r in *.
      replace (calls_so_far is_CreateGatewayTarget tr + 1)
        with (S (calls_so_far is_CreateGatewayTarget tr)) in * by lia.
      eexists. split; [|split; [|split]].
      * rewrite <- !app_assoc. reflexivity.
      * cbn [app]. unfold sdk_calls. cbn [filter is_sdk]. cbn.
        f_equal. exact Hsdk.
      * cbn. exact Hsave.
      * unfold calls_so_far in *. cbn. exact Hsleep.
Qed.

(** The parts of a trace that hold calls of one kind. *)
Ltac sift :=
  unfold sdk_calls, calls_so_far;
  rewrite ?filter_app;
  cbn [filter is_sdk is_Sleep is_SaveConfig is_CreateRole is_PutRolePolicy
         is_GetCallerIdentity is_CreateGateway is_CreateGatewayTarget orb];
  rewrite ?filter_outs by reflexivity;
  rewrite ?app_nil_r.

(** The third script, run up to the end of its loop. *)
Ltac through_the_loop Hread Hsection Hid Hsoft Hwrite :=
  let added := fresh "added" in
  let Hrun := fresh "Hrun" in
  let Hsdk := fresh "Hsdk" in
  let Hsave := fresh "Hsave" in
  let Hsleep := fresh "Hsleep" in
  unfold smithy_targets_script, create_all_smithy_targets, out; go;
  rewrite run_bind, SetupPayloads.load_or_exit_run;
  count config_read; rewrite Hread; cbn [fst snd];
  rewrite Hsection; unfold item at 1; go;
  rewrite Hid; unfold item at 1; go;
  rewrite run_bind;
  match goal with
  | |- context [create_targets ?gw [] _ _ ?t] =>
      destruct (create_targets_run gw targets_to_create Hsoft [] t)
        as (added & Hrun & Hsdk & Hsave & Hsleep);
      change (calls_so_far is_CreateGatewayTarget t) with 0 in *
  end;
  rewrite Hrun; cbn [fst snd app];
  destruct (made _ 0 targets_to_create) as [|target created];
  cbn [app]; go;
  [ unfold sys_exit, raise
  | unfold save_config; rewrite run_bind_call;
    match goal with
    | |- context [config_write _ ?n] =>
        replace n with 0
          by (unfold calls_so_far; rewrite ?filter_app;
              cbn [filter is_SaveConfig]; now rewrite Hsave)
    end;
    rewrite Hwrite; go;
    rewrite run_bind, SetupFailures.out_all_run; cbn [fst snd]; go;
    unfold ret, emit ].

Lemma kept_targets_run config section the_gateway :
  config_read cloud 0 = Reply config ->
  gateway config = Some section ->
  gateway_id section = Some the_gateway ->
  (forall i, soft (create_gateway_target cloud i)) ->
  config_write cloud 0 = Reply tt ->
  kept config (made (create_gateway_target cloud) 0 targets_to_create)
       (smithy_targets_script cloud []).
Proof.
  intros Hread Hsection Hid Hsoft Hwrite.
  through_the_loop Hread Hsection Hid Hsoft Hwrite;
    unfold kept; cbn [fst snd exit_status]; (split; [|split; [|reflexivity]]).
  - sift. exact Hsave.
  - sift. exact Hsleep.
  - sift. exact (f_equal (fun l => l ++ _) Hsave).
  - sift. exact Hsleep.
Qed.

Lemma every_target_asked_run config section the_gateway :
  config_read cloud 0 = Reply config ->
  gateway config = Some section ->
  gateway_id section = Some the_gateway ->
  (forall i, soft (create_gateway_target cloud i)) ->
  config_write cloud 0 = Reply tt ->
  sdk_calls (snd (smithy_targets_script cloud []))
  = map (attempt the_gateway) targets_to_create.
Proof.
  intros Hread Hsection Hid Hsoft Hwrite.
  through_the_loop Hread Hsection Hid Hsoft Hwrite; cbn [snd]; sift;
    exact Hsdk.
Qed.

Lemma targets_only config section the_gateway specs :
  config_read cloud 0 = Reply config ->
  gateway config = Some section ->
  gateway_id section = Some the_gateway ->
  (forall spec, In spec specs -> In spec targets_to_create) ->
  forall created,
    always (of_the_targets_script cloud) cloud
           (create_targets the_gateway created specs).
Proof.
  intros Hread Hsection Hid.
  induction specs as [|spec specs IH]; intros Hspecs created; simpl.
  - apply always_ret.
  - apply always_bind.
    + unfold create_target, out. apply always_try_except.
      * do 2 (apply always_bind; [now apply always_emit|intros _]).
        apply always_bind.
        -- apply always_call. exists config, section, the_gateway, spec.
           repeat (split; [assumption|]). split; [|reflexivity].
           apply Hspecs. now left.
        -- intros id. repeat only_step; try exact I. reflexivity.
      * intros e h Hh.
        apply (always_on_Exception (of_the_targets_script cloud) cloud _ e h) in Hh;
          [exact Hh|].
        intros e'. repeat only_step. exact I.
    + intros created'. apply IH. intros s Hs. apply Hspecs. now right.
Qed.

Lemma targets_script_only :
  Forall (of_the_targets_script cloud) (snd (smithy_targets_script cloud [])).
Proof.
  unfold smithy_targets_script, create_all_smithy_targets, out.
  rewrite !run_bind_emit, !run_bind_bind, run_bind,
    SetupPayloads.load_or_exit_run.
  set (tr := (([] ++ _) ++ _) ++ _).
  assert (Htr : Forall (of_the_targets_script cloud) tr)
    by (repeat constructor).
  change (calls_so_far is_LoadConfig tr) with 0.
  destruct (config_read cloud 0) as [config|e] eqn:Hread; cbn [fst snd].
  - match goal with
    | |- Forall _ (snd (?m cloud ?tr)) =>
        assert (Hm : always (of_the_targets_script cloud) cloud m);
          [|apply Hm]
    end.
    + apply always_bind.
      * apply SetupPayloads.always_bind_item. intros section Hsection.
        apply SetupPayloads.always_bind_item. intros the_gateway Hid.
        do 5 (apply always_bind; [now apply always_emit|intros _]).
        apply always_bind.
        -- apply (targets_only config section the_gateway); auto.
        -- intros created. unfold save_config.
           destruct created; repeat only_step; exact I.
      * intros results. unfold sys_exit. destruct results as [|target results].
        -- repeat only_step. exact I.
        -- do 4 (apply always_bind; [now apply always_emit|intros _]).
           apply always_bind;
             [apply SetupPayloads.always_outs; intros; exact I|intros _].
           repeat only_step; exact I.
    + apply Forall_app. split; [apply Htr|]. repeat constructor.
  - destruct e; cbn [fst snd]; apply Forall_app; (split; [apply Htr|]);
      repeat constructor.
Qed.

End Runs.
End Provisioning.

Module ProvisioningFacts.
Import Setup Talk.

(** X12.  When the role is created and putting its policy then fails with
    an [Exception] other than [EntityAlreadyExists], the first script
    reports it as an error creating the role and ends with status 1: it
    has made these two SDK calls and no other, the role stays, and
    [config.json] is not written. *)
Theorem a_refused_policy_is_reported_as_a_role_error {json_lib : JsonLib}
        (cloud : Cloud) (arn : str) (e : exn) :
  create_role cloud 0 = Reply arn ->
  put_role_policy cloud 0 = Fails e ->
  is_Exception e = true ->
  (forall m, e <> EntityAlreadyExistsException m) ->
  gave_up [role_request; policy_request]
          (CROSS ++ lit " Error creating role: " ++ exn_str e)
          (iam_role_script cloud [])
  /\ existsb is_SaveConfig (snd (iam_role_script cloud [])) = false.
Proof. apply Provisioning.refused_policy_run. Qed.

Lemma a_refused_policy_is_reported_as_a_role_error_witness :
  gave_up [@role_request Sample.json_lib; @policy_request Sample.json_lib]
          (CROSS ++ lit " Error creating role: AccessDenied")
          (@iam_role_script Sample.json_lib Sample2.no_policy_cloud [])
  /\ existsb is_SaveConfig
             (snd (@iam_role_script Sample.json_lib Sample2.no_policy_cloud []))
     = false.
Proof.
  apply (@a_refused_policy_is_reported_as_a_role_error Sample.json_lib
           Sample2.no_policy_cloud
           (lit "arn:aws:iam::123456789012:role/ResourceOptimizerGatewayRole")
           (Exception (lit "AccessDenied"))); try reflexivity.
  intros m. discriminate.
Defined.

(** X13.  When every call of the first script succeeds, it asks for the
    role, puts the policy and asks for the account, in that order, and
    writes [config.json] once: the file as it was read, or the empty one
    when there was none, with its [aws] section replaced by the account,
    the ARN of the role and the region of the session, [us-east-1] when
    the session has none; the other sections are kept as they were. *)
Theorem the_role_is_recorded {json_lib : JsonLib} (cloud : Cloud)
        (arn : str) (config : ConfigFile) (account : str)
        (session : option str) :
  create_role cloud 0 = Reply arn ->
  put_role_policy cloud 0 = Reply tt ->
  config_read cloud 0 = Reply config
  \/ (exists m, config_read cloud 0 = Fails (FileNotFoundError m))
     /\ config = fresh_config ->
  caller_identity cloud 0 = Reply account ->
  session_region cloud 0 = Reply session ->
  config_write cloud 0 = Reply tt ->
  outcome [role_request; policy_request; GetCallerIdentity] 0
          (iam_role_script cloud [])
  /\ filter is_SaveConfig (snd (iam_role_script cloud []))
     = [SaveConfig
          {| aws := Some {| account_id := Some account;
                            gateway_role_arn := Some arn;
                            region := Some (region_or_default session) |};
             cognito := cognito config;
             gateway := gateway config;
             smithy_targets := smithy_targets config |}].
Proof. apply Provisioning.recorded_role_run. Qed.

Lemma the_role_is_recorded_witness :
  outcome [@role_request Sample.json_lib; @policy_request Sample.json_lib;
           GetCallerIdentity] 0
          (@iam_role_script Sample.json_lib Sample2.kind_cloud [])
  /\ filter is_SaveConfig
            (snd (@iam_role_script Sample.json_lib Sample2.kind_cloud []))
     = [SaveConfig
          {| aws := Some {| account_id := Some (lit "123456789012");
                            gateway_role_arn :=
                              Some (lit "arn:aws:iam::123456789012:role/ResourceOptimizerGatewayRole");
                            region := Some (lit "us-east-1") |};
             cognito := cognito Sample.config_file_content;
             gateway := gateway Sample.config_file_content;
             smithy_targets := None |}].
Proof.
  apply (@the_role_is_recorded Sample.json_lib Sample2.kind_cloud
           (lit "arn:aws:iam::123456789012:role/ResourceOptimizerGatewayRole")
           Sample.config_file_content (lit "123456789012") None);
    try reflexivity.
  left. reflexivity.
Defined.

(** X14.  When the role exists already, the first script neither reads
    nor writes [config.json], whatever the later calls answer: the ARN it
    prints is not recorded in the file. *)
Theorem an_existing_role_leaves_the_file_alone {json_lib : JsonLib}
        (cloud : Cloud) (m : str) :
  create_role cloud 0 = Fails (EntityAlreadyExistsException m) ->
  existsb (fun a => is_LoadConfig a || is_SaveConfig a)
          (snd (iam_role_script cloud [])) = false.
Proof. apply Provisioning.existing_role_run. Qed.

Lemma an_existing_role_leaves_the_file_alone_witness :
  existsb (fun a => is_LoadConfig a || is_SaveConfig a)
          (snd (@iam_role_script Sample.json_lib Sample.second_run_cloud []))
  = false.
Proof.
  apply (@an_existing_role_leaves_the_file_alone Sample.json_lib
           Sample.second_run_cloud (lit "EntityAlreadyExists")).
  reflexivity.
Defined.

(** X15.  In every run of the second script, whatever the file holds and
    the control plane answers, the only SDK call is the request for the
    gateway, and it is made only when [config.json] could be read and
    holds the ARN of the role, the client id and the discovery URL: the
    request carries these three values. *)
Theorem the_gateway_script_asks_for_the_gateway_only (cloud : Cloud) :
  Forall (of_the_gateway_script cloud) (snd (gateway_script cloud [])).
Proof. apply Provisioning.gateway_script_only. Qed.

(** X16.  When the second script finds its values in [config.json] and
    the gateway is created, it writes the file once, with the [gateway]
    section replaced by the id, the URL and the name of the gateway and
    the rest as it was read, and ends with status 0; and [agent.py],
    loaded on the file so written, gets the client id, the secret and
    the token URL of the [cognito] section, the URL of the new gateway,
    and the region of the [aws] section, [us-east-1] when it has none. *)
Theorem what_the_gateway_script_saves_agent_py_loads (cloud : Cloud)
        (config : ConfigFile) (section : AwsSection) (role : str)
        (c : CognitoSection) (client discovery secret token id url : str) :
  config_read cloud 0 = Reply config ->
  aws config = Some section ->
  gateway_role_arn section = Some role ->
  cognito config = Some c ->
  client_id c = Some client ->
  discovery_url c = Some discovery ->
  client_secret c = Some secret ->
  token_url c = Some token ->
  create_gateway cloud 0 = Reply (id, url) ->
  config_write cloud 0 = Reply tt ->
  exists tr saved,
    gateway_script cloud [] = (Ret tt, tr)
    /\ sdk_calls tr = [gateway_request role client discovery]
    /\ filter is_SaveConfig tr = [SaveConfig saved]
    /\ saved = set_gateway config {| gateway_id := Some id;
                                     gateway_url := Some url;
                                     gateway_name := Some the_gateway_name |}
    /\ AgentSettings.load true (Reply saved)
       = (Ret {| AgentPy.CLIENT_ID := client;
                 AgentPy.CLIENT_SECRET := secret;
                 AgentPy.TOKEN_URL := token;
                 AgentPy.GATEWAY_URL := url;
                 AgentPy.REGION := match region section with
                                   | Some r => r
                                   | None => lit "us-east-1"
                                   end |}, []).
Proof.
  intros Hread Haws Hrole Hcognito Hclient Hdiscovery Hsecret Htoken Hgateway
         Hwrite.
  destruct (Provisioning.gateway_made_run cloud config section role c client
              discovery id url Hread Haws Hrole Hcognito Hclient Hdiscovery
              Hgateway Hwrite) as (tr & Hrun & Hsdk & Hsave).
  exists tr. eexists. repeat (split; [eassumption|]).
  split; [reflexivity|].
  unfold AgentSettings.load, set_gateway. cbn [negb cognito gateway aws gateway_url].
  rewrite Hcognito, Haws. cbn [AgentSettings.subscript AgentSettings.and_then].
  rewrite Hclient, Hsecret, Htoken. reflexivity.
Qed.

Lemma what_the_gateway_script_saves_agent_py_loads_witness :
  exists tr saved,
    gateway_script Sample2.kind_cloud [] = (Ret tt, tr)
    /\ sdk_calls tr
       = [gateway_request
            (lit "arn:aws:iam::123456789012:role/ResourceOptimizerGatewayRole")
            (lit "client")
            (lit "https://auth.example/.well-known/openid-configuration")]
    /\ filter is_SaveConfig tr = [SaveConfig saved]
    /\ saved = set_gateway Sample.config_file_content
                 {| gateway_id := Some (lit "gw-1");
                    gateway_url := Some (lit "https://gateway.example/mcp");
                    gateway_name := Some the_gateway_name |}
    /\ AgentSettings.load true (Reply saved)
       = (Ret {| AgentPy.CLIENT_ID := lit "client";
                 AgentPy.CLIENT_SECRET := lit "secret";
                 AgentPy.TOKEN_URL := lit "https://auth.example/oauth2/token";
                 AgentPy.GATEWAY_URL := lit "https://gateway.example/mcp";
                 AgentPy.REGION := lit "us-east-1" |}, []).
Proof.
  apply (what_the_gateway_script_saves_agent_py_loads Sample2.kind_cloud
           Sample.config_file_content
           {| account_id := Some (lit "123456789012");
              gateway_role_arn :=
                Some (lit "arn:aws:iam::123456789012:role/ResourceOptimizerGatewayRole");
              region := Some (lit "us-east-1") |}
           _
           {| client_id := Some (lit "client");
              client_secret := Some (lit "secret");
              token_url := Some (lit "https://auth.example/oauth2/token");
              discovery_url :=
                Some (lit "https://auth.example/.well-known/openid-configuration") |});
    reflexivity.
Defined.

(** X17.  When the third script finds its gateway in [config.json] and no
    call fails but with an [Exception], it asks for each of its targets
    once, in their order; it keeps one entry for each target that was
    created, with the id returned and the name, the URI and the
    description of the target, in the order created, and writes
    [config.json] once with these entries as [smithy_targets], or not at
    all when no target was created; it pauses once for each target
    created and for none that was refused; and it ends with status 0,
    or with status 1 when no target was created. *)
Theorem the_targets_kept_are_the_targets_created (cloud : Cloud)
        (config : ConfigFile) (section : GatewaySection) (the_gateway : str) :
  config_read cloud 0 = Reply config ->
  gateway config = Some section ->
  gateway_id section = Some the_gateway ->
  (forall i, soft (create_gateway_target cloud i)) ->
  config_write cloud 0 = Reply tt ->
  sdk_calls (snd (smithy_targets_script cloud []))
  = map (attempt the_gateway) targets_to_create
  /\ kept config (made (create_gateway_target cloud) 0 targets_to_create)
          (smithy_targets_script cloud []).
Proof.
  intros Hread Hsection Hid Hsoft Hwrite. split.
  - now apply (Provisioning.every_target_asked_run cloud config section).
  - now apply (Provisioning.kept_targets_run cloud config section the_gateway).
Qed.

Lemma the_targets_kept_are_the_targets_created_witness :
  sdk_calls (snd (smithy_targets_script Sample.flaky_cloud []))
  = map (attempt (lit "gw-1")) targets_to_create
  /\ kept Sample.config_file_content
          [ {| target_id := lit "target-1";
               target_name := lit "CloudWatchLogsTarget";
               target_uri := lit "s3://cost-explorer-smithy-api/cloudwatch-logs-2014-03-28.json";
               target_description := lit "CloudWatch Logs for log analysis and monitoring" |};
            {| target_id := lit "target-2";
               target_name := lit "EBSTarget";
               target_uri := lit "s3://cost-explorer-smithy-api/ebs-2019-11-02.json";
               target_description := lit "EBS for volume and snapshot management" |} ]
          (smithy_targets_script Sample.flaky_cloud []).
Proof.
  apply (the_targets_kept_are_the_targets_created Sample.flaky_cloud
           Sample.config_file_content
           {| gateway_id := Some (lit "gw-1");
              gateway_url := Some (lit "https://gateway.example/mcp");
              gateway_name := Some (lit "resource-optimizer-gateway") |}
           (lit "gw-1")); try reflexivity.
  intros i. destruct i as [|i]; [reflexivity|exact I].
Defined.

(** X18.  In every run of the third script, whatever the file holds and
    the control plane answers, the only SDK calls are requests for
    targets; each is made on the gateway whose id [config.json] holds,
    for one of the three targets of the script, with its name, its
    description and its model; and every pause lasts two seconds. *)
Theorem the_targets_script_asks_for_its_targets_only (cloud : Cloud) :
  Forall (of_the_targets_script cloud) (snd (smithy_targets_script cloud [])).
Proof. apply Provisioning.targets_script_only. Qed.

End ProvisioningFacts.

(** ** The settings of [agent.py] *)

Module SettingsFacts.
Import Setup AgentSettings.

(** X19.  [agent.py] does not start without [config.json]: it prints
    that the file is not found and exits with status 1.  With the file,
    it prints nothing, and it gets its settings exactly when the file
    has the sections [cognito], [gateway] and [aws] with the keys
    [client_id], [client_secret], [token_url] and [url]: the settings
    are these values, and the region is the one of the [aws] section,
    [us-east-1] when the section has none. *)
Theorem the_settings_need_every_key (content : reply ConfigFile) :
  load false content = (Raise (SystemExit 1), [not_found])
  /\ snd (load true content) = []
  /\ forall config settings,
       content = Reply config ->
       (fst (load true content) = Ret settings
        <-> exists c g a,
              cognito config = Some c
              /\ gateway config = Some g
              /\ aws config = Some a
              /\ client_id c = Some (AgentPy.CLIENT_ID settings)
              /\ client_secret c = Some (AgentPy.CLIENT_SECRET settings)
              /\ token_url c = Some (AgentPy.TOKEN_URL settings)
              /\ gateway_url g = Some (AgentPy.GATEWAY_URL settings)
              /\ AgentPy.REGION settings
                 = match region a with
                   | Some r => r
                   | None => lit "us-east-1"
                   end).
Proof.
  split; [reflexivity|split; [reflexivity|]].
  intros config settings ->. unfold load. cbn [negb fst].
  split.
  - destruct (cognito config) as [c|] eqn:Ec; [|discriminate].
    cbn [subscript and_then].
    destruct (client_id c) as [x1|] eqn:E1; [|discriminate].
    destruct (client_secret c) as [x2|] eqn:E2; [|discriminate].
    destruct (token_url c) as [x3|] eqn:E3; [|discriminate].
    destruct (gateway config) as [g|] eqn:Eg; [|discriminate].
    cbn [subscript and_then].
    destruct (gateway_url g) as [x4|] eqn:E4; [|discriminate].
    destruct (aws config) as [a|] eqn:Ea; [|discriminate].
    cbn [subscript and_then]. intros [= <-].
    exists c, g, a. cbn. now repeat split.
  - intros (c & g & a & -> & -> & -> & H1 & H2 & H3 & H4 & H5).
    cbn [subscript and_then]. rewrite H1, H2, H3, H4.
    cbn [subscript and_then]. rewrite <- H5. now destruct settings.
Qed.

Lemma the_settings_need_every_key_witness :
  fst (load true (Reply Sample.config_file_content))
  = Ret Sample.config.
Proof.
  apply (proj2 (proj2 (the_settings_need_every_key
                         (Reply Sample.config_file_content)))
           Sample.config_file_content Sample.config eq_refl).
  eexists _, _, _. repeat (split; [reflexivity|]). reflexivity.
Defined.

End SettingsFacts.

(** ** When the model fails, when the file is incomplete *)

Module Failures.
Import AgentPy Setup Talk.

(** X20.  An iteration of the interactive loop in which a question is
    read and the call of the model raises: an [Exception] other than
    [EOFError] is printed after [Error:], followed by the advice to try
    later when its text, lowered, contains [rate limit], and by the
    request for a different question, and the loop goes on; an
    [EOFError] ends the loop with the message that the input stream has
    ended, and an interrupt ends it with [Exiting...]; an exit request
    goes through. *)
Theorem a_failing_model_does_not_end_the_talk {casing : Casing}
        (agent : Agent) (env : Env) (tr : list event) (line : str) (e : exn) :
  stdin env (calls_so_far is_Input tr) = Reply line ->
  is_exit line = false ->
  is_blank line = false ->
  model env (calls_so_far is_Invoke tr) = Fails e ->
  let asked := tr ++ [Input (nl ++ BUST ++ lit " You: "); Invoke line] in
  iteration agent env tr
  = match e with
    | KeyboardInterrupt =>
        (Ret Break, asked ++ [Print (nl ++ nl ++ lit "Exiting...")])
    | EOFError =>
        (Ret Break, asked ++ [Print (nl ++ nl ++ lit "Input stream ended.")])
    | SystemExit _ => (Raise e, asked)
    | _ =>
        (Ret Continue,
         asked
         ++ [Print (nl ++ lit "Error: " ++ exn_str e)]
         ++ (if contains (lit "rate limit") (lower (exn_str e))
             then [Print (BULB ++ lit " Try again in a few minutes - AWS has strict rate limits")]
             else [])
         ++ [Print (lit "Please try a different question.")])
    end.
Proof.
  intros Hin Hexit Hblank Hmodel asked. subst asked.
  unfold is_exit in Hexit. unfold is_blank in Hblank.
  apply negb_false_iff in Hblank.
  unfold iteration, try_except.
  rewrite run_bind_call, Hin, Hexit, Hblank. cbn [negb].
  rewrite run_bind_call, calls_so_far_snoc. cbn [is_Invoke].
  rewrite Nat.add_0_r, Hmodel.
  destruct e; unfold on_Exception; cbn [is_Exception];
    try (destruct (contains (lit "rate limit") (lower (exn_str _))));
    unfold bind, print, emit, ret; rewrite <- ?app_assoc; reflexivity.
Qed.

Lemma a_failing_model_does_not_end_the_talk_witness :
  @iteration ascii_casing Sample2.plain_agent Sample2.typing_env []
  = (Ret Continue,
     [ Input (nl ++ BUST ++ lit " You: "); Invoke Sample.question;
       Print (nl ++ lit "Error: rate limit exceeded");
       Print (BULB ++ lit " Try again in a few minutes - AWS has strict rate limits");
       Print (lit "Please try a different question.") ]).
Proof.
  apply (@a_failing_model_does_not_end_the_talk ascii_casing Sample2.plain_agent
           Sample2.typing_env [] Sample.question
           (Exception (lit "rate limit exceeded"))); reflexivity.
Defined.

Section Files.
Variable cloud : Cloud.

Ltac go := repeat first [ rewrite run_bind_bind
                        | rewrite run_bind_emit
                        | rewrite run_bind_ret ].

Lemma no_file_run m :
  config_read cloud 0 = Fails (FileNotFoundError m) ->
  gave_up [] (CROSS ++ lit " config.json not found. Run 01-create-iam-role.py first")
          (gateway_script cloud [])
  /\ gave_up [] (CROSS ++ lit " config.json not found. Run previous setup scripts first")
             (smithy_targets_script cloud []).
Proof.
  intros Hread. split.
  - unfold gateway_script, create_gateway_with_semantic_search, out. go.
    rewrite run_bind, SetupPayloads.load_or_exit_run.
    change (calls_so_far is_LoadConfig _) with 0. rewrite Hread.
    split; [split|]; reflexivity.
  - unfold smithy_targets_script, create_all_smithy_targets, out. go.
    rewrite run_bind, SetupPayloads.load_or_exit_run.
    change (calls_so_far is_LoadConfig _) with 0. rewrite Hread.
    split; [split|]; reflexivity.
Qed.

Lemma no_section_run config :
  config_read cloud 0 = Reply config ->
  (aws config = None ->
   outcome [] 1 (gateway_script cloud [])
   /\ fst (gateway_script cloud []) = Raise (KeyError (lit "aws")))
  /\ (forall section role,
        aws config = Some section ->
        gateway_role_arn section = Some role ->
        no_cognito (cognito config) = true ->
        gave_up [] (CROSS ++ lit " Cognito configuration not found. Using existing Cognito setup")
                (gateway_script cloud []))
  /\ (gateway config = None ->
      outcome [] 1 (smithy_targets_script cloud [])
      /\ fst (smithy_targets_script cloud []) = Raise (KeyError (lit "gateway"))).
Proof.
  intros Hread. split; [|split].
  - intros Haws.
    unfold gateway_script, create_gateway_with_semantic_search, out. go.
    rewrite run_bind, SetupPayloads.load_or_exit_run.
    change (calls_so_far is_LoadConfig _) with 0. rewrite Hread. cbn [fst snd].
    rewrite Haws. split; [split|]; reflexivity.
  - intros section role Haws Hrole Hcognito.
    unfold gateway_script, create_gateway_with_semantic_search, out. go.
    rewrite run_bind, SetupPayloads.load_or_exit_run.
    change (calls_so_far is_LoadConfig _) with 0. rewrite Hread. cbn [fst snd].
    rewrite Haws. unfold item at 1. go.
    rewrite Hrole. unfold item at 1. go. rewrite Hcognito.
    split; [split|]; reflexivity.
  - intros Hgateway.
    unfold smithy_targets_script, create_all_smithy_targets, out. go.
    rewrite run_bind, SetupPayloads.load_or_exit_run.
    change (calls_so_far is_LoadConfig _) with 0. rewrite Hread. cbn [fst snd].
    rewrite Hgateway. split; [split|]; reflexivity.
Qed.

End Files.



End Failures.

(** ** The start of the runtime *)

Module RuntimeFacts.
Import RuntimeAgent Pagination.

(** X22.  [runtime_agent.py] has no handler around the statements that
    load its tools: when the listing fails while the module is loaded,
    the transport is closed and the exception of the failed call leaves
    the module; no agent is made and no request is served, whatever the
    requests are. *)
Theorem a_failed_start_serves_nothing (environ : Environ) (prompt_text : str)
        (env : Env) (fuel : nat) (payloads : list (option str)) (token : str)
        (n : nat) (pg : nat -> PaginatedList) (e : exn) :
  token_endpoint env 0 = Reply token ->
  transport env 0 = Reply tt ->
  (forall i, i < n -> gateway env i = Reply (pg i)) ->
  (forall i, i < n -> pagination_token (pg i) <> None) ->
  gateway env n = Fails e ->
  n < fuel ->
  run environ prompt_text fuel payloads env []
  = (Raise e,
     [ HttpPost (COGNITO_TOKEN_URL environ)
         (lit "grant_type=client_credentials&client_id="
          ++ COGNITO_CLIENT_ID environ
          ++ lit "&client_secret=" ++ COGNITO_CLIENT_SECRET environ);
       TransportOpen (GATEWAY_URL environ) (lit "Bearer " ++ token) ]
     ++ map ListTools (None :: map (fun i => pagination_token (pg i)) (seq 0 n))
     ++ [TransportClose]).
Proof.
  intros Htoken Htransport Hpg Hsome Hfail Hfuel.
  unfold run, startup, get_tools, with_client. cbn [transport_callable].
  unfold create_transport, get_access_token, post_for_token, streamablehttp_client.
  rewrite !run_bind_bind, run_bind_call.
  change (calls_so_far is_HttpPost _) with 0. rewrite Htoken.
  rewrite run_bind_call.
  change (calls_so_far is_TransportOpen _) with 0. rewrite Htransport.
  rewrite run_bind. unfold finally. rewrite run_bind.
  rewrite <- (Loops.loops_agree fuel
                {| transport_callable := create_transport environ |}).
  rewrite (Loops.agent_loop_fails _ env n fuel pg [] None _ e);
    [|assumption..].
  cbn [fst snd]. unfold emit, expected_calls. cbn [fst snd].
  rewrite <- !app_assoc. reflexivity.
Qed.

Lemma a_failed_start_serves_nothing_witness :
  run Sample.environ [] 5 [Some Sample.question; None] Sample2.broken_env []
  = (Raise Sample2.timeout,
     [ HttpPost (lit "https://auth.example/oauth2/token")
         (lit "grant_type=client_credentials&client_id=client&client_secret=secret");
       TransportOpen (lit "https://gateway.example/mcp") (lit "Bearer token-0");
       ListTools None; ListTools (Some (lit "page-2")); TransportClose ]).
Proof.
  apply (a_failed_start_serves_nothing Sample.environ [] Sample2.broken_env 5
           [Some Sample.question; None] (lit "token-0") 1
           (fun _ => Sample.first_page) Sample2.timeout).
  - reflexivity.
  - reflexivity.
  - intros i Hi. destruct i as [|i]; [reflexivity|lia].
  - intros i Hi. discriminate.
  - reflexivity.
  - lia.
Defined.

End RuntimeFacts.
